(** * The website crawling engine of the health-checker backend

    A shallow embedding of [backend/src/services/crawlerService.js]
    (class [WebsiteCrawler] and the exported [crawlWebsite]) together with
    the properties of its specification.

    The crawler is asynchronous JavaScript that drives a headless browser.
    Every [await] is a sequential suspension point, so the control flow is
    embedded as ordinary sequential code over an explicit crawler state (the
    instance fields of the class).  Whatever the program obtains from outside
    (the robots.txt download, the browser, the pages, the clock) is read from
    a [World]; the theorems quantify over every world.  JavaScript exceptions
    are results of type [Outcome]. *)

From Stdlib Require Import ZArith String Ascii List Lia.
From Stdlib Require SpecFloat.
From stdpp Require Import base gmap strings list sorting.

Open Scope string_scope.
Open Scope Z_scope.
Open Scope list_scope.

(** ** JavaScript primitives used by the crawler *)

Module Js.

(** A call either returns a value or throws an [Error] with a message. *)
Inductive Outcome (A : Type) : Type :=
| Returns (a : A)
| Throws (message : string).
Arguments Returns {A} a.
Arguments Throws {A} message.

(** [s.startsWith(p)]: the remainder of [s] behind the prefix [p]. *)
Fixpoint strip_prefix (p s : string) : option string :=
  match p, s with
  | EmptyString, _ => Some s
  | String a p', String b s' =>
      if Ascii.eqb a b then strip_prefix p' s' else None
  | String _ _, EmptyString => None
  end.

Definition startsWith (s p : string) : bool :=
  match strip_prefix p s with Some _ => true | None => false end.

(** [s.replace(pat, '')] with a string pattern: the first occurrence of
    [pat], scanning from the left, is removed; without an occurrence the
    string is returned as it is. *)
Fixpoint remove_first (pat s : string) : string :=
  match strip_prefix pat s with
  | Some rest => rest
  | None =>
      match s with
      | EmptyString => EmptyString
      | String c s' => String c (remove_first pat s')
      end
  end.

(** [s.replace(/\/$/, '')]: one slash is removed when it is the last
    character of the string. *)
Fixpoint strip_trailing_slash (s : string) : string :=
  match s with
  | EmptyString => EmptyString
  | String c EmptyString => if Ascii.eqb c "/" then EmptyString else s
  | String c s' => String c (strip_trailing_slash s')
  end.

(** [s.substring(0, n)] *)
Fixpoint substring0 (n : nat) (s : string) : string :=
  match n, s with
  | S n', String c s' => String c (substring0 n' s')
  | _, _ => EmptyString
  end.

(** Truthiness of an optional string attribute: [undefined] and the empty
    string are falsy. *)
Definition truthy_string (o : option string) : option string :=
  match o with
  | Some EmptyString => None
  | _ => o
  end.

(** [a || b] on optional strings. *)
Definition or_else (a b : option string) : option string :=
  match truthy_string a with
  | Some s => Some s
  | None => b
  end.

(** Truthiness of an optional number: [undefined] and [0] are falsy. *)
Definition truthy_number (o : option Z) : bool :=
  match o with
  | Some n => negb (Z.eqb n 0)
  | None => false
  end.

(** [arr.includes(x)] followed by [arr.push(x)] when it is absent. *)
Definition push_unique (x : string) (arr : list string) : list string :=
  if bool_decide (x ∈ arr) then arr else arr ++ [x].

(** A JavaScript [Map]: insertion ordered, [set] on a present key
    overwrites the value in place. *)
Fixpoint map_set {V : Type} (k : string) (v : V)
    (m : list (string * V)) : list (string * V) :=
  match m with
  | [] => [(k, v)]
  | (k', v') :: m' =>
      if bool_decide (k' = k) then (k, v) :: m' else (k', v') :: map_set k v m'
  end.

Definition map_keys {V : Type} (m : list (string * V)) : list string :=
  map fst m.

Definition map_values {V : Type} (m : list (string * V)) : list V :=
  map snd m.

Definition map_size {V : Type} (m : list (string * V)) : nat := length m.

(** The own properties of a plain object [{}] used as a dictionary, and the
    assignment [obj[k] = v].  The name [__proto__] is the prototype accessor
    that every plain object inherits: assigning to it sets the prototype of
    the object when [v] is an object and does nothing when [v] is a
    primitive; in neither case does the object get a property. *)
Definition object_set {V : Type} (k : string) (v : V)
    (obj : gmap string V) : gmap string V :=
  if bool_decide (k = "__proto__") then obj else <[k := v]> obj.

(** What reading a property gives: [undefined], [null] or a value. *)
Inductive Nullable (A : Type) : Type :=
| Undefined
| Null
| Value (a : A).
Arguments Undefined {A}.
Arguments Null {A}.
Arguments Value {A} a.

(** Reading a property that the object may not have. *)
Definition read {A : Type} (o : option A) : Nullable A :=
  match o with
  | Some a => Value a
  | None => Undefined
  end.

(** [s || null] on a string property that the object may not have. *)
Definition or_null (o : option string) : Nullable string :=
  match truthy_string o with
  | Some s => Value s
  | None => Null
  end.

(** Numbers are IEEE 754 binary64 values; [+] and [/] round to nearest,
    ties to even. *)
Definition double : Type := SpecFloat.spec_float.

Definition double_zero : double := SpecFloat.S754_zero false.

(** The double nearest to an integer (the integer itself up to [2^53]). *)
Definition double_of_Z (z : Z) : double :=
  SpecFloat.binary_normalize 53 1024 z 0 false.

Definition double_add (x y : double) : double := SpecFloat.SFadd 53 1024 x y.

Definition double_div (x y : double) : double := SpecFloat.SFdiv 53 1024 x y.

End Js.

Export Js.

(** ** The host platform

    [URL] (the WHATWG parser of Node.js) and [String.prototype.trim] are
    built-ins, not code of the repository: the crawler is embedded over any
    implementation of them. *)

Class Platform := {
  (** [new URL(s).href], [None] when the constructor throws *)
  url_href : string -> option string;
  (** [new URL(ref, base).href], [None] when the constructor throws *)
  url_resolve : string -> string -> option string;
  (** [new URL(s).hostname], [None] when the constructor throws *)
  url_hostname : string -> option string;
  (** [`${u.protocol}//${u.host}`] of [new URL(s)] *)
  url_origin : string -> option string;
  (** [s.trim()] *)
  str_trim : string -> string
}.

(** ** Data model *)

(** [this.config], after the defaults were merged in. *)
Record Config := {
  maxDepth : Z;
  maxPages : Z;
  timeout : Z;
  respectRobotsTxt : bool;
  userAgent : string;
  concurrency : Z;
  screenshotEnabled : bool;
  headless : bool
}.

Definition DEFAULT_CONFIG : Config := {|
  maxDepth := 5;
  maxPages := 100;
  timeout := 30000;
  respectRobotsTxt := true;
  userAgent := "HealthChecker-Bot/1.0 (https://healthchecker.app)";
  concurrency := 3;
  screenshotEnabled := true;
  headless := true
|}.

(** The [config] argument of the constructor: any subset of the fields. *)
Record Options := {
  opt_maxDepth : option Z;
  opt_maxPages : option Z;
  opt_timeout : option Z;
  opt_respectRobotsTxt : option bool;
  opt_userAgent : option string;
  opt_concurrency : option Z;
  opt_screenshotEnabled : option bool;
  opt_headless : option bool
}.

Definition no_options : Options :=
  Build_Options None None None None None None None None.

(** [{ ...DEFAULT_CONFIG, ...config }] *)
Definition merge_config (o : Options) : Config := {|
  maxDepth := default (maxDepth DEFAULT_CONFIG) (opt_maxDepth o);
  maxPages := default (maxPages DEFAULT_CONFIG) (opt_maxPages o);
  timeout := default (timeout DEFAULT_CONFIG) (opt_timeout o);
  respectRobotsTxt :=
    default (respectRobotsTxt DEFAULT_CONFIG) (opt_respectRobotsTxt o);
  userAgent := default (userAgent DEFAULT_CONFIG) (opt_userAgent o);
  concurrency := default (concurrency DEFAULT_CONFIG) (opt_concurrency o);
  screenshotEnabled :=
    default (screenshotEnabled DEFAULT_CONFIG) (opt_screenshotEnabled o);
  headless := default (headless DEFAULT_CONFIG) (opt_headless o)
|}.

(** An element of [this.crawlQueue]. *)
Record FrontierEntry := {
  fe_url : string;
  fe_depth : Z;
  fe_parentUrl : option string
}.

Record Links := {
  internal : list string;
  external : list string
}.

Record Image := {
  image_url : string;
  image_alt : string
}.

Record Resources := {
  css : list string;
  js : list string;
  images : list Image
}.

Record Headings := {
  h1 : list string; h2 : list string; h3 : list string;
  h4 : list string; h5 : list string; h6 : list string
}.

Record Headers := {
  contentType : option string;
  server : option string;
  cacheControl : option string;
  xFrameOptions : option string;
  strictTransportSecurity : option string
}.

(** The object returned by [extractPageData]. *)
Record PageData := {
  pd_url : string;
  pd_title : string;
  pd_depth : Z;
  pd_parentUrl : option string;
  pd_statusCode : Z;
  pd_loadTime : Z;
  pd_crawledAt : string;
  pd_meta : gmap string string;
  pd_headings : Headings;
  pd_links : Links;
  pd_resources : Resources;
  pd_headers : Headers;
  pd_screenshot : option string
}.

(** The object stored by the [catch] branch of [crawlPage]. *)
Record PageError := {
  pe_url : string;
  pe_error : string;
  pe_depth : Z;
  pe_parentUrl : option string;
  pe_crawledAt : string
}.

(** A value of the [results] map is one of the two object shapes. *)
Inductive PageResult :=
| Extracted (d : PageData)
| Failed (e : PageError).

(** Property reads on a stored result; [None] is [undefined]. *)
Definition result_url (r : PageResult) : string :=
  match r with Extracted d => pd_url d | Failed e => pe_url e end.
Definition result_depth (r : PageResult) : Z :=
  match r with Extracted d => pd_depth d | Failed e => pe_depth e end.
Definition result_parentUrl (r : PageResult) : option string :=
  match r with Extracted d => pd_parentUrl d | Failed e => pe_parentUrl e end.
Definition result_crawledAt (r : PageResult) : string :=
  match r with Extracted d => pd_crawledAt d | Failed e => pe_crawledAt e end.
Definition result_title (r : PageResult) : option string :=
  match r with Extracted d => Some (pd_title d) | Failed _ => None end.
Definition result_loadTime (r : PageResult) : option Z :=
  match r with Extracted d => Some (pd_loadTime d) | Failed _ => None end.
Definition result_statusCode (r : PageResult) : option Z :=
  match r with Extracted d => Some (pd_statusCode d) | Failed _ => None end.
Definition result_error (r : PageResult) : option string :=
  match r with Extracted _ => None | Failed e => Some (pe_error e) end.
Definition result_links (r : PageResult) : option Links :=
  match r with Extracted d => Some (pd_links d) | Failed _ => None end.
Definition result_resources (r : PageResult) : option Resources :=
  match r with Extracted d => Some (pd_resources d) | Failed _ => None end.

(** ** The outside world *)

(** What the cheerio selectors of [extractPageData] find in the HTML of a
    page, attribute by attribute ([None]: the attribute is absent). *)
Record MetaElem := {
  meta_name : option string;
  meta_property : option string;
  meta_content : option string
}.

Record ImgElem := {
  img_src : string;
  img_alt : option string
}.

Record Document := {
  doc_meta : list MetaElem;          (* $('meta') *)
  doc_anchors : list string;         (* href of $('a[href]') *)
  doc_stylesheets : list (option string); (* href of $('link[rel="stylesheet"]') *)
  doc_scripts : list string;         (* src of $('script[src]') *)
  doc_imgs : list ImgElem;           (* $('img[src]') *)
  doc_h1 : list string; doc_h2 : list string; doc_h3 : list string;
  doc_h4 : list string; doc_h5 : list string; doc_h6 : list string
}.

(** The puppeteer [HTTPResponse] of a navigation. *)
Record Response := {
  status : Z;
  headers : gmap string string
}.

(** How the browser behaves for one page opened by [crawlPage]. *)
Record PageSession := {
  ps_newPage : Outcome unit;              (* browser.newPage() *)
  ps_setup : Outcome unit;                (* setUserAgent, setViewport *)
  ps_goto : Outcome (option Response);    (* page.goto; may resolve to null *)
  ps_loadTime : Z;                        (* Date.now() - startTime *)
  ps_content : Outcome Document;          (* page.content() *)
  ps_screenshot : Outcome string;         (* page.screenshot() *)
  ps_title : Outcome string;              (* page.title() *)
  ps_clock : string;                      (* new Date().toISOString() *)
  ps_close : Outcome unit                 (* page.close() *)
}.

(** [robotsParser.isAllowed(url, userAgent)]: a boolean or [undefined]. *)
Definition RobotsPolicy : Type := string -> string -> option bool.

Record World := {
  w_crawlId : string;                         (* generateCrawlId() *)
  w_startTime : Z;                            (* Date.now() in crawl() *)
  w_endTime : Z;                              (* Date.now() in generateReport() *)
  w_reportClock : string;                     (* new Date().toISOString() *)
  w_robots : string -> Outcome RobotsPolicy;  (* axios.get + RobotsParser *)
  w_launch : Outcome unit;                    (* puppeteer.launch *)
  w_page : nat -> string -> PageSession;      (* the n-th page, opened for a url *)
  w_browserClose : nat -> Outcome unit        (* the n-th call of browser.close() *)
}.

(** The calls the crawler makes, in the order it makes them. *)
Inductive Event :=
| RobotsGet (robotsUrl : string)
| BrowserLaunch (ok : bool)
| Shift (e : FrontierEntry)
| NewPage (url : string) (ok : bool)
| Goto (url : string) (ok : bool)
| PageClose (url : string) (ok : bool)
| BrowserClose (ok : bool).

Definition is_ok {A : Type} (o : Outcome A) : bool :=
  match o with Returns _ => true | Throws _ => false end.

Definition is_NewPage (ev : Event) : bool :=
  match ev with NewPage _ _ => true | _ => false end.
Definition is_BrowserLaunch (ev : Event) : bool :=
  match ev with BrowserLaunch _ => true | _ => false end.
Definition is_BrowserLaunched (ev : Event) : bool :=
  match ev with BrowserLaunch true => true | _ => false end.
Definition is_BrowserClose (ev : Event) : bool :=
  match ev with BrowserClose _ => true | _ => false end.
Definition is_Goto (url : string) (ev : Event) : bool :=
  match ev with Goto u _ => bool_decide (u = url) | _ => false end.

Definition count (p : Event -> bool) (j : list Event) : nat :=
  length (List.filter p j).

(** The entries taken from the queue, oldest first. *)
Fixpoint shifted (j : list Event) : list FrontierEntry :=
  match j with
  | [] => []
  | Shift e :: j' => e :: shifted j'
  | _ :: j' => shifted j'
  end.

(** ** The crawler state: the instance fields of [WebsiteCrawler] *)

Inductive Browser := Chromium.

Record Crawler := {
  startUrl : string;
  config : Config;
  visitedUrls : gset string;
  crawlQueue : list FrontierEntry;
  results : list (string * PageResult);
  robotsParser : option RobotsPolicy;
  browser : option Browser;
  crawlId : string;
  startTime : option Z;
  (** not a field of the class: the calls made so far *)
  journal : list Event
}.

Definition set_visitedUrls (v : gset string) (c : Crawler) : Crawler :=
  Build_Crawler (startUrl c) (config c) v (crawlQueue c) (results c)
    (robotsParser c) (browser c) (crawlId c) (startTime c) (journal c).
Definition set_crawlQueue (q : list FrontierEntry) (c : Crawler) : Crawler :=
  Build_Crawler (startUrl c) (config c) (visitedUrls c) q (results c)
    (robotsParser c) (browser c) (crawlId c) (startTime c) (journal c).
Definition set_results (r : list (string * PageResult)) (c : Crawler) : Crawler :=
  Build_Crawler (startUrl c) (config c) (visitedUrls c) (crawlQueue c) r
    (robotsParser c) (browser c) (crawlId c) (startTime c) (journal c).
Definition set_robotsParser (p : option RobotsPolicy) (c : Crawler) : Crawler :=
  Build_Crawler (startUrl c) (config c) (visitedUrls c) (crawlQueue c)
    (results c) p (browser c) (crawlId c) (startTime c) (journal c).
Definition set_browser (b : option Browser) (c : Crawler) : Crawler :=
  Build_Crawler (startUrl c) (config c) (visitedUrls c) (crawlQueue c)
    (results c) (robotsParser c) b (crawlId c) (startTime c) (journal c).
Definition set_startTime (t : option Z) (c : Crawler) : Crawler :=
  Build_Crawler (startUrl c) (config c) (visitedUrls c) (crawlQueue c)
    (results c) (robotsParser c) (browser c) (crawlId c) t (journal c).
Definition emit (ev : Event) (c : Crawler) : Crawler :=
  Build_Crawler (startUrl c) (config c) (visitedUrls c) (crawlQueue c)
    (results c) (robotsParser c) (browser c) (crawlId c) (startTime c)
    (journal c ++ [ev]).

(** ** The report *)

Record ResourceCounts := {
  cssCount : nat;
  jsCount : nat;
  imageCount : nat
}.

Record SitemapEntry := {
  se_url : string;
  se_title : Nullable string;             (* [pageData.title] *)
  se_depth : Z;
  se_links : list string;
  se_resources : option ResourceCounts;   (* [None] is the empty object *)
  se_loadTime : Nullable Z;               (* [pageData.loadTime] *)
  se_statusCode : Nullable Z;             (* [pageData.statusCode] *)
  se_error : Nullable string              (* [pageData.error || null] *)
}.

Record Statistics := {
  totalLinks : nat;
  totalImages : nat;
  avgLoadTime : double
}.

Record ConfigSnapshot := {
  cs_maxDepth : Z;
  cs_maxPages : Z;
  cs_respectRobotsTxt : bool
}.

Record Report := {
  rp_crawlId : string;
  website : string;
  totalPages : nat;
  rp_crawledAt : string;
  duration : Z;
  rp_config : ConfigSnapshot;
  sitemap : gmap string SitemapEntry;
  statistics : Statistics
}.

(** ** The methods of [WebsiteCrawler] *)

Section WebsiteCrawler.

Context `{Platform}.

Definition normalizeUrl (url : string) : Outcome string :=
  let url :=
    if negb (startsWith url "http://") && negb (startsWith url "https://")
    then "https://" +:+ url else url in
  match url_href url with
  | Some href => Returns (strip_trailing_slash href)
  | None => Throws ("Invalid URL: " +:+ url)
  end.

Definition getDomain (url : string) : option string := url_hostname url.

Definition isInternalUrl (c : Crawler) (url : string) : bool :=
  bool_decide (getDomain (startUrl c) = getDomain url).

(** The constructor; it throws when the start URL does not parse. *)
Definition construct (w : World) (startUrl : string) (options : Options)
    : Outcome Crawler :=
  match normalizeUrl startUrl with
  | Throws m => Throws m
  | Returns u =>
      Returns {|
        startUrl := u;
        config := merge_config options;
        visitedUrls := ∅;
        crawlQueue := [];
        results := [];
        robotsParser := None;
        browser := None;
        crawlId := w_crawlId w;
        startTime := None;
        journal := []
      |}
  end.

Definition loadRobotsTxt (w : World) (c : Crawler) : Crawler :=
  match url_origin (startUrl c) with
  | None => set_robotsParser None c
  | Some origin =>
      let robotsUrl := origin +:+ "/robots.txt" in
      let c := emit (RobotsGet robotsUrl) c in
      match w_robots w robotsUrl with
      | Returns policy => set_robotsParser (Some policy) c
      | Throws _ => set_robotsParser None c
      end
  end.

(** The value of [isAllowedByRobots]: [true], [false] or [undefined]. *)
Definition isAllowedByRobots (c : Crawler) (url : string) : option bool :=
  match robotsParser c with
  | Some policy =>
      if negb (respectRobotsTxt (config c)) then Some true
      else policy url (userAgent (config c))
  | None => Some true
  end.

(** Truthiness of that value, as tested by [!this.isAllowedByRobots(url)]. *)
Definition truthy_bool (o : option bool) : bool :=
  match o with Some true => true | _ => false end.

(** *** extractPageData, category by category *)

Definition extract_meta (metas : list MetaElem) : gmap string string :=
  fold_left
    (fun metaTags elem =>
       match or_else (meta_name elem) (truthy_string (meta_property elem)),
             truthy_string (meta_content elem) with
       | Some name, Some content => object_set name content metaTags
       | _, _ => metaTags
       end)
    metas ∅.

Definition extract_links (c : Crawler) (url : string) (anchors : list string)
    : Links :=
  fold_left
    (fun links href =>
       match url_resolve href url with
       | Some abs =>
           let absoluteUrl := strip_trailing_slash abs in
           if isInternalUrl c absoluteUrl
           then {| internal := push_unique absoluteUrl (internal links);
                   external := external links |}
           else {| internal := internal links;
                   external := push_unique absoluteUrl (external links) |}
       | None => links          (* invalid URL, skip *)
       end)
    anchors {| internal := []; external := [] |}.

Definition extract_css (url : string) (sheets : list (option string))
    : list string :=
  fold_left
    (fun cssFiles href =>
       match truthy_string href with
       | Some href =>
           match url_resolve href url with
           | Some abs => cssFiles ++ [abs]
           | None => cssFiles
           end
       | None => cssFiles
       end)
    sheets [].

Definition extract_js (url : string) (scripts : list string) : list string :=
  fold_left
    (fun jsFiles src =>
       match truthy_string (Some src) with
       | Some src =>
           match url_resolve src url with
           | Some abs => jsFiles ++ [abs]
           | None => jsFiles
           end
       | None => jsFiles
       end)
    scripts [].

Definition extract_images (url : string) (imgs : list ImgElem) : list Image :=
  fold_left
    (fun images elem =>
       let alt := default "" (truthy_string (img_alt elem)) in
       match truthy_string (Some (img_src elem)) with
       | Some src =>
           match url_resolve src url with
           | Some abs => images ++ [{| image_url := abs; image_alt := alt |}]
           | None => images
           end
       | None => images
       end)
    imgs [].

Definition extract_headings (doc : Document) : Headings := {|
  h1 := map str_trim (doc_h1 doc);
  h2 := map str_trim (doc_h2 doc);
  h3 := map str_trim (doc_h3 doc);
  h4 := map str_trim (doc_h4 doc);
  h5 := map str_trim (doc_h5 doc);
  h6 := map str_trim (doc_h6 doc)
|}.

(** [response.headers()] and the five reads; a null response is a
    [TypeError]. *)
Definition extract_headers (response : option Response) : Outcome Headers :=
  match response with
  | None => Throws "Cannot read properties of null (reading 'headers')"
  | Some r =>
      let hs := headers r in
      Returns {|
        contentType := hs !! "content-type";
        server := hs !! "server";
        cacheControl := hs !! "cache-control";
        xFrameOptions := hs !! "x-frame-options";
        strictTransportSecurity := hs !! "strict-transport-security"
      |}
  end.

(** The screenshot with its own [try]/[catch]; only a prefix is kept. *)
Definition take_screenshot (c : Crawler) (page : PageSession) : option string :=
  if screenshotEnabled (config c) then
    match ps_screenshot page with
    | Returns data =>
        match truthy_string (Some data) with
        | Some data =>
            Some ("data:image/jpeg;base64," +:+ substring0 100 data +:+ "...")
        | None => None
        end
    | Throws _ => None
    end
  else None.

Definition extractPageData (c : Crawler) (page : PageSession) (url : string)
    (response : option Response) (loadTime : Z) (depth : Z)
    (parentUrl : option string) : Outcome PageData :=
  match ps_content page with
  | Throws m => Throws m
  | Returns doc =>
      let metaTags := extract_meta (doc_meta doc) in
      let links := extract_links c url (doc_anchors doc) in
      let cssFiles := extract_css url (doc_stylesheets doc) in
      let jsFiles := extract_js url (doc_scripts doc) in
      let images := extract_images url (doc_imgs doc) in
      let headings := extract_headings doc in
      match extract_headers response with
      | Throws m => Throws m
      | Returns hdrs =>
          let screenshot := take_screenshot c page in
          match ps_title page, response with
          | Throws m, _ => Throws m
          | Returns title, Some r =>
              Returns {|
                pd_url := url;
                pd_title := title;
                pd_depth := depth;
                pd_parentUrl := parentUrl;
                pd_statusCode := status r;
                pd_loadTime := loadTime;
                pd_crawledAt := ps_clock page;
                pd_meta := metaTags;
                pd_headings := headings;
                pd_links := links;
                pd_resources :=
                  {| css := cssFiles; js := jsFiles; images := take 50 images |};
                pd_headers := hdrs;
                pd_screenshot := screenshot
              |}
          | Returns _, None =>
              Throws "Cannot read properties of null (reading 'status')"
          end
      end
  end.

(** *** crawlPage *)

(** The object stored by the [catch] branch. *)
Definition store_error (url : string) (depth : Z) (parentUrl : option string)
    (page : PageSession) (message : string) (c : Crawler) : Crawler :=
  set_results
    (map_set url
       (Failed {| pe_url := url; pe_error := message; pe_depth := depth;
                  pe_parentUrl := parentUrl; pe_crawledAt := ps_clock page |})
       (results c))
    c.

(** The loop over [pageData.links.internal] that feeds the queue. *)
Definition enqueue_links (url : string) (depth : Z) (links : list string)
    (c : Crawler) : Crawler :=
  if depth <? maxDepth (config c) then
    fold_left
      (fun c link =>
         if negb (bool_decide (link ∈ visitedUrls c))
            && (Z.of_nat (size (visitedUrls c)) <? maxPages (config c))
         then set_crawlQueue
                (crawlQueue c ++
                 [{| fe_url := link; fe_depth := depth + 1;
                     fe_parentUrl := Some url |}])
                c
         else c)
      links c
  else c.

Definition crawlPage (w : World) (c : Crawler) (url : string) (depth : Z)
    (parentUrl : option string) : Outcome unit * Crawler :=
  let page := w_page w (count is_NewPage (journal c)) url in
  match ps_newPage page with
  | Throws m => (Throws m, emit (NewPage url false) c)
  | Returns _ =>
      let c := emit (NewPage url true) c in
      (* try { ... } catch (error) { ... } *)
      let c :=
        match ps_setup page with
        | Throws m => store_error url depth parentUrl page m c
        | Returns _ =>
            match ps_goto page with
            | Throws m =>
                store_error url depth parentUrl page m
                  (emit (Goto url false) c)
            | Returns response =>
                let c := emit (Goto url true) c in
                let loadTime := ps_loadTime page in
                (* mark as visited *)
                let c := set_visitedUrls ({[url]} ∪ visitedUrls c) c in
                match extractPageData c page url response loadTime depth
                        parentUrl with
                | Throws m => store_error url depth parentUrl page m c
                | Returns pageData =>
                    let c :=
                      set_results
                        (map_set url (Extracted pageData) (results c)) c in
                    enqueue_links url depth (internal (pd_links pageData)) c
                end
            end
        end in
      (* finally { await page.close() } *)
      match ps_close page with
      | Returns _ => (Returns tt, emit (PageClose url true) c)
      | Throws m => (Throws m, emit (PageClose url false) c)
      end
  end.

(** *** The queue loop of [crawl] *)

Definition loop_condition (c : Crawler) : bool :=
  (0 <? Z.of_nat (length (crawlQueue c)))
  && (Z.of_nat (size (visitedUrls c)) <? maxPages (config c)).

(** One pass through the body of the [while]. *)
Definition loop_body (w : World) (c : Crawler) : Outcome unit * Crawler :=
  match crawlQueue c with
  | [] => (Throws "Cannot destructure 'undefined'", c)
  | e :: rest =>
      let c := emit (Shift e) (set_crawlQueue rest c) in
      if bool_decide (fe_url e ∈ visitedUrls c) then (Returns tt, c)
      else if maxDepth (config c) <? fe_depth e then (Returns tt, c)
      else if negb (truthy_bool (isAllowedByRobots c (fe_url e)))
      then (Returns tt, c)
      else crawlPage w c (fe_url e) (fe_depth e) (fe_parentUrl e)
  end.

(** The [while] loop; [None] when [fuel] passes do not finish it. *)
Fixpoint crawl_loop (w : World) (fuel : nat) (c : Crawler)
    : option (Outcome unit * Crawler) :=
  if loop_condition c then
    match fuel with
    | O => None
    | S fuel' =>
        match loop_body w c with
        | (Returns _, c') => crawl_loop w fuel' c'
        | (Throws m, c') => Some (Throws m, c')
        end
    end
  else Some (Returns tt, c).

(** *** generateReport *)

Definition sitemap_path (c : Crawler) (url : string) : string :=
  match remove_first (startUrl c) url with
  | EmptyString => "/"
  | path => path
  end.

Definition sitemap_entry (pageData : PageResult) : SitemapEntry := {|
  se_url := result_url pageData;
  se_title := read (result_title pageData);
  se_depth := result_depth pageData;
  se_links :=
    match result_links pageData with Some l => internal l | None => [] end;
  se_resources :=
    match result_resources pageData with
    | Some r =>
        Some {| cssCount := length (css r); jsCount := length (js r);
                imageCount := length (images r) |}
    | None => None
    end;
  se_loadTime := read (result_loadTime pageData);
  se_statusCode := read (result_statusCode pageData);
  se_error := or_null (result_error pageData)
|}.

Definition build_sitemap (c : Crawler) : gmap string SitemapEntry :=
  fold_left
    (fun sitemap '(url, pageData) =>
       object_set (sitemap_path c url) (sitemap_entry pageData) sitemap)
    (results c) ∅.

Definition count_links (page : PageResult) : nat :=
  match result_links page with
  | Some l => (length (internal l) + length (external l))%nat
  | None => 0%nat
  end.

Definition count_images (page : PageResult) : nat :=
  match result_resources page with
  | Some r => length (images r)
  | None => 0%nat
  end.

(** The pages that pass [.filter(page => page.loadTime)]. *)
Definition timed_pages (pages : list PageResult) : list PageResult :=
  List.filter (fun page => truthy_number (result_loadTime page)) pages.

(** [.reduce((sum, page, i, arr) => sum + page.loadTime / arr.length, 0)] *)
Definition average_loadTime (pages : list PageResult) : double :=
  let arr := timed_pages pages in
  fold_left
    (fun sum page =>
       double_add sum
         (double_div (double_of_Z (default 0 (result_loadTime page)))
            (double_of_Z (Z.of_nat (length arr)))))
    arr double_zero.

Definition generateReport (w : World) (c : Crawler) : Report := {|
  rp_crawlId := crawlId c;
  website := startUrl c;
  totalPages := size (visitedUrls c);
  rp_crawledAt := w_reportClock w;
  duration := w_endTime w - default 0 (startTime c);
  rp_config :=
    {| cs_maxDepth := maxDepth (config c);
       cs_maxPages := maxPages (config c);
       cs_respectRobotsTxt := respectRobotsTxt (config c) |};
  sitemap := build_sitemap c;
  statistics :=
    {| totalLinks :=
         fold_left (fun sum page => (sum + count_links page)%nat)
           (map_values (results c)) 0%nat;
       totalImages :=
         fold_left (fun sum page => (sum + count_images page)%nat)
           (map_values (results c)) 0%nat;
       avgLoadTime := average_loadTime (map_values (results c)) |}
|}.

(** *** crawl *)

(** The [catch] of [crawl]: close the browser if there is one, rethrow. *)
Definition catch_and_close (w : World) (message : string) (c : Crawler)
    : Outcome Report * Crawler :=
  match browser c with
  | Some _ =>
      match w_browserClose w (count is_BrowserClose (journal c)) with
      | Returns _ => (Throws message, emit (BrowserClose true) c)
      | Throws m => (Throws m, emit (BrowserClose false) c)
      end
  | None => (Throws message, c)
  end.

(** The state in which the [while] loop is entered. *)
Definition start_loop (c : Crawler) : Crawler :=
  set_crawlQueue
    (crawlQueue c ++
     [{| fe_url := startUrl c; fe_depth := 0; fe_parentUrl := None |}])
    (set_browser (Some Chromium) (emit (BrowserLaunch true) c)).

Definition crawl (w : World) (fuel : nat) (c : Crawler)
    : option (Outcome Report * Crawler) :=
  let c := set_startTime (Some (w_startTime w)) c in
  let c := loadRobotsTxt w c in
  match w_launch w with
  | Throws m => Some (catch_and_close w m (emit (BrowserLaunch false) c))
  | Returns _ =>
      match crawl_loop w fuel (start_loop c) with
      | None => None
      | Some (Throws m, c) => Some (catch_and_close w m c)
      | Some (Returns _, c) =>
          match w_browserClose w (count is_BrowserClose (journal c)) with
          | Throws m => Some (catch_and_close w m (emit (BrowserClose false) c))
          | Returns _ =>
              let c := emit (BrowserClose true) c in
              Some (Returns (generateReport w c), c)
          end
      end
  end.

(** [exports.crawlWebsite]: the report or the error, and the calls made. *)
Definition crawlWebsite (w : World) (fuel : nat) (url : string)
    (options : Options) : option (Outcome Report * list Event) :=
  match construct w url options with
  | Throws m => Some (Throws m, [])
  | Returns crawler =>
      match crawl w fuel crawler with
      | Some (out, c) => Some (out, journal c)
      | None => None
      end
  end.

End WebsiteCrawler.

(** ** A fragment of the platform, for running the crawler

    The addresses [http://host/path] and [https://host/path] whose host is
    made of lower-case letters, dots and hyphens and whose path is made of
    letters, digits, [/], [-], [_] and [.] with no segment that starts with a
    dot, and the references to them that are absolute or start with one slash.  On these the WHATWG parser changes
    nothing but an empty path, which becomes [/].  Every other string is
    outside the fragment and is answered with [None]; the example sites below
    stay inside it. *)

Module Fragment.

Definition between (lo hi : nat) (c : ascii) : bool :=
  (lo <=? nat_of_ascii c)%nat && (nat_of_ascii c <=? hi)%nat.

Definition host_char (c : ascii) : bool :=
  between 97 122 c || Ascii.eqb c "." || Ascii.eqb c "-".

Definition path_char (c : ascii) : bool :=
  between 97 122 c || between 65 90 c || between 48 57 c
  || Ascii.eqb c "/" || Ascii.eqb c "-" || Ascii.eqb c "_" || Ascii.eqb c ".".

Fixpoint all_chars (p : ascii -> bool) (s : string) : bool :=
  match s with
  | EmptyString => true
  | String c s' => p c && all_chars p s'
  end.

(** No path segment starts with a dot (the parser rewrites [.] and [..]). *)
Fixpoint plain_segments (s : string) : bool :=
  match s with
  | EmptyString => true
  | String c s' =>
      match s' with
      | String d _ => negb (Ascii.eqb c "/" && Ascii.eqb d ".")
      | EmptyString => true
      end && plain_segments s'
  end.

(** The part before the first slash and the part from it on. *)
Fixpoint split_host (s : string) : string * string :=
  match s with
  | EmptyString => (EmptyString, EmptyString)
  | String c s' =>
      if Ascii.eqb c "/" then (EmptyString, s)
      else let (host, path) := split_host s' in (String c host, path)
  end.

Record Parsed := {
  scheme : string;     (* with the two slashes *)
  host : string;
  pathname : string
}.

Definition parse (s : string) : option Parsed :=
  let scheme_rest :=
    match strip_prefix "https://" s with
    | Some rest => Some ("https://", rest)
    | None =>
        match strip_prefix "http://" s with
        | Some rest => Some ("http://", rest)
        | None => None
        end
    end in
  match scheme_rest with
  | Some (scheme, rest) =>
      let (host, path) := split_host rest in
      if negb (bool_decide (host = EmptyString))
         && all_chars host_char host && all_chars path_char path
         && plain_segments path
      then Some {| scheme := scheme; host := host;
                   pathname := match path with
                               | EmptyString => "/"
                               | _ => path
                               end |}
      else None
  | None => None
  end.

Definition serialize (u : Parsed) : string :=
  scheme u +:+ host u +:+ pathname u.

Definition href (s : string) : option string := serialize <$> parse s.

Definition origin (s : string) : option string :=
  (fun u => scheme u +:+ host u) <$> parse s.

Definition resolve (ref base : string) : option string :=
  match parse base with
  | None => None
  | Some b =>
      match parse ref with
      | Some u => Some (serialize u)
      | None =>
          if startsWith ref "/" && negb (startsWith ref "//")
             && all_chars path_char ref && plain_segments ref
          then Some (scheme b +:+ host b +:+ ref)
          else None
      end
  end.

Definition is_space (c : ascii) : bool :=
  between 9 13 c || Ascii.eqb c " ".

Fixpoint trim_start (s : string) : string :=
  match s with
  | String c s' => if is_space c then trim_start s' else s
  | EmptyString => EmptyString
  end.

Fixpoint trim_end (s : string) : string :=
  match s with
  | EmptyString => EmptyString
  | String c s' =>
      match trim_end s' with
      | EmptyString => if is_space c then EmptyString else String c EmptyString
      | t => String c t
      end
  end.

#[export] Instance platform : Platform := {|
  url_href := href;
  url_resolve := resolve;
  url_hostname := fun s => host <$> parse s;
  url_origin := origin;
  str_trim := fun s => trim_end (trim_start s)
|}.

End Fragment.

(** ** Example sites *)

Module Sites.

Import Fragment.

Definition document (anchors : list string) : Document := {|
  doc_meta :=
    [{| meta_name := Some "description"; meta_property := None;
        meta_content := Some "An example page" |}];
  doc_anchors := anchors;
  doc_stylesheets := [Some "/site.css"];
  doc_scripts := ["/app.js"];
  doc_imgs := [{| img_src := "/logo.png"; img_alt := None |}];
  doc_h1 := [" Welcome "]; doc_h2 := []; doc_h3 := [];
  doc_h4 := []; doc_h5 := []; doc_h6 := []
|}.

(** A page that loads in [ms] milliseconds and shows these anchors. *)
Definition loaded (anchors : list string) (ms : Z) : PageSession := {|
  ps_newPage := Returns ();
  ps_setup := Returns ();
  ps_goto :=
    Returns (Some {| status := 200;
                     headers := {[ "content-type" := "text/html" ]} |});
  ps_loadTime := ms;
  ps_content := Returns (document anchors);
  ps_screenshot := Returns "/9j/4AAQSkZJRgABAQAAAQABAAD";
  ps_title := Returns "Example";
  ps_clock := "2026-01-03T10:00:00.000Z";
  ps_close := Returns ()
|}.

(** A page whose navigation exceeds the timeout. *)
Definition timed_out : PageSession := {|
  ps_newPage := Returns ();
  ps_setup := Returns ();
  ps_goto := Throws "Navigation timeout of 30000 ms exceeded";
  ps_loadTime := 30000;
  ps_content := Returns (document []);
  ps_screenshot := Returns "";
  ps_title := Returns "";
  ps_clock := "2026-01-03T10:00:30.000Z";
  ps_close := Returns ()
|}.

(** A page whose navigation resolves without a response object. *)
Definition without_response (anchors : list string) : PageSession := {|
  ps_newPage := Returns ();
  ps_setup := Returns ();
  ps_goto := Returns None;
  ps_loadTime := 800;
  ps_content := Returns (document anchors);
  ps_screenshot := Returns "/9j/4AAQSkZJRgABAQAAAQABAAD";
  ps_title := Returns "Example";
  ps_clock := "2026-01-03T10:00:00.000Z";
  ps_close := Returns ()
|}.

(** A page that loads but cannot be captured. *)
Definition without_screenshot (anchors : list string) (ms : Z)
    : PageSession := {|
  ps_newPage := Returns ();
  ps_setup := Returns ();
  ps_goto :=
    Returns (Some {| status := 200;
                     headers := {[ "content-type" := "text/html" ]} |});
  ps_loadTime := ms;
  ps_content := Returns (document anchors);
  ps_screenshot := Throws "Protocol error (Page.captureScreenshot)";
  ps_title := Returns "Example";
  ps_clock := "2026-01-03T10:00:00.000Z";
  ps_close := Returns ()
|}.

(** A world in which robots.txt is missing, the browser starts and closes,
    and every address always behaves the same way. *)
Definition world (pages : string -> PageSession) : World := {|
  w_crawlId := "crawl_1704294000000_abc123xyz";
  w_startTime := 1704294000000;
  w_endTime := 1704294060000;
  w_reportClock := "2026-01-03T10:01:00.000Z";
  w_robots := fun _ => Throws "Request failed with status code 404";
  w_launch := Returns ();
  w_page := fun _ url => pages url;
  w_browserClose := fun _ => Returns ()
|}.

(** The same world with a robots.txt that disallows [/private]. *)
Definition world_with_robots (pages : string -> PageSession) : World := {|
  w_crawlId := "crawl_1704294000000_abc123xyz";
  w_startTime := 1704294000000;
  w_endTime := 1704294060000;
  w_reportClock := "2026-01-03T10:01:00.000Z";
  w_robots := fun _ =>
    Returns (fun url _ =>
               Some (negb (bool_decide (url = "https://example.com/private"))));
  w_launch := Returns ();
  w_page := fun _ url => pages url;
  w_browserClose := fun _ => Returns ()
|}.

(** The home page links to three pages that all time out. *)
Definition broken_links (url : string) : PageSession :=
  if bool_decide (url = "https://example.com")
  then loaded ["/a"; "/b"; "/c"] 900
  else timed_out.

(** Two pages link to [/x], which times out. *)
Definition shared_link (url : string) : PageSession :=
  if bool_decide (url = "https://example.com") then loaded ["/a"; "/x"] 900
  else if bool_decide (url = "https://example.com/a") then loaded ["/x"] 700
  else timed_out.

(** A crawl started below the root of the site. *)
Definition blog (url : string) : PageSession :=
  if bool_decide (url = "https://example.com/blog") then loaded ["/about"] 900
  else loaded [] 700.

(** The home page links to itself with a doubled slash. *)
Definition doubled_slash (url : string) : PageSession :=
  if bool_decide (url = "https://example.com")
  then loaded ["https://example.com//"] 900
  else loaded [] 700.

(** Every navigation resolves without a response object. *)
Definition no_response (url : string) : PageSession :=
  without_response ["/a"].



(** A crawl started at [/a] that finds the page [/a__proto__]. *)
Definition proto_key (url : string) : PageSession :=
  if bool_decide (url = "https://example.com/a")
  then loaded ["/a__proto__"] 900
  else loaded [] 700.

(** A world whose browser rejects the first [close()] and accepts the
    second. *)
Definition close_rejects (pages : string -> PageSession) : World := {|
  w_crawlId := "crawl_1704294000000_abc123xyz";
  w_startTime := 1704294000000;
  w_endTime := 1704294060000;
  w_reportClock := "2026-01-03T10:01:00.000Z";
  w_robots := fun _ => Throws "Request failed with status code 404";
  w_launch := Returns ();
  w_page := fun _ url => pages url;
  w_browserClose := fun n =>
    match n with
    | O => Throws "Protocol error (Browser.close): Target closed"
    | S _ => Returns ()
    end
|}.

(** A small healthy site with a private page. *)
Definition healthy (url : string) : PageSession :=
  if bool_decide (url = "https://example.com")
  then loaded ["/a"; "/private"; "https://other.org/"] 900
  else if bool_decide (url = "https://example.com/a")
  then without_screenshot ["/b"; "/"] 700
  else loaded [] 500.

Definition options_maxPages (n : Z) : Options := {|
  opt_maxDepth := None; opt_maxPages := Some n; opt_timeout := None;
  opt_respectRobotsTxt := None; opt_userAgent := None;
  opt_concurrency := None; opt_screenshotEnabled := None;
  opt_headless := None
|}.

(** The crawler state when [crawl] is over ([None]: not within [fuel]
    passes, or the constructor threw). *)
Definition final_state (w : World) (fuel : nat) (url : string)
    (options : Options) : option Crawler :=
  match construct w url options with
  | Returns crawler => snd <$> crawl w fuel crawler
  | Throws _ => None
  end.

(** What [crawlWebsite] hands to its caller. *)
Definition final_report (w : World) (fuel : nat) (url : string)
    (options : Options) : option (Outcome Report) :=
  fst <$> crawlWebsite w fuel url options.

(** The report, when the crawl delivers one. *)
Definition report_of (w : World) (fuel : nat) (url : string)
    (options : Options) : option Report :=
  match final_report w fuel url options with
  | Some (Returns report) => Some report
  | _ => None
  end.

(** The crawler state when the [while] loop is left. *)
Definition loop_exit (w : World) (fuel : nat) (url : string)
    (options : Options) : option Crawler :=
  match construct w url options with
  | Returns crawler =>
      match crawl_loop w fuel
              (start_loop
                 (loadRobotsTxt w
                    (set_startTime (Some (w_startTime w)) crawler))) with
      | Some (_, c) => Some c
      | None => None
      end
  | Throws _ => None
  end.

(** A crawler that has not been started, for the cases above that do not
    occur. *)
Definition idle : Crawler := {|
  startUrl := "https://example.com";
  config := DEFAULT_CONFIG;
  visitedUrls := ∅;
  crawlQueue := [];
  results := [];
  robotsParser := None;
  browser := None;
  crawlId := "crawl_1704294000000_abc123xyz";
  startTime := None;
  journal := []
|}.

(** The state in which the loop is left on the healthy site. *)
Definition healthy_exit : Crawler :=
  default idle
    (loop_exit (world_with_robots healthy) 10 "example.com" no_options).

(** The state in which the loop is left on the site with broken links. *)
Definition broken_exit : Crawler :=
  default idle
    (loop_exit (world broken_links) 10 "example.com" (options_maxPages 2)).

End Sites.

(** ** Vocabulary of the properties *)

(** The calls of [crawlPage]: none of them touches the queue or the
    browser process. *)
Definition page_event (ev : Event) : bool :=
  match ev with
  | NewPage _ _ | Goto _ _ | PageClose _ _ => true
  | _ => false
  end.

(** The fields that belong to the job and are never reassigned by the loop. *)
Definition same_job (c c' : Crawler) : Prop :=
  startUrl c' = startUrl c /\ config c' = config c
  /\ robotsParser c' = robotsParser c /\ browser c' = browser c
  /\ crawlId c' = crawlId c /\ startTime c' = startTime c.

Definition pushed_by (c : Crawler) (url : string) (depth : Z)
    (e : FrontierEntry) : Prop :=
  fe_depth e = depth + 1 /\ depth < maxDepth (config c)
  /\ fe_parentUrl e = Some url.

(** The three things a call of [crawlPage] can do to the crawl state. *)
Inductive page_effect (url : string) (depth : Z) (parentUrl : option string)
    (c c' : Crawler) : Prop :=
| effect_none :
    (* browser.newPage() was rejected *)
    visitedUrls c' = visitedUrls c ->
    results c' = results c ->
    crawlQueue c' = crawlQueue c ->
    page_effect url depth parentUrl c c'
| effect_failed (e : PageError) :
    (* an error before the URL was marked as visited *)
    visitedUrls c' = visitedUrls c ->
    results c' = map_set url (Failed e) (results c) ->
    crawlQueue c' = crawlQueue c ->
    pe_url e = url -> pe_depth e = depth -> pe_parentUrl e = parentUrl ->
    page_effect url depth parentUrl c c'
| effect_visited (r : PageResult) (new : list FrontierEntry) :
    (* the navigation succeeded *)
    visitedUrls c' = {[url]} ∪ visitedUrls c ->
    results c' = map_set url r (results c) ->
    result_url r = url -> result_depth r = depth ->
    result_parentUrl r = parentUrl ->
    crawlQueue c' = crawlQueue c ++ new ->
    Forall (pushed_by c url depth) new ->
    page_effect url depth parentUrl c c'.

(** The calls made inside the [while] loop. *)
Definition loop_event (ev : Event) : bool :=
  match ev with
  | Shift _ | NewPage _ _ | Goto _ _ | PageClose _ _ => true
  | _ => false
  end.

(** The download of robots.txt. *)
Definition robots_event (ev : Event) : bool :=
  match ev with RobotsGet _ => true | _ => false end.

(** The pages the budget still allows. *)
Definition budget (c : Crawler) : nat :=
  Z.to_nat (maxPages (config c) - Z.of_nat (size (visitedUrls c))).







(** One stylesheet, script or image reference, resolved on its own:
    [None] when it is empty or does not parse. *)
Definition resolve_ref `{Platform} (url : string) (ref : option string)
    : option string :=
  match truthy_string ref with
  | Some ref => url_resolve ref url
  | None => None
  end.

Definition resolve_img `{Platform} (url : string) (elem : ImgElem)
    : option Image :=
  match resolve_ref url (Some (img_src elem)) with
  | Some abs =>
      Some {| image_url := abs;
              image_alt := default "" (truthy_string (img_alt elem)) |}
  | None => None
  end.

(** Frontier entries ordered by their depth. *)
Definition by_depth (a b : FrontierEntry) : Prop := fe_depth a <= fe_depth b.

(** The queue behind the entries already taken from it is sorted by depth,
    and two queued entries differ by at most one level. *)
Definition frontier_ordered (c : Crawler) : Prop :=
  StronglySorted by_depth (shifted (journal c) ++ crawlQueue c)
  /\ forall a b, a ∈ crawlQueue c -> b ∈ crawlQueue c ->
                 fe_depth b <= fe_depth a + 1.

Section States.

Context `{Platform} (w : World).

(** The state in which the loop is entered by [crawl] for a start URL. *)
Definition entry (url : string) (options : Options) (c : Crawler) : Prop :=
  exists c0,
    construct w url options = Returns c0
    /\ c = start_loop (loadRobotsTxt w (set_startTime (Some (w_startTime w)) c0)).

(** One pass of the [while] loop, whatever its outcome. *)
Inductive pass (c c' : Crawler) : Prop :=
| pass_intro (o : Outcome unit) :
    loop_condition c = true -> loop_body w c = (o, c') -> pass c c'.

Definition reachable (url : string) (options : Options) (c : Crawler) : Prop :=
  exists c1, entry url options c1 /\ rtc pass c1 c.

End States.

(** ** The passes of the loop in detail *)

(** The entry pushed for a link found on the page [url] at [depth]. *)
Definition child_entry (url : string) (depth : Z) (link : string)
    : FrontierEntry :=
  {| fe_url := link; fe_depth := depth + 1; fe_parentUrl := Some url |}.

(** The links of a page at [depth] that pass the two tests of the enqueue
    loop, for a visited set and a configuration. *)
Definition links_to_enqueue (visited : gset string) (cfg : Config)
    (depth : Z) (links : list string) : list string :=
  if depth <? maxDepth cfg then
    List.filter
      (fun link =>
         negb (bool_decide (link ∈ visited))
         && (Z.of_nat (size visited) <? maxPages cfg))
      links
  else [].

(** The calls of one [crawlPage] on [url], by how far it got. *)
Definition calls_unopened (url : string) : list Event :=
  [NewPage url false].
Definition calls_setup_failed (url : string) (closed : bool) : list Event :=
  [NewPage url true; PageClose url closed].
Definition calls_navigated (url : string) (ok closed : bool) : list Event :=
  [NewPage url true; Goto url ok; PageClose url closed].

Definition is_PageOpened (ev : Event) : bool :=
  match ev with NewPage _ true => true | _ => false end.
Definition is_PageClose (ev : Event) : bool :=
  match ev with PageClose _ _ => true | _ => false end.
Definition is_AnyGoto (ev : Event) : bool :=
  match ev with Goto _ _ => true | _ => false end.

Section PassKinds.

Context `{Platform}.

(** The page object was returned by [extractPageData] for this crawl. *)
Definition extracted_by (c : Crawler) (pd : PageData) : Prop :=
  exists cv page response,
    startUrl cv = startUrl c /\ config cv = config c
    /\ extractPageData cv page (pd_url pd) response (pd_loadTime pd)
         (pd_depth pd) (pd_parentUrl pd) = Returns pd.

(** The head [e] of the queue passed the three tests of the loop. *)
Definition admitted (c : Crawler) (e : FrontierEntry) : Prop :=
  (fe_url e ∉ visitedUrls c)
  /\ fe_depth e <= maxDepth (config c)
  /\ truthy_bool (isAllowedByRobots c (fe_url e)) = true.

(** What a pass that takes [e] from the queue [e :: rest] does. *)
Inductive pass_kind (c : Crawler) (e : FrontierEntry)
    (rest : list FrontierEntry) (c' : Crawler) : Prop :=
| kind_skipped :
    ~ admitted c e ->
    visitedUrls c' = visitedUrls c -> results c' = results c ->
    crawlQueue c' = rest ->
    journal c' = journal c ++ [Shift e] ->
    pass_kind c e rest c'
| kind_unopened :
    admitted c e ->
    visitedUrls c' = visitedUrls c -> results c' = results c ->
    crawlQueue c' = rest ->
    journal c' = journal c ++ Shift e :: calls_unopened (fe_url e) ->
    pass_kind c e rest c'
| kind_failed (pe : PageError) (evs : list Event) :
    admitted c e ->
    visitedUrls c' = visitedUrls c ->
    results c' = map_set (fe_url e) (Failed pe) (results c) ->
    pe_url pe = fe_url e -> pe_depth pe = fe_depth e ->
    pe_parentUrl pe = fe_parentUrl e ->
    crawlQueue c' = rest ->
    journal c' = journal c ++ Shift e :: evs ->
    (exists closed,
       evs = calls_setup_failed (fe_url e) closed
       \/ evs = calls_navigated (fe_url e) false closed) ->
    pass_kind c e rest c'
| kind_unextracted (pe : PageError) (closed : bool) :
    admitted c e ->
    visitedUrls c' = {[fe_url e]} ∪ visitedUrls c ->
    results c' = map_set (fe_url e) (Failed pe) (results c) ->
    pe_url pe = fe_url e -> pe_depth pe = fe_depth e ->
    pe_parentUrl pe = fe_parentUrl e ->
    crawlQueue c' = rest ->
    journal c'
    = journal c ++ Shift e :: calls_navigated (fe_url e) true closed ->
    pass_kind c e rest c'
| kind_extracted (pd : PageData) (closed : bool) :
    admitted c e ->
    extracted_by c pd ->
    pd_url pd = fe_url e -> pd_depth pd = fe_depth e ->
    pd_parentUrl pd = fe_parentUrl e ->
    visitedUrls c' = {[fe_url e]} ∪ visitedUrls c ->
    results c' = map_set (fe_url e) (Extracted pd) (results c) ->
    crawlQueue c'
    = rest ++ map (child_entry (fe_url e) (fe_depth e))
                (links_to_enqueue ({[fe_url e]} ∪ visitedUrls c) (config c)
                   (fe_depth e) (internal (pd_links pd))) ->
    journal c'
    = journal c ++ Shift e :: calls_navigated (fe_url e) true closed ->
    pass_kind c e rest c'.

(** How an entry or a result got into the crawl: it is the seed, or it was
    found among the internal links of an extracted page one level up, which
    is visited. *)
Definition discovered (c : Crawler) (url : string) (depth : Z)
    (parentUrl : option string) : Prop :=
  (url = startUrl c /\ depth = 0 /\ parentUrl = None)
  \/ exists parent pd,
       parentUrl = Some parent
       /\ (parent, Extracted pd) ∈ results c
       /\ parent ∈ visitedUrls c
       /\ pd_depth pd + 1 = depth
       /\ 0 <= pd_depth pd
       /\ pd_depth pd < maxDepth (config c)
       /\ url ∈ internal (pd_links pd).

(** An anchor of the page at [url] resolves to [u], one trailing slash
    removed. *)
Definition linked (url : string) (anchors : list string) (u : string)
    : Prop :=
  exists href abs,
    href ∈ anchors /\ url_resolve href url = Some abs
    /\ u = strip_trailing_slash abs.

(** The crawl tree: every result and every queued entry is discovered. *)
Definition crawl_tree (c : Crawler) : Prop :=
  (forall k r, (k, r) ∈ results c ->
     discovered c k (result_depth r) (result_parentUrl r))
  /\ (forall e, e ∈ crawlQueue c ->
        discovered c (fe_url e) (fe_depth e) (fe_parentUrl e)).

(** The results map and the visited set agree. *)
Definition results_consistent (c : Crawler) : Prop :=
  NoDup (map_keys (results c))
  /\ (forall k r, (k, r) ∈ results c -> result_url r = k)
  /\ (forall u, u ∈ visitedUrls c -> u ∈ map_keys (results c))
  /\ (forall k pd, (k, Extracted pd) ∈ results c ->
        k ∈ visitedUrls c /\ extracted_by c pd).

End PassKinds.

(** A successful navigation to [url]. *)
Definition is_GotoOk (url : string) (ev : Event) : bool :=
  match ev with Goto u true => bool_decide (u = url) | _ => false end.

(** ** Example runs *)

Module Runs.

Import Fragment.

Definition options_maxDepth (n : Z) : Options := {|
  opt_maxDepth := Some n; opt_maxPages := None; opt_timeout := None;
  opt_respectRobotsTxt := None; opt_userAgent := None;
  opt_concurrency := None; opt_screenshotEnabled := None;
  opt_headless := None
|}.

(** The healthy site crawled with [maxDepth = 0]. *)
Definition seed_only_exit : Crawler :=
  default Sites.idle
    (Sites.loop_exit (Sites.world Sites.healthy) 10 "example.com"
       (options_maxDepth 0)).

(** A site on which every navigation times out. *)
Definition unreachable_site (url : string) : PageSession := Sites.timed_out.

Definition unreachable_exit : Crawler :=
  default Sites.idle
    (Sites.loop_exit (Sites.world unreachable_site) 10 "example.com"
       no_options).

(** The crawl of the healthy site from the constructor to the report. *)
Definition healthy_crawler : Crawler :=
  match construct (Sites.world_with_robots Sites.healthy) "example.com"
          no_options with
  | Returns c => c
  | Throws _ => Sites.idle
  end.

Definition healthy_final : Crawler :=
  default Sites.idle
    (Sites.final_state (Sites.world_with_robots Sites.healthy) 10
       "example.com" no_options).

Definition healthy_report : Report :=
  generateReport (Sites.world_with_robots Sites.healthy) healthy_final.

Definition healthy_journal : list Event := journal healthy_final.

(** The healthy site crawled with a budget of two pages: the loop is left
    with an entry still queued. *)
Definition budget_exit : Crawler :=
  default Sites.idle
    (Sites.loop_exit (Sites.world Sites.healthy) 10 "example.com"
       (Sites.options_maxPages 2)).

End Runs.

(** ** The storage service: [init], [saveCrawl] and [close]

    [backend/src/services/storageService.js] keeps crawl reports in MongoDB
    or, failing that, in JSON files.  The database driver and the file system
    are outside the program: how they answer is read from a [StorageWorld],
    and the calls made are logged. *)

Module StorageService.

Record StorageWorld := {
  env_MONGO_URI : option string;            (* process.env.MONGO_URI *)
  FALLBACK_DIR : string;                    (* path.join(__dirname, ...) *)
  path_join : string -> string -> string;   (* path.join *)
  mongo_new : Outcome unit;                 (* new MongoClient(uri) *)
  mongo_connect : Outcome unit;             (* mongoClient.connect() *)
  mongo_insertOne : Report -> Outcome string;  (* the insertedId *)
  mongo_close : Outcome unit;               (* mongoClient.close() *)
  fs_mkdir : Outcome unit;                  (* fs.mkdir, recursive *)
  fs_writeFile : string -> Outcome unit     (* fs.writeFile, by path *)
}.

(** [const MONGO_URI = process.env.MONGO_URI || null] *)
Definition MONGO_URI (sw : StorageWorld) : option string :=
  truthy_string (env_MONGO_URI sw).

Inductive StorageCall :=
| MongoConnect (ok : bool)
| MongoInsertOne (crawlId : string) (ok : bool)
| MongoClose (ok : bool)
| Mkdir (ok : bool)
| WriteFile (path : string) (ok : bool).

(** The module variables [mongoClient] and [db] ([false] is [null]), and
    the calls made so far. *)
Record StorageState := {
  mongoClient : bool;
  db : bool;
  calls : list StorageCall
}.

Definition fresh : StorageState :=
  {| mongoClient := false; db := false; calls := [] |}.

Definition called (call : StorageCall) (st : StorageState) : StorageState :=
  {| mongoClient := mongoClient st; db := db st;
     calls := calls st ++ [call] |}.

(** The value [init] returns. *)
Inductive StorageKind := mongodb | file.

(** Where [saveCrawl] put the report. *)
Inductive Saved :=
| SavedMongo (id : string)
| SavedFile (path : string).

(** A failing [mkdir] is logged and swallowed. *)
Definition ensureFallbackDir (sw : StorageWorld) (st : StorageState)
    : StorageState :=
  called (Mkdir (is_ok (fs_mkdir sw))) st.

Definition init (sw : StorageWorld) (st : StorageState)
    : StorageKind * StorageState :=
  match MONGO_URI sw with
  | Some _ =>
      match mongo_new sw with
      | Throws _ => (file, ensureFallbackDir sw st)
      | Returns _ =>
          let st := {| mongoClient := true; db := db st;
                       calls := calls st |} in
          match mongo_connect sw with
          | Returns _ =>
              (mongodb,
               called (MongoConnect true)
                 {| mongoClient := true; db := true; calls := calls st |})
          | Throws _ =>
              (file, ensureFallbackDir sw (called (MongoConnect false) st))
          end
      end
  | None => (file, ensureFallbackDir sw st)
  end.

Definition saveCrawl (sw : StorageWorld) (st : StorageState)
    (crawlData : Report) : Outcome Saved * StorageState :=
  if db st then
    match mongo_insertOne sw crawlData with
    | Returns id =>
        (Returns (SavedMongo id),
         called (MongoInsertOne (rp_crawlId crawlData) true) st)
    | Throws m =>
        (Throws m, called (MongoInsertOne (rp_crawlId crawlData) false) st)
    end
  else
    let filename := rp_crawlId crawlData +:+ ".json" in
    let filepath := path_join sw (FALLBACK_DIR sw) filename in
    match fs_writeFile sw filepath with
    | Returns _ =>
        (Returns (SavedFile filepath), called (WriteFile filepath true) st)
    | Throws m => (Throws m, called (WriteFile filepath false) st)
    end.

Definition close (sw : StorageWorld) (st : StorageState)
    : Outcome unit * StorageState :=
  if mongoClient st then
    match mongo_close sw with
    | Returns _ => (Returns (), called (MongoClose true) st)
    | Throws m => (Throws m, called (MongoClose false) st)
    end
  else (Returns (), st).

Definition is_MongoInsertOne (call : StorageCall) : bool :=
  match call with MongoInsertOne _ _ => true | _ => false end.
Definition is_WriteFile (call : StorageCall) : bool :=
  match call with WriteFile _ _ => true | _ => false end.

(** The calls that stored a report. *)
Definition is_stored (call : StorageCall) : bool :=
  match call with
  | MongoInsertOne _ ok | WriteFile _ ok => ok
  | _ => false
  end.

(** The calls that tried to store one. *)
Definition is_save (call : StorageCall) : bool :=
  is_MongoInsertOne call || is_WriteFile call.

End StorageService.

(** ** The crawl controller: [startCrawl]

    The handler of [POST /api/v1/crawl/start].  The JSON body is taken with
    its fields at the types the crawler works with: an optional string, two
    optional integers and an optional boolean. *)

Module CrawlerController.

Import StorageService.

Record StartCrawlBody := {
  body_url : option string;
  body_maxDepth : option Z;
  body_maxPages : option Z;
  body_screenshotEnabled : option bool
}.

(** What [res.status(...).json(...)] sends. *)
Record HttpResponse := {
  http_status : Z;
  res_status : string;
  res_message : option string;
  res_details : option string;
  res_data : option (Report * Saved)
}.

(** [n || d] on an optional number: [undefined] and [0] give [d]. *)
Definition number_or (n : option Z) (d : Z) : Z :=
  match n with
  | Some v => if Z.eqb v 0 then d else v
  | None => d
  end.

(** The [options] object built from the body. *)
Definition crawl_options (body : StartCrawlBody) : Options := {|
  opt_maxDepth := Some (number_or (body_maxDepth body) 5);
  opt_maxPages := Some (number_or (body_maxPages body) 100);
  opt_timeout := None;
  opt_respectRobotsTxt := None;
  opt_userAgent := None;
  opt_concurrency := None;
  opt_screenshotEnabled :=
    Some (match body_screenshotEnabled body with
          | Some false => false
          | _ => true
          end);
  opt_headless := Some true
|}.

Definition url_required : HttpResponse := {|
  http_status := 400; res_status := "error";
  res_message := Some "URL is required"; res_details := None;
  res_data := None
|}.

Definition failed_to_crawl (details : string) : HttpResponse := {|
  http_status := 500; res_status := "error";
  res_message := Some "Failed to crawl website";
  res_details := Some details; res_data := None
|}.

Definition success (report : Report) (saved : Saved) : HttpResponse := {|
  http_status := 200; res_status := "success";
  res_message := None; res_details := None;
  res_data := Some (report, saved)
|}.

(** The handler: the response, the storage module afterwards, and the calls
    the crawler made ([None]: the crawl is not over within [fuel] passes). *)
Definition startCrawl `{Platform} (w : World) (sw : StorageWorld)
    (fuel : nat) (st : StorageState) (body : StartCrawlBody)
    : option (HttpResponse * StorageState * list Event) :=
  match truthy_string (body_url body) with
  | None => Some (url_required, st, [])
  | Some url =>
      let options := crawl_options body in
      let (_, st) := init sw st in
      match crawlWebsite w fuel url options with
      | None => None
      | Some (Throws m, j) => Some (failed_to_crawl m, st, j)
      | Some (Returns crawlResult, j) =>
          match saveCrawl sw st crawlResult with
          | (Returns saved, st) => Some (success crawlResult saved, st, j)
          | (Throws m, st) => Some (failed_to_crawl m, st, j)
          end
      end
  end.

End CrawlerController.

(** ** Example requests *)

Module Requests.

Import StorageService CrawlerController.

(** A machine without MongoDB whose disk accepts every write. *)
Definition disk_only : StorageWorld := {|
  env_MONGO_URI := None;
  FALLBACK_DIR := "/srv/backend/data/crawls";
  path_join := fun dir name => dir +:+ "/" +:+ name;
  mongo_new := Throws "MongoDB is not configured";
  mongo_connect := Throws "MongoDB is not configured";
  mongo_insertOne := fun _ => Throws "MongoDB is not configured";
  mongo_close := Returns ();
  fs_mkdir := Returns ();
  fs_writeFile := fun _ => Returns ()
|}.

(** A machine with a reachable MongoDB. *)
Definition with_mongo : StorageWorld := {|
  env_MONGO_URI := Some "mongodb://localhost:27017";
  FALLBACK_DIR := "/srv/backend/data/crawls";
  path_join := fun dir name => dir +:+ "/" +:+ name;
  mongo_new := Returns ();
  mongo_connect := Returns ();
  mongo_insertOne := fun _ => Returns "65a0f3c2e4b0a1b2c3d4e5f6";
  mongo_close := Returns ();
  fs_mkdir := Returns ();
  fs_writeFile := fun _ => Returns ()
|}.

Definition body_of (url : option string) (depth : option Z)
    : StartCrawlBody := {|
  body_url := url; body_maxDepth := depth; body_maxPages := None;
  body_screenshotEnabled := None
|}.

(** The answer to a request to crawl the healthy site. *)
Definition healthy_answer : option (HttpResponse * StorageState * list Event) :=
  @startCrawl Fragment.platform (Sites.world_with_robots Sites.healthy)
    disk_only 10 fresh (body_of (Some "example.com") None).

Definition healthy_response : HttpResponse :=
  match healthy_answer with
  | Some (response, _, _) => response
  | None => url_required
  end.

Definition healthy_storage : StorageState :=
  match healthy_answer with
  | Some (_, st, _) => st
  | None => fresh
  end.

Definition healthy_calls : list Event :=
  match healthy_answer with
  | Some (_, _, j) => j
  | None => []
  end.

(** The same request with [maxDepth: 0] in its body. *)
Definition zero_depth_answer
    : option (HttpResponse * StorageState * list Event) :=
  @startCrawl Fragment.platform (Sites.world_with_robots Sites.healthy)
    disk_only 10 fresh (body_of (Some "example.com") (Some 0)).

Definition zero_depth_response : HttpResponse :=
  match zero_depth_answer with
  | Some (response, _, _) => response
  | None => url_required
  end.

Definition zero_depth_storage : StorageState :=
  match zero_depth_answer with
  | Some (_, st, _) => st
  | None => fresh
  end.

Definition zero_depth_calls : list Event :=
  match zero_depth_answer with
  | Some (_, _, j) => j
  | None => []
  end.

Definition zero_depth_data : Report * Saved :=
  default (Runs.healthy_report, SavedFile "") (res_data zero_depth_response).

End Requests.

(** * Properties *)

(** ** The map and the journal *)

Lemma elem_of_map_set {V : Type} (k : string) (v : V) m (kv : string * V) :
  kv ∈ map_set k v m -> kv = (k, v) \/ kv ∈ m.
Proof.
  induction m as [|[k' v'] m IH]; simpl.
  - intros Hin. apply list_elem_of_singleton in Hin. by left.
  - case_bool_decide; intros Hin; apply elem_of_cons in Hin as [->|Hin].
    + by left.
    + right. by apply elem_of_cons; right.
    + right. by apply elem_of_cons; left.
    + destruct (IH Hin) as [->|Hm]; [by left|].
      right. by apply elem_of_cons; right.
Qed.

Lemma map_keys_map_set {V : Type} (k : string) (v : V) m (x : string) :
  x ∈ map_keys (map_set k v m) -> x = k \/ x ∈ map_keys m.
Proof.
  unfold map_keys. intros Hin.
  apply list_elem_of_fmap in Hin as [[k' v'] [-> Hin]].
  apply elem_of_map_set in Hin as [Heq|Hin].
  - left. by inversion Heq.
  - right. apply list_elem_of_fmap. by exists (k', v').
Qed.

Lemma map_set_size {V : Type} (k : string) (v : V) m :
  (map_size (map_set k v m) <= S (map_size m))%nat.
Proof.
  unfold map_size. induction m as [|[k' v'] m IH]; simpl; [lia|].
  case_bool_decide; simpl; lia.
Qed.

Lemma shifted_app (j1 j2 : list Event) :
  shifted (j1 ++ j2) = shifted j1 ++ shifted j2.
Proof.
  induction j1 as [|ev j1 IH]; simpl; [done|].
  destruct ev; simpl; by rewrite IH.
Qed.

Lemma count_app (p : Event -> bool) (j1 j2 : list Event) :
  count p (j1 ++ j2) = (count p j1 + count p j2)%nat.
Proof. unfold count. by rewrite List.filter_app, length_app. Qed.


Lemma shifted_page_events (evs : list Event) :
  forallb page_event evs = true -> shifted evs = [].
Proof.
  induction evs as [|ev evs IH]; simpl; [done|].
  destruct ev; simpl; try done; apply IH.
Qed.

Lemma count_none (p q : Event -> bool) (evs : list Event) :
  (forall ev, q ev = true -> p ev = false) ->
  forallb q evs = true -> count p evs = 0%nat.
Proof.
  intros Hp. unfold count. induction evs as [|ev evs IH]; simpl; [done|].
  intros [Hev Hevs]%andb_prop. rewrite (Hp _ Hev). by apply IH.
Qed.

(** ** What one call of [crawlPage] and one pass of the loop do *)

Section Effects.

Context `{Platform} (w : World).


Lemma same_job_refl (c : Crawler) : same_job c c.
Proof. by repeat split. Qed.

Lemma same_job_trans (c1 c2 c3 : Crawler) :
  same_job c1 c2 -> same_job c2 c3 -> same_job c1 c3.
Proof. unfold same_job. intros; destruct_and!; repeat split; congruence. Qed.

Lemma extractPageData_fields c page url response loadTime depth parentUrl pd :
  extractPageData c page url response loadTime depth parentUrl = Returns pd ->
  pd_url pd = url /\ pd_depth pd = depth /\ pd_parentUrl pd = parentUrl
  /\ pd_loadTime pd = loadTime.
Proof.
  unfold extractPageData. intros Hpd.
  destruct (ps_content page); [|done].
  destruct (extract_headers response); [|done].
  destruct (ps_title page); [|done].
  destruct response; [|done].
  by inversion Hpd.
Qed.


Lemma enqueue_links_effect url depth links c :
  same_job c (enqueue_links url depth links c)
  /\ journal (enqueue_links url depth links c) = journal c
  /\ visitedUrls (enqueue_links url depth links c) = visitedUrls c
  /\ results (enqueue_links url depth links c) = results c
  /\ exists new,
       crawlQueue (enqueue_links url depth links c) = crawlQueue c ++ new
       /\ Forall (pushed_by c url depth) new.
Proof.
  unfold enqueue_links. destruct (depth <? maxDepth (config c)) eqn:Hd.
  - apply Z.ltb_lt in Hd. revert c Hd.
    induction links as [|link links IH]; intros c Hd; simpl.
    + repeat split. exists []. by rewrite app_nil_r.
    + match goal with |- context [fold_left _ links ?c1] => set (c' := c1) end.
      assert (Hjob : same_job c c' /\ journal c' = journal c
                     /\ visitedUrls c' = visitedUrls c
                     /\ results c' = results c
                     /\ exists new, crawlQueue c' = crawlQueue c ++ new
                                    /\ Forall (pushed_by c url depth) new).
      { subst c'. destruct (negb _ && _); simpl.
        - repeat split. eexists. split; [done|].
          constructor; [|constructor]. by repeat split.
        - repeat split. exists []. by rewrite app_nil_r. }
      destruct Hjob as (Hjob & Hj & Hv & Hr & new & Hq & Hnew).
      assert (Hcfg : config c' = config c) by apply Hjob.
      destruct (IH c') as (Hjob' & Hj' & Hv' & Hr' & new' & Hq' & Hnew').
      { by rewrite Hcfg. }
      split; [by eapply same_job_trans|].
      repeat split; try congruence.
      exists (new ++ new'). split.
      * rewrite Hq', Hq. by rewrite app_assoc.
      * apply Forall_app. split; [done|].
        eapply Forall_impl; [exact Hnew'|].
        unfold pushed_by. by rewrite Hcfg.
  - repeat split. exists []. by rewrite app_nil_r.
Qed.


Lemma crawlPage_effect c url depth parentUrl o c' :
  crawlPage w c url depth parentUrl = (o, c') ->
  same_job c c'
  /\ (exists evs, journal c' = journal c ++ evs
                  /\ forallb page_event evs = true)
  /\ page_effect url depth parentUrl c c'.
Proof.
  unfold crawlPage.
  set (page := w_page w (count is_NewPage (journal c)) url).
  destruct (ps_newPage page).
  2:{ intros [= <- <-]. split; [by repeat split|]. split.
      - by eexists.
      - by apply effect_none. }
  match goal with
  | |- (match ps_close page with
        | Returns _ => (_, emit _ ?body)
        | Throws _ => _ end) = _ -> _ => set (c1 := body)
  end.
  assert (Hbody : same_job c c1
            /\ (exists evs, journal c1 = journal c ++ evs
                            /\ forallb page_event evs = true)
            /\ page_effect url depth parentUrl c c1).
  { subst c1. destruct (ps_setup page).
    2:{ split; [by repeat split|]. split; [by eexists|].
        by eapply effect_failed. }
    destruct (ps_goto page) as [response|m].
    2:{ split; [by repeat split|]. split.
        - simpl. rewrite <- app_assoc. by eexists.
        - by eapply effect_failed. }
    match goal with
    | |- context [extractPageData ?c2 _ _ _ _ _ _] => set (cv := c2)
    end.
    destruct (extractPageData cv page url response (ps_loadTime page) depth
                parentUrl) as [pd|m] eqn:Hpd.
    2:{ split; [by repeat split|]. split.
        - simpl. rewrite <- app_assoc. by eexists.
        - eapply (effect_visited _ _ _ _ _ _ []); simpl; try done.
          by rewrite app_nil_r. }
    apply extractPageData_fields in Hpd as (Hu & Hd & Hp & _).
    match goal with
    | |- context [enqueue_links url depth ?ls ?c3] =>
        destruct (enqueue_links_effect url depth ls c3)
          as (Hjob & Hj & Hv & Hr & new & Hq & Hnew)
    end.
    split; [exact Hjob|]. split.
    - rewrite Hj. simpl. rewrite <- app_assoc. by eexists.
    - eapply (effect_visited _ _ _ _ _ (Extracted pd) new); try done. }
  destruct Hbody as (Hjob & (evs & Hj & Hevs) & Heff).
  assert (Hwrap : forall ok, same_job c (emit (PageClose url ok) c1)
            /\ (exists evs', journal (emit (PageClose url ok) c1)
                               = journal c ++ evs'
                             /\ forallb page_event evs' = true)
            /\ page_effect url depth parentUrl c (emit (PageClose url ok) c1)).
  { intros ok. split; [exact Hjob|]. split.
    - exists (evs ++ [PageClose url ok]). simpl. rewrite Hj, <- app_assoc.
      split; [done|]. rewrite forallb_app, Hevs. done.
    - destruct Heff.
      + by apply effect_none.
      + by eapply effect_failed.
      + by eapply effect_visited. }
  destruct (ps_close page); intros [= <- <-]; apply Hwrap.
Qed.

End Effects.

(** ** The states of a crawl *)

Section Reachability.

Context `{Platform} (w : World).

Lemma loop_body_effect c e rest o c' :
  crawlQueue c = e :: rest ->
  loop_body w c = (o, c') ->
  same_job c c'
  /\ (exists evs, journal c' = journal c ++ Shift e :: evs
                  /\ forallb page_event evs = true)
  /\ ((visitedUrls c' = visitedUrls c /\ results c' = results c
       /\ crawlQueue c' = rest)
      \/ ((fe_url e ∉ visitedUrls c)
          /\ fe_depth e <= maxDepth (config c)
          /\ truthy_bool (isAllowedByRobots c (fe_url e)) = true
          /\ page_effect (fe_url e) (fe_depth e) (fe_parentUrl e)
               (set_crawlQueue rest c) c')).
Proof.
  unfold loop_body. intros ->.
  set (c1 := emit (Shift e) (set_crawlQueue rest c)).
  assert (Hskip : same_job c c1
            /\ (exists evs, journal c1 = journal c ++ Shift e :: evs
                            /\ forallb page_event evs = true)
            /\ visitedUrls c1 = visitedUrls c /\ results c1 = results c
            /\ crawlQueue c1 = rest).
  { repeat split. by exists []. }
  destruct Hskip as (Hjob & Hj & Hskip).
  case_bool_decide as Hvisited.
  { intros [= <- <-]. split; [done|]. split; [done|]. by left. }
  destruct (maxDepth (config c1) <? fe_depth e) eqn:Hdepth.
  { intros [= <- <-]. split; [done|]. split; [done|]. by left. }
  destruct (truthy_bool (isAllowedByRobots c1 (fe_url e))) eqn:Hrobots; simpl.
  2:{ intros [= <- <-]. split; [done|]. split; [done|]. by left. }
  intros Hpage. apply crawlPage_effect in Hpage as (Hjob' & Hj' & Heff).
  split; [by eapply same_job_trans|]. split.
  - destruct Hj' as (evs & -> & Hevs). exists evs. split; [|done].
    subst c1. simpl. by rewrite <- app_assoc.
  - right. apply Z.ltb_ge in Hdepth. repeat split; try done.
    destruct Heff.
    + by apply effect_none.
    + by eapply effect_failed.
    + by eapply effect_visited.
Qed.



Lemma loop_condition_queue (c : Crawler) :
  loop_condition c = true ->
  exists e rest, crawlQueue c = e :: rest
    /\ Z.of_nat (size (visitedUrls c)) < maxPages (config c).
Proof.
  unfold loop_condition. intros [Hq Hv]%andb_prop.
  apply Z.ltb_lt in Hv. apply Z.ltb_lt in Hq.
  destruct (crawlQueue c) as [|e rest]; simpl in Hq; [lia|]. eauto.
Qed.

Lemma loadRobotsTxt_effect (c : Crawler) :
  startUrl (loadRobotsTxt w c) = startUrl c
  /\ config (loadRobotsTxt w c) = config c
  /\ visitedUrls (loadRobotsTxt w c) = visitedUrls c
  /\ crawlQueue (loadRobotsTxt w c) = crawlQueue c
  /\ results (loadRobotsTxt w c) = results c
  /\ browser (loadRobotsTxt w c) = browser c
  /\ startTime (loadRobotsTxt w c) = startTime c
  /\ exists evs, journal (loadRobotsTxt w c) = journal c ++ evs
       /\ forallb robots_event evs = true.
Proof.
  unfold loadRobotsTxt. destruct (url_origin (startUrl c)).
  - destruct (w_robots w _); simpl; repeat split; by eexists.
  - simpl. repeat split. exists []. by rewrite app_nil_r.
Qed.

(** The entry state: an empty visited set, no result, the seed alone in the
    queue at depth 0. *)
Lemma entry_state url options c :
  entry w url options c ->
  normalizeUrl url = Returns (startUrl c)
  /\ config c = merge_config options
  /\ visitedUrls c = ∅ /\ results c = []
  /\ crawlQueue c =
       [{| fe_url := startUrl c; fe_depth := 0; fe_parentUrl := None |}]
  /\ shifted (journal c) = []
  /\ browser c = Some Chromium.
Proof.
  intros (c0 & Hc0 & ->). unfold construct in Hc0.
  destruct (normalizeUrl url) as [u|] eqn:Hu; [|done].
  injection Hc0 as <-.
  match goal with |- context [loadRobotsTxt w ?c1] =>
    destruct (loadRobotsTxt_effect c1)
      as (Hs & Hc & Hv & Hq & Hr & Hb & Ht & evs & Hj & Hevs)
  end.
  unfold start_loop. simpl in *. rewrite Hs, Hc, Hv, Hq, Hr, Hj.
  repeat split. rewrite shifted_app. simpl.
  clear Hj. induction evs as [|[] evs IH]; simpl in *; try done. by apply IH.
Qed.

(** Proof principle: what holds on entry and is kept by every pass holds in
    every state of the crawl. *)
Lemma reachable_ind (P : Crawler -> Prop) url options :
  (forall c, entry w url options c -> P c) ->
  (forall c c', P c -> pass w c c' -> P c') ->
  forall c, reachable w url options c -> P c.
Proof.
  intros Hentry Hpass c (c1 & Hc1 & Hrtc).
  revert c Hrtc. apply rtc_ind_r; [by apply Hentry|].
  intros c c' _ Hstep HP. by eapply Hpass.
Qed.

Lemma reachable_same_job url options c :
  reachable w url options c ->
  exists c1, entry w url options c1 /\ same_job c1 c.
Proof.
  intros (c1 & Hc1 & Hrtc). exists c1. split; [done|].
  revert c Hrtc. apply rtc_ind_r; [apply same_job_refl|].
  intros c c' _ [o Hcond Hbody] Hjob.
  eapply same_job_trans; [done|].
  apply loop_condition_queue in Hcond as (e & rest & Hq & _).
  by eapply loop_body_effect in Hbody as (? & _).
Qed.

(** The loop, when it finishes, ends in a state of the crawl. *)
Lemma crawl_loop_passes fuel c o c' :
  crawl_loop w fuel c = Some (o, c') -> rtc (pass w) c c'.
Proof.
  revert c. induction fuel as [|fuel IH]; intros c; simpl.
  - destruct (loop_condition c); [done|]. by intros [= <- <-].
  - destruct (loop_condition c) eqn:Hcond; [|by intros [= <- <-]].
    destruct (loop_body w c) as [[[]|m] c1] eqn:Hbody.
    + intros Hloop. eapply rtc_l; [|by apply IH].
      by econstructor.
    + intros [= <- <-]. apply rtc_once. by econstructor.
Qed.

(** When [crawl] is over, the visited set, the results and the queue are
    those of the state in which the loop was left (or never entered, when
    the browser did not start). *)
Lemma crawl_exit_state url options c0 fuel out cf :
  construct w url options = Returns c0 ->
  crawl w fuel c0 = Some (out, cf) ->
  (w_launch w = Returns () ->
   exists c, reachable w url options c
             /\ results cf = results c /\ visitedUrls cf = visitedUrls c
             /\ crawlQueue cf = crawlQueue c /\ config cf = config c
             /\ startUrl cf = startUrl c)
  /\ (is_ok (w_launch w) = false -> results cf = []).
Proof.
  intros Hc0. unfold crawl.
  set (c1 := loadRobotsTxt w (set_startTime (Some (w_startTime w)) c0)).
  destruct (w_launch w) as [[]|m] eqn:Hlaunch.
  - destruct (crawl_loop w fuel (start_loop c1)) as [[o c]|] eqn:Hloop;
      [|done].
    intros Hend. split; [|done]. intros _. exists c. split.
    { exists (start_loop c1). split; [by exists c0|].
      by eapply crawl_loop_passes. }
    unfold catch_and_close in Hend.
    destruct o as [[]|m]; simpl in Hend.
    + destruct (w_browserClose w _); simpl in Hend.
      * by injection Hend as _ <-.
      * destruct (browser c); [|by injection Hend as _ <-].
        destruct (w_browserClose w _); by injection Hend as _ <-.
    + destruct (browser c); [|by injection Hend as _ <-].
      destruct (w_browserClose w _); by injection Hend as _ <-.
  - intros Hend. split; [done|]. intros _.
    destruct (loadRobotsTxt_effect (set_startTime (Some (w_startTime w)) c0))
      as (_ & _ & _ & _ & Hr & _).
    fold c1 in Hr. unfold construct in Hc0.
    destruct (normalizeUrl url); [|done]. injection Hc0 as <-.
    unfold catch_and_close in Hend. simpl in Hend.
    destruct (browser c1); [destruct (w_browserClose w _)|];
      injection Hend as _ <-; exact Hr.
Qed.

End Reachability.

(** ** One pass of the loop, summarised *)

Section Passes.

Context `{Platform} (w : World).

Lemma isAllowedByRobots_same_job c c' url :
  same_job c c' -> isAllowedByRobots c' url = isAllowedByRobots c url.
Proof.
  intros (_ & Hcfg & Hrobots & _). unfold isAllowedByRobots.
  by rewrite Hcfg, Hrobots.
Qed.

(** A pass takes the head of the queue; it either leaves the visited set and
    the results alone, or stores one result for the head, whose URL was not
    visited, is within the depth limit and is allowed by robots.txt. *)
Lemma pass_summary c c' :
  pass w c c' ->
  exists e rest new,
    crawlQueue c = e :: rest
    /\ Z.of_nat (size (visitedUrls c)) < maxPages (config c)
    /\ same_job c c'
    /\ (exists evs, journal c' = journal c ++ Shift e :: evs
                    /\ forallb page_event evs = true)
    /\ crawlQueue c' = rest ++ new
    /\ Forall (pushed_by c (fe_url e) (fe_depth e)) new
    /\ ((visitedUrls c' = visitedUrls c /\ results c' = results c /\ new = [])
        \/ ((fe_url e ∉ visitedUrls c)
            /\ fe_depth e <= maxDepth (config c)
            /\ truthy_bool (isAllowedByRobots c (fe_url e)) = true
            /\ exists r,
                 results c' = map_set (fe_url e) r (results c)
                 /\ result_url r = fe_url e
                 /\ result_depth r = fe_depth e
                 /\ ((visitedUrls c' = visitedUrls c /\ new = []
                      /\ exists pe, r = Failed pe)
                     \/ visitedUrls c' = {[fe_url e]} ∪ visitedUrls c))).
Proof.
  intros [o Hcond Hbody].
  apply loop_condition_queue in Hcond as (e & rest & Hq & Hbudget).
  destruct (loop_body_effect w c e rest o c' Hq Hbody)
    as (Hjob & Hj & [(Hv & Hr & Hq')|(Hnew & Hdepth & Hrobots & Heff)]).
  - exists e, rest, []. rewrite app_nil_r.
    do 6 (split; [done|]). by left.
  - destruct Heff as [Hv Hr Hq'|pe Hv Hr Hq' Hu Hd Hp
                     |r new Hv Hr Hu Hd Hp Hq' Hpushed]; simpl in *.
    + exists e, rest, []. rewrite app_nil_r.
      do 6 (split; [done|]). by left.
    + exists e, rest, []. rewrite app_nil_r.
      do 6 (split; [done|]). right.
      do 3 (split; [done|]). exists (Failed pe).
      do 3 (split; [done|]). left. eauto.
    + exists e, rest, new.
      do 6 (split; [done|]). right.
      do 3 (split; [done|]). exists r.
      do 3 (split; [done|]). by right.
Qed.

Lemma pass_shifted c c' e rest :
  pass w c c' -> crawlQueue c = e :: rest ->
  shifted (journal c') = shifted (journal c) ++ [e].
Proof.
  intros (e' & rest' & new & Hq & _ & _ & (evs & -> & Hevs) & _)%pass_summary.
  rewrite Hq. intros [= -> ->].
  rewrite shifted_app. simpl. by rewrite (shifted_page_events evs Hevs).
Qed.

End Passes.

(** The state in which an example crawl leaves the loop is a state of that
    crawl. *)
Lemma loop_exit_reachable w fuel url options c :
  Sites.loop_exit w fuel url options = Some c ->
  @reachable Fragment.platform w url options c.
Proof.
  unfold Sites.loop_exit.
  destruct (construct w url options) as [c0|] eqn:Hc0; [|done].
  match goal with |- context [crawl_loop w fuel ?c1] => set (ce := c1) end.
  destruct (crawl_loop w fuel ce) as [[o c']|] eqn:Hloop; [|done].
  intros [= <-]. exists ce. split.
  - by exists c0.
  - by eapply crawl_loop_passes.
Qed.

(** ** Depth limit, robots.txt and breadth-first order *)

Section Invariants.

Context `{Platform} (w : World).

(** C3.  Every PageResult ever stored in the results map has a depth of at
    most [maxDepth]; and a frontier entry whose depth exceeds [maxDepth] is
    discarded: the pass that takes it from the queue returns normally, so
    the loop goes on, and it leaves the results map and the visited set as
    they were. *)
Theorem C3_results_within_maxDepth url options c :
  reachable w url options c ->
  (forall k r, (k, r) ∈ results c -> result_depth r <= maxDepth (config c))
  /\ (forall e rest,
        crawlQueue c = e :: rest ->
        maxDepth (config c) < fe_depth e ->
        exists c',
          loop_body w c = (Returns (), c')
          /\ results c' = results c
          /\ visitedUrls c' = visitedUrls c
          /\ crawlQueue c' = rest).
Proof.
  intros Hreach. split.
  - revert c Hreach.
    apply (reachable_ind w
             (fun c => forall k r, (k, r) ∈ results c ->
                                   result_depth r <= maxDepth (config c))).
    + intros c (_ & _ & _ & -> & _)%entry_state k r Hin.
      by apply elem_of_nil in Hin.
    + intros c c' IH (e & rest & new & Hq & _ & Hjob & _ & _ & _ & Hres)
        %pass_summary k r Hin.
      destruct Hjob as (_ & -> & _).
      destruct Hres as [(_ & Hr & _)|(_ & Hdepth & _ & r' & Hr & _ & Hd & _)].
      * rewrite Hr in Hin. by eapply IH.
      * rewrite Hr in Hin. apply elem_of_map_set in Hin as [[= -> ->]|Hin].
        -- by rewrite Hd.
        -- by eapply IH.
  - intros e rest Hq Hdeep. unfold loop_body. rewrite Hq.
    case_bool_decide; [by eexists|].
    simpl. apply Z.ltb_lt in Hdeep. rewrite Hdeep. by eexists.
Qed.

(** C6.  When [respectRobotsTxt] is on and the loaded robots.txt policy
    disallows a URL for the configured user agent, that URL is not a key of
    the results map; when [respectRobotsTxt] is off the check answers [true]
    for every URL without consulting the policy. *)
Theorem C6_disallowed_never_in_results url options c :
  reachable w url options c ->
  (forall policy u,
     respectRobotsTxt (config c) = true ->
     robotsParser c = Some policy ->
     policy u (userAgent (config c)) = Some false ->
     u ∉ map_keys (results c))
  /\ (respectRobotsTxt (config c) = false ->
      forall u, isAllowedByRobots c u = Some true).
Proof.
  intros Hreach. split.
  - assert (Hinv : forall k, k ∈ map_keys (results c) ->
                     truthy_bool (isAllowedByRobots c k) = true).
    { revert c Hreach.
      apply (reachable_ind w
               (fun c => forall k, k ∈ map_keys (results c) ->
                          truthy_bool (isAllowedByRobots c k) = true)).
      - intros c (_ & _ & _ & -> & _)%entry_state k Hin.
        by apply elem_of_nil in Hin.
      - intros c c' IH (e & rest & new & Hq & _ & Hjob & _ & _ & _ & Hres)
          %pass_summary k Hin.
        rewrite (isAllowedByRobots_same_job _ _ _ Hjob).
        destruct Hres as [(_ & Hr & _)|(_ & _ & Hok & r' & Hr & _)].
        + rewrite Hr in Hin. by apply IH.
        + rewrite Hr in Hin. apply map_keys_map_set in Hin as [->|Hin].
          * done.
          * by apply IH. }
    intros policy u Hrespect Hpolicy Hdis Hin.
    apply Hinv in Hin. unfold isAllowedByRobots in Hin.
    by rewrite Hpolicy, Hrespect, Hdis in Hin.
  - intros Hoff u. unfold isAllowedByRobots. rewrite Hoff.
    by destruct (robotsParser c).
Qed.

Lemma same_depth_sorted (d : Z) (l : list FrontierEntry) :
  Forall (fun n => fe_depth n = d) l -> StronglySorted by_depth l.
Proof.
  induction 1 as [|n l Hn Hl IH]; constructor; [done|].
  eapply Forall_impl; [exact Hl|].
  intros n' Hn'. unfold by_depth. simpl in *. lia.
Qed.

Lemma frontier_ordered_reachable url options c :
  reachable w url options c -> frontier_ordered c.
Proof.
  revert c. apply (reachable_ind w frontier_ordered).
  - intros c (_ & _ & _ & _ & Hq & Hsh & _)%entry_state.
    unfold frontier_ordered. rewrite Hq, Hsh. simpl. split.
    + repeat constructor.
    + intros a b ->%list_elem_of_singleton ->%list_elem_of_singleton. lia.
  - intros c c' [Hsorted Hnear] Hpass.
    pose proof Hpass as (e & rest & new & Hq & _ & _ & _ & Hq' & Hnew & _)
      %pass_summary.
    unfold frontier_ordered.
    rewrite (pass_shifted w c c' e rest Hpass Hq), Hq'.
    rewrite Hq in Hsorted, Hnear.
    rewrite Forall_forall in Hnew.
    assert (Hdeeper : forall n, n ∈ new -> fe_depth n = fe_depth e + 1).
    { intros n Hn. by apply Hnew. }
    assert (Hrest : forall x, x ∈ rest -> fe_depth e <= fe_depth x).
    { intros x Hx.
      apply StronglySorted_app_1_r, StronglySorted_cons in Hsorted
        as [Hall _].
      rewrite Forall_forall in Hall. by apply Hall. }
    split.
    + assert (Heq : (shifted (journal c) ++ [e]) ++ rest ++ new
                    = (shifted (journal c) ++ e :: rest) ++ new).
      { by rewrite <- !app_assoc. }
      rewrite Heq. apply StronglySorted_app_2; [|done|].
      * intros x1 x2 Hx1 Hx2. unfold by_depth. rewrite (Hdeeper x2 Hx2).
        apply elem_of_app in Hx1 as [Hx1|Hx1].
        -- assert (by_depth x1 e); [|unfold by_depth in *; lia].
           eapply StronglySorted_app_1_elem_of; [done..|]. by left.
        -- apply (Hnear e x1); [by left|done].
      * apply (same_depth_sorted (fe_depth e + 1)).
        by apply Forall_forall.
    + intros a b [Ha|Ha]%elem_of_app [Hb|Hb]%elem_of_app.
      * apply Hnear; by right.
      * rewrite (Hdeeper b Hb). specialize (Hrest a Ha). lia.
      * rewrite (Hdeeper a Ha).
        assert (fe_depth b <= fe_depth e + 1); [|lia].
        apply Hnear; [by left|by right].
      * rewrite (Hdeeper a Ha), (Hdeeper b Hb). lia.
Qed.

(** C5.  The frontier is drained in breadth-first order: of two entries
    taken from the queue the earlier one is never deeper than the later one,
    and no entry still waiting in the queue is shallower than an entry
    already taken; so every entry of depth N leaves the queue before any
    entry of depth N+1 does. *)
Theorem C5_breadth_first_order url options c :
  reachable w url options c ->
  (forall i j a b,
     (i < j)%nat ->
     shifted (journal c) !! i = Some a ->
     shifted (journal c) !! j = Some b ->
     fe_depth a <= fe_depth b)
  /\ (forall a b,
        a ∈ shifted (journal c) -> b ∈ crawlQueue c ->
        fe_depth a <= fe_depth b).
Proof.
  intros [Hsorted _]%frontier_ordered_reachable. split.
  - apply StronglySorted_app_1_l in Hsorted.
    intros i j a b Hij Ha Hb.
    apply (take_drop_middle _ _ _) in Ha as Hsplit.
    rewrite <- Hsplit in Hsorted.
    apply StronglySorted_app_1_r, StronglySorted_cons in Hsorted as [Hall _].
    rewrite Forall_forall in Hall. apply Hall.
    apply list_elem_of_lookup. exists (j - S i)%nat.
    rewrite lookup_drop. rewrite <- Hb. f_equal. lia.
  - intros a b Ha Hb.
    by apply (StronglySorted_app_1_elem_of _ _ _ _ _ Hsorted).
Qed.

End Invariants.

(** The three theorems at the state in which the crawl of the healthy
    example site leaves the loop. *)

Lemma C3_results_within_maxDepth_witness :
  @reachable Fragment.platform (Sites.world_with_robots Sites.healthy)
    "example.com" no_options Sites.healthy_exit
  /\ ((forall k r, (k, r) ∈ results Sites.healthy_exit ->
         result_depth r <= maxDepth (config Sites.healthy_exit))
      /\ (forall e rest,
            crawlQueue Sites.healthy_exit = e :: rest ->
            maxDepth (config Sites.healthy_exit) < fe_depth e ->
            exists c',
              @loop_body Fragment.platform
                (Sites.world_with_robots Sites.healthy) Sites.healthy_exit
                = (Returns (), c')
              /\ results c' = results Sites.healthy_exit
              /\ visitedUrls c' = visitedUrls Sites.healthy_exit
              /\ crawlQueue c' = rest)).
Proof.
  assert (Hreach : @reachable Fragment.platform
                     (Sites.world_with_robots Sites.healthy)
                     "example.com" no_options Sites.healthy_exit).
  { apply (loop_exit_reachable _ 10). vm_compute. reflexivity. }
  split; [exact Hreach|].
  exact (C3_results_within_maxDepth _ _ _ _ Hreach).
Defined.

Lemma C6_disallowed_never_in_results_witness :
  @reachable Fragment.platform (Sites.world_with_robots Sites.healthy)
    "example.com" no_options Sites.healthy_exit
  /\ ((forall policy u,
         respectRobotsTxt (config Sites.healthy_exit) = true ->
         robotsParser Sites.healthy_exit = Some policy ->
         policy u (userAgent (config Sites.healthy_exit)) = Some false ->
         u ∉ map_keys (results Sites.healthy_exit))
      /\ (respectRobotsTxt (config Sites.healthy_exit) = false ->
          forall u,
            isAllowedByRobots Sites.healthy_exit u = Some true)).
Proof.
  assert (Hreach : @reachable Fragment.platform
                     (Sites.world_with_robots Sites.healthy)
                     "example.com" no_options Sites.healthy_exit).
  { apply (loop_exit_reachable _ 10). vm_compute. reflexivity. }
  split; [exact Hreach|].
  exact (C6_disallowed_never_in_results _ _ _ _ Hreach).
Defined.

Lemma C5_breadth_first_order_witness :
  @reachable Fragment.platform (Sites.world_with_robots Sites.healthy)
    "example.com" no_options Sites.healthy_exit
  /\ ((forall i j a b,
         (i < j)%nat ->
         shifted (journal Sites.healthy_exit) !! i = Some a ->
         shifted (journal Sites.healthy_exit) !! j = Some b ->
         fe_depth a <= fe_depth b)
      /\ (forall a b,
            a ∈ shifted (journal Sites.healthy_exit) ->
            b ∈ crawlQueue Sites.healthy_exit ->
            fe_depth a <= fe_depth b)).
Proof.
  assert (Hreach : @reachable Fragment.platform
                     (Sites.world_with_robots Sites.healthy)
                     "example.com" no_options Sites.healthy_exit).
  { apply (loop_exit_reachable _ 10). vm_compute. reflexivity. }
  split; [exact Hreach|].
  exact (C5_breadth_first_order _ _ _ _ Hreach).
Defined.

(** ** The page budget *)

Section Budget.

Context `{Platform} (w : World).

(** What the loop does keep within [maxPages] is the visited set. *)
Lemma visited_within_maxPages url options c :
  reachable w url options c ->
  0 <= maxPages (config c) ->
  Z.of_nat (size (visitedUrls c)) <= maxPages (config c).
Proof.
  revert c.
  apply (reachable_ind w
           (fun c => 0 <= maxPages (config c) ->
                     Z.of_nat (size (visitedUrls c)) <= maxPages (config c))).
  - intros c (_ & _ & -> & _)%entry_state Hpos. by rewrite size_empty.
  - intros c c' IH (e & rest & new & _ & Hbudget & Hjob & _ & _ & _ & Hres)
      %pass_summary Hpos.
    destruct Hjob as (_ & Hcfg & _). rewrite Hcfg in *.
    destruct Hres
      as [(-> & _) | (Hnew & _ & _ & r & _ & _ & _ & [(-> & _) | ->])];
      try lia.
    rewrite size_union by set_solver. rewrite size_singleton. lia.
Qed.

(** A navigation that throws: the error object is stored under the URL, the
    call returns normally after one [goto], and the visited set is left as
    it was. *)
Lemma crawlPage_navigation_failure c url depth parentUrl message :
  let page := w_page w (count is_NewPage (journal c)) url in
  ps_newPage page = Returns () ->
  ps_setup page = Returns () ->
  ps_goto page = Throws message ->
  ps_close page = Returns () ->
  exists c',
    crawlPage w c url depth parentUrl = (Returns (), c')
    /\ results c' =
         map_set url
           (Failed {| pe_url := url; pe_error := message; pe_depth := depth;
                      pe_parentUrl := parentUrl;
                      pe_crawledAt := ps_clock page |})
           (results c)
    /\ visitedUrls c' = visitedUrls c
    /\ crawlQueue c' = crawlQueue c
    /\ journal c' =
         journal c ++ [NewPage url true; Goto url false; PageClose url true].
Proof.
  intros page Hnew Hsetup Hgoto Hclose. unfold crawlPage. fold page.
  rewrite Hnew, Hsetup, Hgoto, Hclose. eexists. split; [done|].
  simpl. by rewrite <- !app_assoc.
Qed.

End Budget.

(** C1.  On the site where two pages link to [/x] and [/x] times out, the
    crawl navigates to [/x] twice, and [/x] has its error result but is not
    in the visited set: of the three URLs with a result only two count
    toward the page budget. *)
Theorem C1_failed_url_is_not_marked_visited :
  (fun c =>
     (count (is_Goto "https://example.com/x") (journal c),
      bool_decide ("https://example.com/x" ∈ visitedUrls c),
      map_keys (results c),
      size (visitedUrls c)))
    <$> Sites.final_state (Sites.world Sites.shared_link) 10 "example.com"
          no_options
  = Some (2%nat, false,
          ["https://example.com"; "https://example.com/a";
           "https://example.com/x"],
          2%nat).
Proof. vm_compute. reflexivity. Qed.

(** C2.  On the site whose home page links to three pages that time out,
    with [maxPages = 2], the crawl ends with four PageResults in the results
    map and four entries in the sitemap of the report. *)
Theorem C2_results_exceed_maxPages :
  (fun c => (maxPages (config c), map_size (results c),
             size (visitedUrls c)))
    <$> Sites.final_state (Sites.world Sites.broken_links) 10 "example.com"
          (Sites.options_maxPages 2)
  = Some (2, 4%nat, 1%nat)
  /\ (fun out =>
        match out with
        | Returns report => Some (size (sitemap report), totalPages report)
        | Throws _ => None
        end)
       <$> Sites.final_report (Sites.world Sites.broken_links) 10
             "example.com" (Sites.options_maxPages 2)
     = Some (Some (4%nat, 1%nat)).
Proof. split; vm_compute; reflexivity. Qed.

(** ** Termination of the loop and the life cycle of the browser *)

Section Lifecycle.

Context `{Platform} (w : World).

Lemma crawl_loop_stops c :
  loop_condition c = false ->
  forall fuel, crawl_loop w fuel c = Some (Returns (), c).
Proof. intros Hcond [|fuel]; simpl; by rewrite Hcond. Qed.

Lemma crawl_loop_throws c m c' :
  loop_condition c = true -> loop_body w c = (Throws m, c') ->
  forall fuel, (1 <= fuel)%nat -> crawl_loop w fuel c = Some (Throws m, c').
Proof.
  intros Hcond Hbody [|fuel] Hfuel; [lia|]. simpl. by rewrite Hcond, Hbody.
Qed.

Lemma crawl_loop_continues c c' fuel0 r :
  loop_condition c = true -> loop_body w c = (Returns (), c') ->
  (forall fuel, (fuel0 <= fuel)%nat -> crawl_loop w fuel c' = Some r) ->
  forall fuel, (S fuel0 <= fuel)%nat -> crawl_loop w fuel c = Some r.
Proof.
  intros Hcond Hbody Hrest [|fuel] Hfuel; [lia|]. simpl.
  rewrite Hcond, Hbody. apply Hrest. lia.
Qed.

(** The loop always finishes: each pass either consumes a page of the budget
    or shortens the queue. *)
Lemma crawl_loop_terminates c :
  exists fuel0 r,
    forall fuel, (fuel0 <= fuel)%nat -> crawl_loop w fuel c = Some r.
Proof.
  assert (Hmeasure : forall n m c,
            (budget c <= n)%nat -> (length (crawlQueue c) <= m)%nat ->
            exists fuel0 r,
              forall fuel, (fuel0 <= fuel)%nat -> crawl_loop w fuel c = Some r).
  { clear c. induction n as [|n IHn].
    - intros m c Hn _. exists 0%nat, (Returns (), c). intros fuel _.
      apply crawl_loop_stops. destruct (loop_condition c) eqn:Hcond; [|done].
      apply loop_condition_queue in Hcond as (_ & _ & _ & Hlt).
      unfold budget in Hn. lia.
    - induction m as [|m IHm]; intros c Hn Hm.
      + exists 0%nat, (Returns (), c). intros fuel _.
        apply crawl_loop_stops. destruct (loop_condition c) eqn:Hcond; [|done].
        apply loop_condition_queue in Hcond as (e & rest & Hq & _).
        rewrite Hq in Hm. simpl in Hm. lia.
      + destruct (loop_condition c) eqn:Hcond.
        2:{ exists 0%nat, (Returns (), c). intros fuel _.
            by apply crawl_loop_stops. }
        destruct (loop_body w c) as [[[]|msg] c'] eqn:Hbody.
        2:{ exists 1%nat, (Throws msg, c'). by apply crawl_loop_throws. }
        assert (Hpass : pass w c c') by (by econstructor).
        apply pass_summary in Hpass
          as (e & rest & new & Hq & Hlt & Hjob & _ & Hq' & _ & Hres).
        destruct Hjob as (_ & Hcfg & _).
        assert (Hnext : exists fuel0 r, forall fuel, (fuel0 <= fuel)%nat ->
                          crawl_loop w fuel c' = Some r).
        { assert (Hshorter : visitedUrls c' = visitedUrls c -> new = [] ->
                    exists fuel0 r, forall fuel, (fuel0 <= fuel)%nat ->
                      crawl_loop w fuel c' = Some r).
          { intros Hv Hnil. subst new. apply IHm.
            - unfold budget in *. rewrite Hcfg, Hv. lia.
            - rewrite Hq', app_nil_r. rewrite Hq in Hm. simpl in Hm. lia. }
          destruct Hres
            as [(Hv & _ & Hnil)
               | (Hfresh & _ & _ & r & _ & _ & _ & [(Hv & Hnil & _) | Hv])].
          - by apply Hshorter.
          - by apply Hshorter.
          - apply (IHn (length (crawlQueue c'))); [|done].
            assert (Hdisj : ({[fe_url e]} : gset string) ## visitedUrls c)
              by (apply disjoint_singleton_l; exact Hfresh).
            unfold budget in *. rewrite Hcfg, Hv.
            rewrite (size_union _ _ Hdisj), size_singleton. lia. }
        destruct Hnext as (fuel0 & r & Hr).
        exists (S fuel0), r. by eapply crawl_loop_continues. }
  by apply (Hmeasure (budget c) (length (crawlQueue c))).
Qed.

(** The loop makes no call on the browser process itself. *)
Lemma passes_journal c c' :
  rtc (pass w) c c' ->
  same_job c c'
  /\ exists evs, journal c' = journal c ++ evs
                 /\ forallb loop_event evs = true.
Proof.
  revert c'. apply rtc_ind_r.
  - split; [apply same_job_refl|]. exists []. by rewrite app_nil_r.
  - intros c1 c2 _ Hpass (Hjob & evs & Hj & Hevs).
    apply pass_summary in Hpass
      as (e & rest & new & _ & _ & Hjob' & (evs' & Hj' & Hevs') & _).
    split; [by eapply same_job_trans|].
    exists (evs ++ Shift e :: evs'). split.
    + by rewrite Hj', Hj, <- app_assoc.
    + rewrite forallb_app, Hevs. simpl.
      clear Hj'. induction evs' as [|[] evs' IH]; simpl in *; try done.
      all: by apply IH.
Qed.

End Lifecycle.

Section BrowserProcess.

Context `{Platform} (w : World).

(** C4, amended.  Every run of [crawlWebsite] ends, and what it has called
    when it returns or throws is of one of these forms.  The start URL does
    not parse: no call at all, the error propagates and no browser exists.
    The launch fails: one failed launch and no close, the launch error
    propagates.  Otherwise there is exactly one launch, and [close()] is
    called when the loop is over.  If that call returns, it is the only
    close and the last call made, and then the report is returned or the
    error of the loop rethrown.  If it rejects while the error of the loop
    is handled, it is the only close and its error replaces the error of the
    loop.  If it rejects after a loop that ended normally, the report is
    lost and [close()] is called a second time by the [catch]: the caller
    gets the error of the first close, or that of the second when it rejects
    as well. *)
Theorem C4_browser_closed_on_every_exit url options :
  exists fuel0 out j,
    (forall fuel, (fuel0 <= fuel)%nat ->
       crawlWebsite w fuel url options = Some (out, j))
    /\ ((exists m, normalizeUrl url = Throws m /\ out = Throws m /\ j = [])
        \/ (exists m pre,
              is_ok (normalizeUrl url) = true
              /\ w_launch w = Throws m /\ out = Throws m
              /\ j = pre ++ [BrowserLaunch false]
              /\ forallb robots_event pre = true)
        \/ (exists c0 o c' pre mid,
              construct w url options = Returns c0
              /\ w_launch w = Returns ()
              /\ crawl_loop w fuel0
                   (start_loop
                      (loadRobotsTxt w
                         (set_startTime (Some (w_startTime w)) c0)))
                 = Some (o, c')
              /\ journal c' = pre ++ BrowserLaunch true :: mid
              /\ forallb robots_event pre = true
              /\ forallb loop_event mid = true
              /\ match o, w_browserClose w 0 with
                 | Returns _, Returns _ =>
                     out = Returns
                             (generateReport w (emit (BrowserClose true) c'))
                     /\ j = journal c' ++ [BrowserClose true]
                 | Throws m, Returns _ =>
                     out = Throws m /\ j = journal c' ++ [BrowserClose true]
                 | Throws _, Throws m1 =>
                     out = Throws m1 /\ j = journal c' ++ [BrowserClose false]
                 | Returns _, Throws m1 =>
                     out = Throws (match w_browserClose w 1 with
                                   | Returns _ => m1
                                   | Throws m2 => m2
                                   end)
                     /\ j = journal c'
                            ++ [BrowserClose false;
                                BrowserClose (is_ok (w_browserClose w 1))]
                 end))
    /\ count is_BrowserLaunch j
       = (if is_ok (normalizeUrl url) then 1 else 0)%nat
    /\ (count is_BrowserLaunched j <= count is_BrowserClose j
        <= count is_BrowserLaunched j + 1)%nat
    /\ (is_ok (w_browserClose w 0) = true ->
        count is_BrowserClose j = count is_BrowserLaunched j).
Proof.
  assert (Hrobots : forall p pre,
            (forall ev, robots_event ev = true -> p ev = false) ->
            forallb robots_event pre = true -> count p pre = 0%nat).
  { intros p pre Hp. by apply count_none. }
  assert (Hloop : forall p mid,
            (forall ev, loop_event ev = true -> p ev = false) ->
            forallb loop_event mid = true -> count p mid = 0%nat).
  { intros p mid Hp. by apply count_none. }
  unfold crawlWebsite, construct.
  destruct (normalizeUrl url) as [u|m] eqn:Hurl.
  2:{ exists 0%nat, (Throws m), []. split; [done|].
      split; [left; by exists m|]. split; [done|].
      split; [unfold count; simpl; lia|done]. }
  match goal with |- context [crawl w _ ?c] => set (c0 := c) end.
  unfold crawl.
  set (c1 := loadRobotsTxt w (set_startTime (Some (w_startTime w)) c0)).
  destruct (loadRobotsTxt_effect w (set_startTime (Some (w_startTime w)) c0))
    as (_ & _ & _ & _ & _ & Hbrowser & _ & pre & Hj1 & Hpre).
  fold c1 in Hbrowser, Hj1. simpl in Hbrowser, Hj1.
  destruct (w_launch w) as [[]|m] eqn:Hlaunch.
  - destruct (crawl_loop_terminates w (start_loop c1))
      as (fuel0 & [o c'] & Hfuel).
    pose proof (Hfuel fuel0 (le_n _)) as Hrun. pose proof Hrun as Hexit.
    apply crawl_loop_passes, passes_journal in Hrun
      as ((_ & _ & _ & Hb & _) & mid & Hj & Hmid).
    simpl in Hb, Hj. rewrite Hj1 in Hj.
    assert (Hshape : journal c' = pre ++ BrowserLaunch true :: mid).
    { rewrite Hj. by rewrite <- !app_assoc. }
    assert (Hcounts : count is_BrowserLaunch (journal c') = 1%nat
                      /\ count is_BrowserLaunched (journal c') = 1%nat
                      /\ count is_BrowserClose (journal c') = 0%nat).
    { rewrite Hshape, !count_app.
      change (BrowserLaunch true :: mid) with ([BrowserLaunch true] ++ mid).
      rewrite !count_app, !(Hrobots _ pre), !(Hloop _ mid); try done.
      all: by intros []. }
    destruct Hcounts as (Hlaunches & Hlaunched & Hcloses).
    destruct o as [[]|m]; destruct (w_browserClose w 0) as [[]|m1] eqn:Hclose.
    + exists fuel0, (Returns (generateReport w (emit (BrowserClose true) c'))),
        (journal c' ++ [BrowserClose true]).
      split; [|split; [|rewrite !count_app, Hlaunches, Hlaunched, Hcloses;
                        unfold count; simpl; repeat split; intros; lia]].
      * intros fuel Hle. by rewrite (Hfuel fuel Hle), Hcloses, Hclose.
      * right. right. exists c0, (Returns ()), c', pre, mid. done.
    + exists fuel0,
        (Throws (match w_browserClose w 1 with
                 | Returns _ => m1
                 | Throws m2 => m2
                 end)),
        (journal c'
         ++ [BrowserClose false; BrowserClose (is_ok (w_browserClose w 1))]).
      split; [|split; [|split; [|split; [|done]]]].
      * intros fuel Hle. rewrite (Hfuel fuel Hle), Hcloses, Hclose.
        unfold catch_and_close. simpl. rewrite Hb.
        unfold count in *. rewrite List.filter_app, length_app.
        simpl. rewrite Hcloses. simpl.
        destruct (w_browserClose w 1); simpl; by rewrite <- app_assoc.
      * right. right. exists c0, (Returns ()), c', pre, mid. done.
      * rewrite !count_app, Hlaunches. unfold count.
        by destruct (w_browserClose w 1).
      * rewrite !count_app, Hlaunched, Hcloses. unfold count.
        destruct (w_browserClose w 1); simpl; lia.
    + exists fuel0, (Throws m), (journal c' ++ [BrowserClose true]).
      split; [|split; [|rewrite !count_app, Hlaunches, Hlaunched, Hcloses;
                        unfold count; simpl; repeat split; intros; lia]].
      * intros fuel Hle. rewrite (Hfuel fuel Hle).
        unfold catch_and_close. by rewrite Hb, Hcloses, Hclose.
      * right. right. exists c0, (Throws m), c', pre, mid. done.
    + exists fuel0, (Throws m1), (journal c' ++ [BrowserClose false]).
      split; [|split; [|rewrite !count_app, Hlaunches, Hlaunched, Hcloses;
                        unfold count; simpl; repeat split; intros; lia]].
      * intros fuel Hle. rewrite (Hfuel fuel Hle).
        unfold catch_and_close. by rewrite Hb, Hcloses, Hclose.
      * right. right. exists c0, (Throws m), c', pre, mid. done.
  - exists 0%nat, (Throws m), (pre ++ [BrowserLaunch false]).
    split; [|split].
    + intros fuel _. unfold catch_and_close. simpl.
      rewrite Hbrowser. simpl. by rewrite Hj1.
    + right. left. exists m, pre. done.
    + rewrite !count_app, !(Hrobots _ pre); try done.
      2-4: by intros [].
      unfold count. simpl. repeat split; intros; lia.
Qed.

End BrowserProcess.

(** C4, as stated, fails.  In a world whose browser rejects the first
    [close()], the crawl of the healthy site leaves the loop normally, the
    [close()] that follows the loop rejects, and the [catch] calls [close()]
    again: the browser was launched once and [close()] called twice, the two
    last calls of the run, and the caller gets the error of the first close
    instead of the report. *)
Lemma C4_rejected_close_counterexample :
  (fun '(out, j) =>
     (is_ok out, count is_BrowserLaunched j, count is_BrowserClose j,
      drop (length j - 2) j))
    <$> @crawlWebsite Fragment.platform (Sites.close_rejects Sites.healthy)
          10 "example.com" no_options
  = Some (false, 1%nat, 2%nat, [BrowserClose false; BrowserClose true])
  /\ fst <$> @crawlWebsite Fragment.platform
               (Sites.close_rejects Sites.healthy) 10 "example.com"
               no_options
     = Some (Throws "Protocol error (Browser.close): Target closed").
Proof. split; vm_compute; reflexivity. Qed.

(** ** The report *)

Section ReportProperties.

Context `{Platform} (w : World).

(** The sitemap after one more result. *)
Lemma build_sitemap_snoc c rs url r :
  results c = rs ++ [(url, r)] ->
  build_sitemap c
  = object_set (sitemap_path c url) (sitemap_entry r)
      (build_sitemap (set_results rs c)).
Proof.
  intros Hrs. unfold build_sitemap. rewrite Hrs. simpl.
  by rewrite fold_left_app.
Qed.

(** An assignment to [__proto__] adds no entry. *)
Lemma build_sitemap_proto c : build_sitemap c !! "__proto__" = None.
Proof.
  remember (results c) as rs eqn:Hrs. revert c Hrs.
  induction rs as [|[url r] rs IH] using rev_ind; intros c Hrs.
  - unfold build_sitemap. rewrite <- Hrs. simpl. by rewrite lookup_empty.
  - rewrite (build_sitemap_snoc c rs url r) by done. unfold object_set.
    case_bool_decide as Hproto; [by apply IH|].
    rewrite lookup_insert_ne by done. by apply IH.
Qed.

(** Every sitemap entry was written for some result, under its path. *)
Lemma build_sitemap_lookup c path se :
  build_sitemap c !! path = Some se ->
  exists url r,
    (url, r) ∈ results c /\ path = sitemap_path c url
    /\ se = sitemap_entry r.
Proof.
  remember (results c) as rs eqn:Hrs. revert c Hrs.
  induction rs as [|[url r] rs IH] using rev_ind; intros c Hrs.
  - unfold build_sitemap. rewrite <- Hrs. simpl. by rewrite lookup_empty.
  - rewrite (build_sitemap_snoc c rs url r) by done. unfold object_set.
    assert (Hold : build_sitemap (set_results rs c) !! path = Some se ->
              exists url0 r0,
                (url0, r0) ∈ rs ++ [(url, r)] /\ path = sitemap_path c url0
                /\ se = sitemap_entry r0).
    { intros Hse.
      destruct (IH (set_results rs c) eq_refl Hse) as (u & r' & Hin & Hp & He).
      exists u, r'. split; [|done]. apply elem_of_app. by left. }
    case_bool_decide as Hproto; [done|].
    destruct (decide (sitemap_path c url = path)) as [<-|Hne].
    + rewrite lookup_insert_eq. intros [= <-]. exists url, r.
      split; [|done]. apply elem_of_app. right. by left.
    + by rewrite lookup_insert_ne by done.
Qed.

(** Every result whose path is not [__proto__] has an entry under its path;
    the entry shows the result itself when every result stored under this
    path is the same. *)
Lemma build_sitemap_written c url r :
  (url, r) ∈ results c ->
  sitemap_path c url <> "__proto__" ->
  is_Some (build_sitemap c !! sitemap_path c url)
  /\ ((forall url' r', (url', r') ∈ results c ->
         sitemap_path c url' = sitemap_path c url -> r' = r) ->
      build_sitemap c !! sitemap_path c url = Some (sitemap_entry r)).
Proof.
  intros Hin Hproto. revert Hin.
  remember (results c) as rs eqn:Hrs. revert c Hrs Hproto.
  induction rs as [|[url1 r1] rs IH] using rev_ind; intros c Hrs Hproto Hin.
  - by apply elem_of_nil in Hin.
  - rewrite (build_sitemap_snoc c rs url1 r1) by done. unfold object_set.
    destruct (decide (sitemap_path c url1 = sitemap_path c url)) as [Heq|Hne].
    + rewrite bool_decide_eq_false_2 by (by rewrite Heq).
      rewrite Heq, lookup_insert_eq. split; [by eexists|].
      intros Hsame. f_equal. f_equal. apply (Hsame url1 r1); [|done].
      apply elem_of_app. right. by left.
    + assert (Hrest : (url, r) ∈ rs).
      { apply elem_of_app in Hin as [Hin|Hin]; [done|].
        apply list_elem_of_singleton in Hin. inversion Hin. congruence. }
      destruct (IH (set_results rs c) eq_refl Hproto Hrest) as [Hsome Hsame].
      assert (Hkept : (forall url' r', (url', r') ∈ rs ++ [(url1, r1)] ->
                         sitemap_path c url' = sitemap_path c url ->
                         r' = r) ->
                build_sitemap (set_results rs c) !! sitemap_path c url
                = Some (sitemap_entry r)).
      { intros Hall. apply Hsame. intros url' r' Hin'. apply Hall.
        apply elem_of_app. by left. }
      case_bool_decide; [done|].
      by rewrite lookup_insert_ne by done.
Qed.

(** The sitemap never has more entries than there are results, and has as
    many when the paths of the results are pairwise distinct and none of
    them is [__proto__]. *)
Lemma build_sitemap_size c :
  (size (build_sitemap c) <= map_size (results c))%nat
  /\ (NoDup (map (sitemap_path c) (map_keys (results c))) ->
      "__proto__" ∉ map (sitemap_path c) (map_keys (results c)) ->
      size (build_sitemap c) = map_size (results c)).
Proof.
  remember (results c) as rs eqn:Hrs. revert c Hrs.
  induction rs as [|[url r] rs IH] using rev_ind; intros c Hrs.
  - unfold build_sitemap. rewrite <- Hrs. simpl. by rewrite map_size_empty.
  - rewrite (build_sitemap_snoc c rs url r) by done.
    destruct (IH (set_results rs c) eq_refl) as [Hle Heq].
    unfold map_size, map_keys, object_set in *. rewrite length_app. simpl.
    split.
    + case_bool_decide; [lia|].
      destruct (build_sitemap (set_results rs c) !! sitemap_path c url)
        as [se|] eqn:Hse.
      * rewrite map_size_insert_Some by done. lia.
      * rewrite map_size_insert_None by done. lia.
    + rewrite !map_app. simpl. intros Hnodup Hproto.
      apply NoDup_app in Hnodup as (Hnodup & Hfresh & _).
      rewrite bool_decide_eq_false_2.
      2:{ intros Hkey. apply Hproto. apply elem_of_app. right.
          rewrite Hkey. by left. }
      rewrite map_size_insert_None.
      { rewrite Heq; [lia|done|].
        intros Hin. apply Hproto. apply elem_of_app. by left. }
      destruct (build_sitemap (set_results rs c) !! sitemap_path c url)
        as [se|] eqn:Hse; [|done].
      apply build_sitemap_lookup in Hse as (u & r' & Hin & Hp & _).
      exfalso. apply (Hfresh (sitemap_path c url)); [|by left].
      rewrite Hp. apply list_elem_of_fmap. exists u. split; [done|].
      apply list_elem_of_fmap. by exists (u, r').
Qed.

Lemma strip_prefix_self (s : string) : strip_prefix s s = Some EmptyString.
Proof. induction s as [|a s IH]; simpl; [done|]. by rewrite Ascii.eqb_refl. Qed.

(** The start URL itself has the path [/]. *)
Lemma sitemap_path_seed c : sitemap_path c (startUrl c) = "/".
Proof.
  unfold sitemap_path.
  assert (Hself : remove_first (startUrl c) (startUrl c) = EmptyString).
  { destruct (startUrl c) as [|a s] eqn:Hs; [done|].
    unfold remove_first. by rewrite strip_prefix_self. }
  by rewrite Hself.
Qed.

End ReportProperties.

Lemma map_set_elem_of_new {V : Type} (k : string) (v : V) m :
  (k, v) ∈ map_set k v m.
Proof.
  induction m as [|[k' v'] m IH]; simpl; [by left|].
  case_bool_decide; [by left|by right].
Qed.


Section Statistics.

Context `{Platform} (w : World).





(** Reading the links of a page uses the start URL only. *)
Lemma extract_links_same_start c c' url anchors :
  startUrl c' = startUrl c ->
  extract_links c' url anchors = extract_links c url anchors.
Proof.
  intros Hs. unfold extract_links, isInternalUrl. by rewrite Hs.
Qed.

(** [extractPageData] reads only the start URL and the configuration of the
    crawler. *)
Lemma extractPageData_same_job c c' page url response loadTime depth parentUrl :
  startUrl c' = startUrl c -> config c' = config c ->
  extractPageData c' page url response loadTime depth parentUrl
  = extractPageData c page url response loadTime depth parentUrl.
Proof.
  intros Hs Hcfg. unfold extractPageData, take_screenshot.
  destruct (ps_content page) as [doc|]; [|done].
  by rewrite Hcfg, (extract_links_same_start c c' url _ Hs).
Qed.



End Statistics.



(** ** The sitemap *)

(** C8, as stated, fails.  A crawl started at [https://example.com/blog]
    stores the page [https://example.com/about]; the seed origin is
    [https://example.com], the URL with the origin stripped is [/about], and
    the sitemap has no entry under [/about]: the entry is keyed by the whole
    URL.  And on the site whose home page links to [https://example.com//]
    two URLs are crawled and the sitemap has one entry. *)
Lemma C8_sitemap_key_counterexample :
  (fun c => (bool_decide ("https://example.com/about" ∈ map_keys (results c)),
             Fragment.origin (startUrl c)))
    <$> Sites.final_state (Sites.world Sites.blog) 10 "example.com/blog"
          no_options
  = Some (true, Some "https://example.com")
  /\ remove_first "https://example.com" "https://example.com/about" = "/about"
  /\ (fun r => (sitemap r !! "/about",
                se_url <$> sitemap r !! "https://example.com/about"))
       <$> Sites.report_of (Sites.world Sites.blog) 10 "example.com/blog"
             no_options
     = Some (None, Some "https://example.com/about")
  /\ (fun c => map_keys (results c))
       <$> Sites.final_state (Sites.world Sites.doubled_slash) 10
             "example.com" no_options
     = Some ["https://example.com"; "https://example.com/"]
  /\ (fun r => (size (sitemap r), totalPages r))
       <$> Sites.report_of (Sites.world Sites.doubled_slash) 10
             "example.com" no_options
     = Some (1%nat, 2%nat).
Proof. repeat split; vm_compute; reflexivity. Qed.

(** A page whose URL is the start URL followed by [__proto__] has the
    sitemap key [__proto__]: it is crawled and has a result, and the sitemap
    has no entry for it. *)
Lemma build_sitemap_proto_key :
  (fun c => (map_keys (results c),
             map (sitemap_path c) (map_keys (results c))))
    <$> Sites.final_state (Sites.world Sites.proto_key) 10 "example.com/a"
          no_options
  = Some (["https://example.com/a"; "https://example.com/a__proto__"],
          ["/"; "__proto__"])
  /\ (fun r => (size (sitemap r), totalPages r))
       <$> Sites.report_of (Sites.world Sites.proto_key) 10 "example.com/a"
             no_options
     = Some (1%nat, 2%nat).
Proof. split; vm_compute; reflexivity. Qed.

Section Sitemap.

Context `{Platform} (w : World).

Lemma distinct_paths_same_result c url r url' r' :
  NoDup (map (sitemap_path c) (map_keys (results c))) ->
  (url, r) ∈ results c -> (url', r') ∈ results c ->
  sitemap_path c url' = sitemap_path c url -> r' = r.
Proof.
  unfold map_keys. rewrite map_map. intros Hnodup Hin Hin' Hpath.
  apply list_elem_of_lookup in Hin as [i Hi].
  apply list_elem_of_lookup in Hin' as [j Hj].
  assert (Hij : j = i).
  { eapply NoDup_lookup; [exact Hnodup| |].
    - change (map ?f ?l) with (f <$> l). rewrite list_lookup_fmap, Hj.
      simpl. by rewrite Hpath.
    - change (map ?f ?l) with (f <$> l). by rewrite list_lookup_fmap, Hi. }
  subst j. rewrite Hi in Hj. by inversion Hj.
Qed.

(** C8, amended.  The key of a page in the sitemap is its URL with the
    first occurrence of the normalized start URL removed, [/] when nothing
    remains, as for the start page itself.  For every entry of the results
    map whose key is not [__proto__] the sitemap of the report has an entry
    under that key; under [__proto__] it never has one.  The sitemap has at
    most one entry per result; when the keys are pairwise distinct and none
    of them is [__proto__] it has exactly one per result, and the entry
    under the key of a page is the entry of that page. *)
Theorem C8_sitemap_keyed_by_start_url c :
  (forall url r,
     (url, r) ∈ results c ->
     sitemap_path c url <> "__proto__" ->
     is_Some (sitemap (generateReport w c) !! sitemap_path c url))
  /\ sitemap (generateReport w c) !! "__proto__" = None
  /\ (forall url,
        sitemap_path c url
        = match remove_first (startUrl c) url with
          | EmptyString => "/"
          | path => path
          end)
  /\ sitemap_path c (startUrl c) = "/"
  /\ (size (sitemap (generateReport w c)) <= map_size (results c))%nat
  /\ (NoDup (map (sitemap_path c) (map_keys (results c))) ->
      "__proto__" ∉ map (sitemap_path c) (map_keys (results c)) ->
      size (sitemap (generateReport w c)) = map_size (results c)
      /\ forall url r,
           (url, r) ∈ results c ->
           sitemap (generateReport w c) !! sitemap_path c url
           = Some (sitemap_entry r)).
Proof.
  split; [|split; [|split; [|split; [|split]]]].
  - intros url r Hin Hproto. by apply (build_sitemap_written c url r).
  - apply build_sitemap_proto.
  - done.
  - apply sitemap_path_seed.
  - apply build_sitemap_size.
  - intros Hnodup Hproto. split; [by apply build_sitemap_size|].
    intros url r Hin.
    assert (Hkey : sitemap_path c url <> "__proto__").
    { intros Heq. apply Hproto. rewrite <- Heq.
      apply list_elem_of_fmap. exists url. split; [done|].
      unfold map_keys. apply list_elem_of_fmap. by exists (url, r). }
    apply (build_sitemap_written c url r Hin Hkey).
    intros url' r' Hin' Hpath.
    by eapply distinct_paths_same_result.
Qed.

End Sitemap.

Lemma C8_sitemap_keyed_by_start_url_witness :
  (NoDup (map (sitemap_path Sites.healthy_exit)
            (map_keys (results Sites.healthy_exit)))
   /\ "__proto__" ∉ map (sitemap_path Sites.healthy_exit)
                      (map_keys (results Sites.healthy_exit)))
  /\ size (sitemap (generateReport (Sites.world_with_robots Sites.healthy)
                      Sites.healthy_exit))
     = map_size (results Sites.healthy_exit).
Proof.
  assert (Hnodup : NoDup (map (sitemap_path Sites.healthy_exit)
                            (map_keys (results Sites.healthy_exit)))).
  { apply (bool_decide_unpack _). vm_compute. exact I. }
  assert (Hproto : "__proto__" ∉ map (sitemap_path Sites.healthy_exit)
                                  (map_keys (results Sites.healthy_exit))).
  { apply (bool_decide_unpack _). vm_compute. exact I. }
  split; [by split|].
  destruct (C8_sitemap_keyed_by_start_url
              (Sites.world_with_robots Sites.healthy) Sites.healthy_exit)
    as (_ & _ & _ & _ & _ & Hdistinct).
  exact (proj1 (Hdistinct Hnodup Hproto)).
Defined.

(** ** URL normalization *)

(** On an address that ends in two slashes the normalizer removes one of
    them, and on its own result it removes the other. *)
Lemma normalizeUrl_doubled_slash `{Platform} :
  url_href "https://example.com//" = Some "https://example.com//" ->
  url_href "https://example.com/" = Some "https://example.com/" ->
  normalizeUrl "https://example.com//" = Returns "https://example.com/"
  /\ normalizeUrl "https://example.com/" = Returns "https://example.com".
Proof. intros H2 H1. unfold normalizeUrl. simpl. by rewrite H2, H1. Qed.

(** C9.  The valid absolute URL [https://example.com//] is normalized to
    [https://example.com/], and that to [https://example.com]: normalizing
    twice does not give what normalizing once gives. *)
Theorem C9_normalizeUrl_twice_differs :
  @normalizeUrl Fragment.platform "https://example.com//"
  = Returns "https://example.com/"
  /\ @normalizeUrl Fragment.platform "https://example.com/"
     = Returns "https://example.com"
  /\ "https://example.com/" <> "https://example.com".
Proof. repeat split; [vm_compute; reflexivity..|discriminate]. Qed.

(** ** Extraction *)

(** Outside the conditions of extraction: when a navigation resolves
    without a response object, reading the response headers throws, so
    [extractPageData] throws as a whole and the crawl stores an error
    PageResult for the page. *)
Lemma extractPageData_without_response :
  extract_headers None
  = Throws "Cannot read properties of null (reading 'headers')"
  /\ internal
       (@extract_links Fragment.platform Sites.idle "https://example.com"
          (doc_anchors (Sites.document ["/a"])))
     = ["https://example.com/a"]
  /\ @extractPageData Fragment.platform Sites.idle
       (Sites.without_response ["/a"]) "https://example.com" None 800 0 None
     = Throws "Cannot read properties of null (reading 'headers')"
  /\ (fun c => (results c, elements (visitedUrls c)))
       <$> Sites.final_state (Sites.world Sites.no_response) 10
             "example.com" no_options
     = Some
         ([("https://example.com",
            Failed
              {| pe_url := "https://example.com";
                 pe_error :=
                   "Cannot read properties of null (reading 'headers')";
                 pe_depth := 0; pe_parentUrl := None;
                 pe_crawledAt := "2026-01-03T10:00:00.000Z" |})],
          ["https://example.com"]).
Proof. repeat split; vm_compute; reflexivity. Qed.

Section Extraction.

Context `{Platform} (w : World).

(** References that do not resolve are skipped one by one. *)
Lemma extract_css_each url sheets :
  extract_css url sheets = omap (resolve_ref url) sheets.
Proof.
  unfold extract_css.
  assert (Hacc : forall acc,
            fold_left
              (fun cssFiles href =>
                 match truthy_string href with
                 | Some href =>
                     match url_resolve href url with
                     | Some abs => cssFiles ++ [abs]
                     | None => cssFiles
                     end
                 | None => cssFiles
                 end) sheets acc
            = acc ++ omap (resolve_ref url) sheets).
  { induction sheets as [|href sheets IH]; intros acc; simpl.
    - by rewrite app_nil_r.
    - rewrite IH. unfold resolve_ref at 2.
      destruct (truthy_string href) as [ref|]; [|done].
      destruct (url_resolve ref url); [|done].
      by rewrite <- app_assoc. }
  by rewrite Hacc.
Qed.

Lemma extract_js_each url scripts :
  extract_js url scripts = omap (fun src => resolve_ref url (Some src)) scripts.
Proof.
  unfold extract_js.
  assert (Hacc : forall acc,
            fold_left
              (fun jsFiles src =>
                 match truthy_string (Some src) with
                 | Some src =>
                     match url_resolve src url with
                     | Some abs => jsFiles ++ [abs]
                     | None => jsFiles
                     end
                 | None => jsFiles
                 end) scripts acc
            = acc ++ omap (fun src => resolve_ref url (Some src)) scripts).
  { induction scripts as [|src scripts IH]; intros acc.
    - simpl. by rewrite app_nil_r.
    - cbn [fold_left omap list_omap]. rewrite IH. unfold resolve_ref at 2.
      destruct (truthy_string (Some src)) as [ref|]; [|done].
      destruct (url_resolve ref url); [|done].
      by rewrite <- app_assoc. }
  by rewrite Hacc.
Qed.

Lemma extract_images_each url imgs :
  extract_images url imgs = omap (resolve_img url) imgs.
Proof.
  unfold extract_images.
  assert (Hacc : forall acc,
            fold_left
              (fun images elem =>
                 let alt := default "" (truthy_string (img_alt elem)) in
                 match truthy_string (Some (img_src elem)) with
                 | Some src =>
                     match url_resolve src url with
                     | Some abs =>
                         images ++ [{| image_url := abs; image_alt := alt |}]
                     | None => images
                     end
                 | None => images
                 end) imgs acc
            = acc ++ omap (resolve_img url) imgs).
  { induction imgs as [|elem imgs IH]; intros acc.
    - simpl. by rewrite app_nil_r.
    - cbn [fold_left omap list_omap]. rewrite IH.
      unfold resolve_img at 2, resolve_ref.
      destruct (truthy_string (Some (img_src elem))) as [ref|]; [|done].
      destruct (url_resolve ref url); [|done].
      by rewrite <- app_assoc. }
  by rewrite Hacc.
Qed.

(** An anchor that does not resolve has no effect on the links. *)
Lemma extract_links_each c url anchors :
  extract_links c url anchors
  = extract_links c url
      (filter (fun href => is_Some (url_resolve href url)) anchors).
Proof.
  unfold extract_links.
  generalize ({| internal := []; external := [] |}).
  induction anchors as [|href anchors IH]; intros links; [done|].
  rewrite filter_cons. simpl.
  destruct (url_resolve href url) as [abs|] eqn:Hres.
  - rewrite decide_True by done. simpl. rewrite Hres. apply IH.
  - rewrite decide_False by (by intros [? ?]). apply IH.
Qed.

(** C10.  Given a live page, whose HTML and title can be read, and its
    navigation response, [crawlPage] stores an extracted PageResult whatever
    fails in a category: every category (meta tags, links, resources,
    headings, response headers, screenshot) is computed from its own
    elements of the page; a link, stylesheet, script or image reference
    that does not resolve is skipped without effect on the others; and a
    failed screenshot leaves a null screenshot reference in that PageResult
    and no error PageResult. *)
Theorem C10_categories_extracted_independently c url depth parentUrl doc r
    title :
  let page := w_page w (count is_NewPage (journal c)) url in
  ps_newPage page = Returns () ->
  ps_setup page = Returns () ->
  ps_goto page = Returns (Some r) ->
  ps_content page = Returns doc ->
  ps_title page = Returns title ->
  exists pd,
    results (snd (crawlPage w c url depth parentUrl))
    = map_set url (Extracted pd) (results c)
    /\ pd_meta pd = extract_meta (doc_meta doc)
    /\ pd_links pd
       = extract_links c url
           (filter (fun href => is_Some (url_resolve href url))
              (doc_anchors doc))
    /\ css (pd_resources pd) = omap (resolve_ref url) (doc_stylesheets doc)
    /\ js (pd_resources pd)
       = omap (fun src => resolve_ref url (Some src)) (doc_scripts doc)
    /\ images (pd_resources pd)
       = take 50 (omap (resolve_img url) (doc_imgs doc))
    /\ pd_headings pd = extract_headings doc
    /\ extract_headers (Some r) = Returns (pd_headers pd)
    /\ pd_screenshot pd = take_screenshot c page
    /\ (is_ok (ps_screenshot page) = false -> pd_screenshot pd = None).
Proof.
  intros page Hnew Hsetup Hgoto Hcontent Htitle.
  unfold crawlPage. fold page. rewrite Hnew, Hsetup, Hgoto.
  unfold extractPageData. rewrite Hcontent, Htitle. simpl.
  eexists. split.
  - match goal with
    | |- context [enqueue_links ?u ?d ?ls ?c1] =>
        destruct (enqueue_links_effect u d ls c1) as (_ & _ & _ & Hr & _)
    end.
    destruct (ps_close page); simpl; rewrite Hr; simpl; reflexivity.
  - simpl. split; [done|]. split.
    { rewrite <- extract_links_each. by apply extract_links_same_start. }
    split; [apply extract_css_each|].
    split; [apply extract_js_each|].
    split; [by rewrite extract_images_each|].
    split; [done|]. split; [done|]. split; [done|].
    unfold take_screenshot. simpl.
    destruct (screenshotEnabled (config c)); [|done].
    by destruct (ps_screenshot page).
Qed.

End Extraction.

Lemma C10_categories_extracted_independently_witness :
  (ps_newPage (Sites.healthy "https://example.com/a") = Returns ()
   /\ ps_setup (Sites.healthy "https://example.com/a") = Returns ()
   /\ ps_goto (Sites.healthy "https://example.com/a")
      = Returns (Some {| status := 200;
                         headers := {[ "content-type" := "text/html" ]} |})
   /\ ps_content (Sites.healthy "https://example.com/a")
      = Returns (Sites.document ["/b"; "/"])
   /\ ps_title (Sites.healthy "https://example.com/a") = Returns "Example"
   /\ is_ok (ps_screenshot (Sites.healthy "https://example.com/a")) = false)
  /\ exists pd,
       results (snd (@crawlPage Fragment.platform
                       (Sites.world Sites.healthy) Sites.idle
                       "https://example.com/a" 1
                       (Some "https://example.com")))
       = map_set "https://example.com/a" (Extracted pd) (results Sites.idle)
       /\ pd_screenshot pd = None.
Proof.
  split; [repeat split; reflexivity|].
  destruct (@C10_categories_extracted_independently Fragment.platform
              (Sites.world Sites.healthy) Sites.idle "https://example.com/a"
              1 (Some "https://example.com")
              (Sites.document ["/b"; "/"])
              {| status := 200;
                 headers := {[ "content-type" := "text/html" ]} |}
              "Example"
              eq_refl eq_refl eq_refl eq_refl eq_refl)
    as (pd & Hstored & _ & _ & _ & _ & _ & _ & _ & _ & Hshot).
  exists pd. split; [exact Hstored|]. apply Hshot. reflexivity.
Defined.

(** * Further properties of the crawler *)

(** ** The passes of the loop, case by case *)

Section PassDetail.

Context `{Platform} (w : World).

(** The enqueue loop pushes, in order, the links that pass its two tests. *)
Lemma enqueue_links_queue url depth links c :
  crawlQueue (enqueue_links url depth links c)
  = crawlQueue c
    ++ map (child_entry url depth)
         (links_to_enqueue (visitedUrls c) (config c) depth links).
Proof.
  unfold enqueue_links, links_to_enqueue.
  destruct (depth <? maxDepth (config c)); [|by rewrite app_nil_r].
  revert c. induction links as [|link links IH]; intros c.
  - simpl. by rewrite app_nil_r.
  - cbn [fold_left List.filter].
    destruct (negb (bool_decide (link ∈ visitedUrls c))
              && (Z.of_nat (size (visitedUrls c)) <? maxPages (config c))).
    + rewrite IH. simpl. by rewrite <- app_assoc.
    + apply IH.
Qed.

Lemma pass_kinds c c' :
  pass w c c' ->
  exists e rest,
    crawlQueue c = e :: rest
    /\ Z.of_nat (size (visitedUrls c)) < maxPages (config c)
    /\ same_job c c'
    /\ pass_kind c e rest c'.
Proof.
  intros [o Hcond Hbody].
  apply loop_condition_queue in Hcond as (e & rest & Hq & Hlt).
  exists e, rest. split; [done|]. split; [done|].
  split; [by eapply (loop_body_effect w c e rest o c')|].
  unfold loop_body in Hbody. rewrite Hq in Hbody.
  set (c1 := emit (Shift e) (set_crawlQueue rest c)) in Hbody.
  case_bool_decide as Hvisited.
  { injection Hbody as _ <-. apply kind_skipped; try done.
    by intros (Hnew & _). }
  destruct (maxDepth (config c1) <? fe_depth e) eqn:Hdepth.
  { injection Hbody as _ <-. apply kind_skipped; try done.
    apply Z.ltb_lt in Hdepth. simpl in Hdepth. intros (_ & Hle & _). lia. }
  destruct (truthy_bool (isAllowedByRobots c1 (fe_url e))) eqn:Hrobots;
    simpl in Hbody.
  2:{ injection Hbody as _ <-. apply kind_skipped; try done.
      intros (_ & _ & Hok). unfold isAllowedByRobots in *. simpl in Hrobots.
      congruence. }
  assert (Hadmitted : admitted c e).
  { apply Z.ltb_ge in Hdepth. repeat split; try done. }
  unfold crawlPage in Hbody.
  set (page := w_page w (count is_NewPage (journal c1)) (fe_url e)) in Hbody.
  destruct (ps_newPage page).
  2:{ injection Hbody as _ <-. apply kind_unopened; try done.
      simpl. by rewrite <- app_assoc. }
  destruct (ps_setup page).
  2:{ assert (Hclosed : forall closed o',
                (o', emit (PageClose (fe_url e) closed)
                       (store_error (fe_url e) (fe_depth e) (fe_parentUrl e)
                          page message (emit (NewPage (fe_url e) true) c1)))
                = (o, c') -> pass_kind c e rest c').
      { intros closed o' [= _ <-].
        eapply (kind_failed _ _ _ _ _ (calls_setup_failed (fe_url e) closed));
          try done.
        - simpl. by rewrite <- !app_assoc.
        - exists closed. by left. }
      destruct (ps_close page); by eapply Hclosed. }
  destruct (ps_goto page) as [response|message].
  2:{ assert (Hclosed : forall closed o',
                (o', emit (PageClose (fe_url e) closed)
                       (store_error (fe_url e) (fe_depth e) (fe_parentUrl e)
                          page message
                          (emit (Goto (fe_url e) false)
                             (emit (NewPage (fe_url e) true) c1))))
                = (o, c') -> pass_kind c e rest c').
      { intros closed o' [= _ <-].
        eapply (kind_failed _ _ _ _ _
                  (calls_navigated (fe_url e) false closed)); try done.
        - simpl. by rewrite <- !app_assoc.
        - exists closed. by right. }
      destruct (ps_close page); by eapply Hclosed. }
  set (cv := set_visitedUrls _ _) in Hbody.
  destruct (extractPageData cv page (fe_url e) response (ps_loadTime page)
              (fe_depth e) (fe_parentUrl e)) as [pd|message] eqn:Hpd.
  2:{ assert (Hclosed : forall closed o',
                (o', emit (PageClose (fe_url e) closed)
                       (store_error (fe_url e) (fe_depth e) (fe_parentUrl e)
                          page message cv))
                = (o, c') -> pass_kind c e rest c').
      { intros closed o' [= _ <-].
        eapply (kind_unextracted _ _ _ _ _ closed); try done.
        simpl. by rewrite <- !app_assoc. }
      destruct (ps_close page); by eapply Hclosed. }
  set (cr := set_results _ cv) in Hbody.
  pose proof (extractPageData_fields _ _ _ _ _ _ _ _ Hpd)
    as (Hu & Hd & Hp & Ht).
  assert (Hclosed : forall closed o',
            (o', emit (PageClose (fe_url e) closed)
                   (enqueue_links (fe_url e) (fe_depth e)
                      (internal (pd_links pd)) cr))
            = (o, c') -> pass_kind c e rest c').
  { intros closed o' [= _ <-].
    destruct (enqueue_links_effect (fe_url e) (fe_depth e)
                (internal (pd_links pd)) cr) as (_ & Hj & Hv & Hr & _).
    eapply (kind_extracted _ _ _ _ pd closed); try done.
    - exists cv, page, response. rewrite Hu, Hd, Hp, Ht. by repeat split.
    - unfold emit. cbn [crawlQueue]. rewrite enqueue_links_queue.
      subst cr cv c1. simpl. reflexivity.
    - unfold emit at 1. cbn [journal]. rewrite Hj. subst cr cv c1. simpl.
      by rewrite <- !app_assoc. }
  destruct (ps_close page); by eapply Hclosed.
Qed.

End PassDetail.

(** ** More on the results map *)

Lemma map_set_elem_of_other {V : Type} (k : string) (v : V) m k' (v' : V) :
  (k', v') ∈ m -> k' <> k -> (k', v') ∈ map_set k v m.
Proof.
  intros Hin Hne. induction m as [|[k1 v1] m IH]; simpl.
  - by apply elem_of_nil in Hin.
  - apply elem_of_cons in Hin as [[= <- <-]|Hin].
    + case_bool_decide; [done|by left].
    + case_bool_decide; right; [done|by apply IH].
Qed.

Lemma map_keys_map_set_old {V : Type} (k : string) (v : V) m x :
  x ∈ map_keys m -> x ∈ map_keys (map_set k v m).
Proof.
  unfold map_keys. intros [[k' v'] [-> Hin]]%list_elem_of_fmap. simpl.
  destruct (decide (k' = k)) as [->|Hne].
  - apply list_elem_of_fmap. exists (k, v). split; [done|].
    apply map_set_elem_of_new.
  - apply list_elem_of_fmap. exists (k', v'). split; [done|].
    by apply map_set_elem_of_other.
Qed.

Lemma map_keys_map_set_new {V : Type} (k : string) (v : V) m :
  k ∈ map_keys (map_set k v m).
Proof.
  unfold map_keys. apply list_elem_of_fmap. exists (k, v).
  split; [done|apply map_set_elem_of_new].
Qed.

Lemma map_set_NoDup {V : Type} (k : string) (v : V) m :
  NoDup (map_keys m) -> NoDup (map_keys (map_set k v m)).
Proof.
  unfold map_keys. induction m as [|[k' v'] m IH]; simpl.
  - intros _. apply NoDup_singleton.
  - intros [Hfresh Hnodup]%NoDup_cons. case_bool_decide as Heq; simpl.
    + subst k'. by apply NoDup_cons.
    + apply NoDup_cons. split; [|by apply IH].
      intros [Hk|Hin]%(map_keys_map_set k v m k'); [by subst|done].
Qed.

(** Setting a key and reading it back. *)
Lemma map_set_lookup {V : Type} (k : string) (v : V) m (v' : V) :
  NoDup (map_keys m) -> (k, v') ∈ map_set k v m -> v' = v.
Proof.
  intros Hnodup Hin.
  pose proof (map_set_NoDup k v m Hnodup) as Hnodup'.
  pose proof (map_set_elem_of_new k v m) as Hnew.
  apply list_elem_of_lookup in Hin as [i Hi].
  apply list_elem_of_lookup in Hnew as [j Hj].
  assert (i = j).
  { eapply NoDup_lookup; [exact Hnodup'| |]; unfold map_keys;
      change (map ?f ?l) with (f <$> l); rewrite list_lookup_fmap.
    - by rewrite Hi.
    - by rewrite Hj. }
  subst j. rewrite Hi in Hj. by inversion Hj.
Qed.

Section Consistency.

Context `{Platform} (w : World).

Lemma extracted_by_same_job c c' pd :
  same_job c c' -> extracted_by c pd -> extracted_by c' pd.
Proof.
  intros (Hs & Hcfg & _) (cv & page & response & Hs' & Hcfg' & Hpd).
  exists cv, page, response. repeat split; congruence.
Qed.

Lemma results_consistent_reachable url options c :
  reachable w url options c -> results_consistent c.
Proof.
  revert c. apply (reachable_ind w results_consistent).
  - intros c (_ & _ & Hv & Hr & _)%entry_state.
    unfold results_consistent. rewrite Hr, Hv. simpl. split; [constructor|].
    split; [intros k r Hin; by apply elem_of_nil in Hin|].
    split; [intros u Hu; by apply elem_of_empty in Hu|].
    intros k pd Hin. by apply elem_of_nil in Hin.
  - intros c c' (Hnodup & Hurl & Hvisited & Hextracted)
      (e & rest & _ & _ & Hjob & Hkind)%pass_kinds.
    unfold results_consistent.
    assert (Hstays : forall k pd, (k, Extracted pd) ∈ results c ->
                       (k ∈ visitedUrls c) /\ extracted_by c' pd).
    { intros k pd Hin. destruct (Hextracted k pd Hin).
      split; [done|by eapply extracted_by_same_job]. }
    destruct Hkind as [_ Hv Hr _ _|_ Hv Hr _ _
                      |pe evs _ Hv Hr Hu _ _ _ _ _
                      |pe closed _ Hv Hr Hu _ _ _ _
                      |pd closed _ Hby Hu _ _ Hv Hr _ _];
      rewrite Hv, Hr.
    + done.
    + done.
    + split; [by apply map_set_NoDup|]. split; [|split].
      * intros k r [[= -> ->]|Hin]%elem_of_map_set; [done|by apply Hurl].
      * intros u Hin. by apply map_keys_map_set_old, Hvisited.
      * intros k pd [[=]|Hin]%elem_of_map_set. by apply Hstays.
    + split; [by apply map_set_NoDup|]. split; [|split].
      * intros k r [[= -> ->]|Hin]%elem_of_map_set; [done|by apply Hurl].
      * intros u [->%elem_of_singleton|Hin]%elem_of_union.
        -- apply map_keys_map_set_new.
        -- by apply map_keys_map_set_old, Hvisited.
      * intros k pd' [[=]|Hin]%elem_of_map_set.
        destruct (Hstays k pd' Hin).
        split; [apply elem_of_union; by right|done].
    + split; [by apply map_set_NoDup|]. split; [|split].
      * intros k r [[= -> ->]|Hin]%elem_of_map_set; [done|by apply Hurl].
      * intros u [->%elem_of_singleton|Hin]%elem_of_union.
        -- apply map_keys_map_set_new.
        -- by apply map_keys_map_set_old, Hvisited.
      * intros k pd' [[= -> <-]|Hin]%elem_of_map_set.
        -- split; [|by eapply extracted_by_same_job].
           apply elem_of_union. left. by apply elem_of_singleton.
        -- destruct (Hstays k pd' Hin).
           split; [apply elem_of_union; by right|done].
Qed.

Lemma discovered_pass c c' e rest k depth parentUrl :
  same_job c c' -> pass_kind c e rest c' ->
  discovered c k depth parentUrl -> discovered c' k depth parentUrl.
Proof.
  intros (Hs & Hcfg & _) Hkind [Hseed|Hchild].
  { left. by rewrite Hs. }
  destruct Hchild as (parent & pd & Hp & Hin & Hvis & Hd & H0 & Hmax & Hlink).
  right. exists parent, pd. rewrite Hcfg.
  assert (Hgrow : forall u, admitted c e ->
            results c' = map_set (fe_url e) u (results c) ->
            (parent, Extracted pd) ∈ results c').
  { intros u (Hnew & _) ->. apply map_set_elem_of_other; [done|].
    by intros ->. }
  destruct Hkind as [_ Hv Hr _ _|_ Hv Hr _ _
                    |pe evs Ha Hv Hr _ _ _ _ _ _
                    |pe closed Ha Hv Hr _ _ _ _ _
                    |pd' closed Ha _ _ _ _ Hv Hr _ _]; rewrite Hv.
  - rewrite Hr. done.
  - rewrite Hr. done.
  - repeat split; try done. by eapply Hgrow.
  - repeat split; try done; [by eapply Hgrow|apply elem_of_union; by right].
  - repeat split; try done; [by eapply Hgrow|apply elem_of_union; by right].
Qed.

Lemma discovered_depth c k depth parentUrl :
  discovered c k depth parentUrl -> 0 <= depth.
Proof. intros [(_ & -> & _)|(? & ? & _ & _ & _ & <- & ? & _)]; lia. Qed.

Lemma elem_of_links_to_enqueue visited cfg depth links link :
  link ∈ links_to_enqueue visited cfg depth links ->
  link ∈ links /\ (link ∉ visited) /\ depth < maxDepth cfg
  /\ Z.of_nat (size visited) < maxPages cfg.
Proof.
  unfold links_to_enqueue.
  destruct (depth <? maxDepth cfg) eqn:Hd; [|by intros ?%elem_of_nil].
  rewrite list_elem_of_In, List.filter_In, <- list_elem_of_In.
  intros (Hin & (Hnew & Hlt)%andb_prop).
  apply negb_true_iff, bool_decide_eq_false in Hnew.
  apply Z.ltb_lt in Hd, Hlt. done.
Qed.

Lemma crawl_tree_reachable url options c :
  reachable w url options c -> crawl_tree c.
Proof.
  revert c. apply (reachable_ind w crawl_tree).
  - intros c (_ & _ & _ & Hr & Hq & _)%entry_state.
    unfold crawl_tree. rewrite Hr, Hq. split.
    + intros k r Hin. by apply elem_of_nil in Hin.
    + intros e ->%list_elem_of_singleton. by left.
  - intros c c' (Hres & Hqueue) (e & rest & Hq & _ & Hjob & Hkind)%pass_kinds.
    assert (Hhead : discovered c' (fe_url e) (fe_depth e) (fe_parentUrl e)).
    { eapply discovered_pass; [done..|]. apply Hqueue. rewrite Hq. by left. }
    assert (Hold_r : forall k r, (k, r) ∈ results c ->
              discovered c' k (result_depth r) (result_parentUrl r)).
    { intros k r Hin. eapply discovered_pass; [done..|]. by apply Hres. }
    assert (Hold_q : forall n, n ∈ rest ->
              discovered c' (fe_url n) (fe_depth n) (fe_parentUrl n)).
    { intros n Hin. eapply discovered_pass; [done..|].
      apply Hqueue. rewrite Hq. by right. }
    destruct Hjob as (_ & Hcfg & _).
    unfold crawl_tree.
    destruct Hkind as [_ _ Hr Hq' _|_ _ Hr Hq' _
                      |pe evs _ _ Hr Hu Hd Hp Hq' _ _
                      |pe closed _ _ Hr Hu Hd Hp Hq' _
                      |pd closed _ _ Hu Hd Hp Hv Hr Hq' _];
      rewrite Hr, Hq'.
    + done.
    + done.
    + split; [|done].
      intros k r [[= -> ->]|Hin]%elem_of_map_set; [|by apply Hold_r].
      simpl. by rewrite Hd, Hp.
    + split; [|done].
      intros k r [[= -> ->]|Hin]%elem_of_map_set; [|by apply Hold_r].
      simpl. by rewrite Hd, Hp.
    + split.
      * intros k r [[= -> ->]|Hin]%elem_of_map_set; [|by apply Hold_r].
        simpl. by rewrite Hd, Hp.
      * intros n [Hin|Hin]%elem_of_app; [by apply Hold_q|].
        apply list_elem_of_fmap in Hin as (link & -> & Hlink).
        apply elem_of_links_to_enqueue in Hlink as (Hlink & _ & Hmax & _).
        right. exists (fe_url e), pd. simpl. rewrite Hr, Hv, Hcfg, Hd.
        repeat split; try done.
        -- apply map_set_elem_of_new.
        -- apply elem_of_union. left. by apply elem_of_singleton.
        -- by eapply discovered_depth.
Qed.

End Consistency.

(** ** From the loop to the report *)

Section LoopAndReport.

Context `{Platform} (w : World).

(** The journal with which the loop is entered. *)
Lemma entry_journal url options c :
  entry w url options c ->
  exists pre, journal c = pre ++ [BrowserLaunch true]
              /\ forallb robots_event pre = true.
Proof.
  intros (c0 & Hc0 & ->). unfold construct in Hc0.
  destruct (normalizeUrl url) as [u|]; [|done]. injection Hc0 as <-.
  match goal with |- context [loadRobotsTxt w ?c1] =>
    destruct (loadRobotsTxt_effect w c1)
      as (_ & _ & _ & _ & _ & _ & _ & evs & Hj & Hevs)
  end.
  exists evs. unfold start_loop. simpl in *. by rewrite Hj.
Qed.

(** The loop is left normally only when its condition is false. *)
Lemma crawl_loop_exit_condition fuel c c' :
  crawl_loop w fuel c = Some (Returns (), c') -> loop_condition c' = false.
Proof.
  revert c. induction fuel as [|fuel IH]; intros c; simpl.
  - destruct (loop_condition c) eqn:Hcond; [done|]. by intros [= <-].
  - destruct (loop_condition c) eqn:Hcond; [|by intros [= <-]].
    destruct (loop_body w c) as [[[]|m] c1]; [apply IH|done].
Qed.

(** A report is the one generated from the final state, after a successful
    launch and a normal exit of the loop. *)
Lemma crawl_report fuel c0 report cf :
  crawl w fuel c0 = Some (Returns report, cf) ->
  report = generateReport w cf
  /\ w_launch w = Returns ()
  /\ exists c, crawl_loop w fuel
                 (start_loop
                    (loadRobotsTxt w
                       (set_startTime (Some (w_startTime w)) c0)))
               = Some (Returns (), c)
               /\ cf = emit (BrowserClose true) c.
Proof.
  unfold crawl, catch_and_close.
  destruct (w_launch w) as [[]|m].
  2:{ destruct (browser _); [destruct (w_browserClose w _)|]; done. }
  destruct (crawl_loop w fuel _) as [[[[]|m] c]|]; [| |done].
  - destruct (w_browserClose w _).
    + intros [= <- <-]. split; [done|]. split; [done|]. by exists c.
    + destruct (browser _); [destruct (w_browserClose w _)|]; done.
  - destruct (browser c); [destruct (w_browserClose w _)|]; done.
Qed.

Lemma results_depth_reachable url options c :
  reachable w url options c ->
  forall k r, (k, r) ∈ results c ->
              0 <= result_depth r <= maxDepth (config c).
Proof.
  intros Hreach k r Hin. split.
  { destruct (crawl_tree_reachable w url options c Hreach) as [Htree _].
    eapply discovered_depth. by apply Htree. }
  revert c Hreach k r Hin.
  apply (reachable_ind w
           (fun c => forall k r, (k, r) ∈ results c ->
                                 result_depth r <= maxDepth (config c))).
  - intros c (_ & _ & _ & -> & _)%entry_state k r Hin.
    by apply elem_of_nil in Hin.
  - intros c c' IH (e & rest & _ & _ & (_ & Hcfg & _) & Hkind)%pass_kinds.
    rewrite Hcfg.
    destruct Hkind as [_ _ Hr _ _|_ _ Hr _ _
                      |pe evs (_ & Hle & _) _ Hr _ Hd _ _ _ _
                      |pe closed (_ & Hle & _) _ Hr _ Hd _ _ _
                      |pd closed (_ & Hle & _) _ _ Hd _ _ Hr _ _];
      rewrite Hr; try done.
    all: intros k r [[= -> ->]|Hin]%elem_of_map_set; [|by eapply IH].
    all: simpl; by rewrite Hd.
Qed.

End LoopAndReport.

(** ** The crawl as a whole *)

Section WholeCrawl.

Context `{Platform} (w : World).

(** X1.  A delivered report never counts more pages than the page budget:
    when [maxPages] is not negative, [totalPages] is at most the [maxPages]
    of the report's configuration, which is the one the options gave. *)
Theorem X1_report_totalPages_within_maxPages url options fuel report j :
  0 <= maxPages (merge_config options) ->
  crawlWebsite w fuel url options = Some (Returns report, j) ->
  Z.of_nat (totalPages report) <= cs_maxPages (rp_config report)
  /\ cs_maxPages (rp_config report) = maxPages (merge_config options).
Proof.
  intros Hpos. unfold crawlWebsite.
  destruct (construct w url options) as [c0|] eqn:Hc0; [|done].
  destruct (crawl w fuel c0) as [[out cf]|] eqn:Hcrawl; [|done].
  intros [= -> <-].
  destruct (crawl_report w fuel c0 report cf Hcrawl) as (-> & Hlaunch & _).
  destruct (crawl_exit_state w url options c0 fuel _ cf Hc0 Hcrawl)
    as [Hexit _].
  destruct (Hexit Hlaunch) as (c & Hreach & _ & Hv & _ & Hcfg & _).
  destruct (reachable_same_job w url options c Hreach)
    as (c1 & Hentry & (_ & Hcfg1 & _)).
  apply entry_state in Hentry as (_ & Hmerge & _).
  simpl. rewrite Hv, Hcfg, Hcfg1, Hmerge. split; [|done].
  rewrite <- Hmerge, <- Hcfg1.
  apply (visited_within_maxPages w url options c Hreach).
  by rewrite Hcfg1, Hmerge.
Qed.

(** Enough passes bring [crawlWebsite] to an end. *)
Lemma crawlWebsite_total url options :
  exists fuel0 outcome,
    forall fuel, (fuel0 <= fuel)%nat ->
      crawlWebsite w fuel url options = Some outcome.
Proof.
  destruct (construct w url options) as [c0|m] eqn:Hc0.
  2:{ exists 0%nat, (Throws m, []). intros fuel _.
      unfold crawlWebsite. by rewrite Hc0. }
  destruct (crawl_loop_terminates w
              (start_loop
                 (loadRobotsTxt w (set_startTime (Some (w_startTime w)) c0))))
    as (fuel0 & [o c] & Hr).
  assert (Hsame : forall fuel, (fuel0 <= fuel)%nat ->
            crawl w fuel c0 = crawl w fuel0 c0).
  { intros fuel Hle. unfold crawl. destruct (w_launch w) as [[]|]; [|done].
    by rewrite (Hr fuel Hle), (Hr fuel0 (le_n _)). }
  assert (Hsome : exists out cf, crawl w fuel0 c0 = Some (out, cf)).
  { unfold crawl, catch_and_close. destruct (w_launch w) as [[]|].
    - rewrite (Hr fuel0 (le_n _)).
      destruct o as [[]|];
        repeat match goal with
               | |- context [match ?x with _ => _ end] => destruct x
               end; by eexists _, _.
    - repeat match goal with
             | |- context [match ?x with _ => _ end] => destruct x
             end; by eexists _, _. }
  destruct Hsome as (out & cf & Hrun).
  exists fuel0, (out, journal cf). intros fuel Hle.
  unfold crawlWebsite. by rewrite Hc0, (Hsame fuel Hle), Hrun.
Qed.

(** The configuration a report carries is the one the options gave. *)
Lemma crawlWebsite_report_config url options fuel report j :
  crawlWebsite w fuel url options = Some (Returns report, j) ->
  cs_maxDepth (rp_config report) = maxDepth (merge_config options)
  /\ cs_maxPages (rp_config report) = maxPages (merge_config options)
  /\ cs_respectRobotsTxt (rp_config report)
     = respectRobotsTxt (merge_config options).
Proof.
  unfold crawlWebsite.
  destruct (construct w url options) as [c0|] eqn:Hc0; [|done].
  destruct (crawl w fuel c0) as [[out cf]|] eqn:Hcrawl; [|done].
  intros [= -> <-].
  destruct (crawl_report w fuel c0 report cf Hcrawl) as (-> & Hlaunch & _).
  destruct (crawl_exit_state w url options c0 fuel _ cf Hc0 Hcrawl)
    as [Hexit _].
  destruct (Hexit Hlaunch) as (c & Hreach & _ & _ & _ & Hcfg & _).
  destruct (reachable_same_job w url options c Hreach)
    as (c1 & Hentry & (_ & Hcfg1 & _)).
  apply entry_state in Hentry as (_ & Hmerge & _).
  simpl. by rewrite Hcfg, Hcfg1, Hmerge.
Qed.

(** X2.  [crawlWebsite] always comes to an end, in every world: some number
    of passes suffices, and with more the outcome is the same. *)
Theorem X2_crawlWebsite_terminates url options :
  exists fuel0 outcome,
    forall fuel, (fuel0 <= fuel)%nat ->
      crawlWebsite w fuel url options = Some outcome.
Proof.
  apply crawlWebsite_total.
Qed.

(** X3.  Each URL has at most one result, and a result is stored under the
    URL it carries. *)
Theorem X3_one_result_per_url url options c :
  reachable w url options c ->
  NoDup (map_keys (results c))
  /\ forall k r, (k, r) ∈ results c -> result_url r = k.
Proof.
  intros (Hnodup & Hurl & _)%results_consistent_reachable. done.
Qed.

(** X4.  Every visited URL has a result, every extracted page is visited,
    and so the visited set is never larger than the results map. *)
Theorem X4_visited_urls_have_results url options c :
  reachable w url options c ->
  (forall u, u ∈ visitedUrls c -> exists r, (u, r) ∈ results c)
  /\ (forall k pd, (k, Extracted pd) ∈ results c -> k ∈ visitedUrls c)
  /\ (size (visitedUrls c) <= map_size (results c))%nat.
Proof.
  intros (Hnodup & _ & Hvisited & Hextracted)%results_consistent_reachable.
  split; [|split].
  - intros u Hu. apply Hvisited in Hu. unfold map_keys in Hu.
    apply list_elem_of_fmap in Hu as ([k r] & -> & Hin). by exists r.
  - intros k pd Hin. by apply Hextracted in Hin as [? _].
  - unfold map_size.
    rewrite <- (length_map fst (results c)).
    change (map fst (results c)) with (map_keys (results c)).
    rewrite <- (size_list_to_set (C := gset string) _ Hnodup).
    apply subseteq_size. intros u Hu. apply elem_of_list_to_set.
    by apply Hvisited.
Qed.

(** X5.  The results form a tree rooted at the start URL: a result is
    either the one of the start URL, at depth 0 and without parent, or its
    parent is a visited, extracted page one level up that lists the URL
    among its internal links; the same holds for every queued entry. *)
Theorem X5_results_form_a_tree url options c :
  reachable w url options c ->
  (forall k r, (k, r) ∈ results c ->
     discovered c k (result_depth r) (result_parentUrl r))
  /\ (forall e, e ∈ crawlQueue c ->
        discovered c (fe_url e) (fe_depth e) (fe_parentUrl e)).
Proof. apply crawl_tree_reachable. Qed.

(** X6.  With [maxDepth] at most 0 only the start URL is ever crawled: the
    results map holds at most one result, that of the start URL. *)
Theorem X6_no_depth_crawls_only_the_seed url options c :
  reachable w url options c ->
  maxDepth (config c) <= 0 ->
  (forall k r, (k, r) ∈ results c -> k = startUrl c)
  /\ (map_size (results c) <= 1)%nat.
Proof.
  intros Hreach Hmax.
  destruct (crawl_tree_reachable w url options c Hreach) as [Htree _].
  destruct (results_consistent_reachable w url options c Hreach)
    as (Hnodup & _).
  assert (Hseed : forall k r, (k, r) ∈ results c -> k = startUrl c).
  { intros k r [(-> & _)|(? & ? & _ & _ & _ & _ & ? & ? & _)]%Htree;
      [done|lia]. }
  split; [exact Hseed|].
  unfold map_size, map_keys in *.
  destruct (results c) as [|[k1 r1] [|[k2 r2] rs]]; simpl; [lia..|].
  exfalso. apply NoDup_cons in Hnodup as [Hfresh _]. apply Hfresh.
  simpl. rewrite (Hseed k1 r1), (Hseed k2 r2); [by left|by right; left|by left].
Qed.

(** X7.  When robots.txt cannot be loaded, the crawl has no policy and every
    URL is allowed. *)
Theorem X7_robots_failure_allows_everything url options c :
  (forall robotsUrl, is_ok (w_robots w robotsUrl) = false) ->
  reachable w url options c ->
  robotsParser c = None /\ forall u, isAllowedByRobots c u = Some true.
Proof.
  intros Hfail Hreach.
  destruct (reachable_same_job w url options c Hreach)
    as (c1 & (c0 & Hc0 & ->) & (_ & _ & Hrobots & _)).
  assert (Hnone : robotsParser c = None).
  { rewrite Hrobots. unfold start_loop, loadRobotsTxt. simpl.
    destruct (url_origin _) as [origin|]; [|done].
    specialize (Hfail (origin +:+ "/robots.txt")).
    by destruct (w_robots w _). }
  split; [done|]. intros u. unfold isAllowedByRobots. by rewrite Hnone.
Qed.

(** X8.  The depth test of the loop can only ever discard the start URL:
    every queued entry has a depth of at least 0, and an entry found through
    a link is never deeper than [maxDepth]. *)
Theorem X8_discovered_entries_within_maxDepth url options c :
  reachable w url options c ->
  forall e, e ∈ crawlQueue c ->
    0 <= fe_depth e
    /\ (maxDepth (config c) < fe_depth e ->
        fe_url e = startUrl c /\ fe_depth e = 0 /\ fe_parentUrl e = None).
Proof.
  intros Hreach e Hin.
  destruct (crawl_tree_reachable w url options c Hreach) as [_ Htree].
  apply Htree in Hin as Hd. split; [by eapply discovered_depth|].
  intros Hdeep.
  destruct Hd as [?|(? & ? & _ & _ & _ & ? & ? & ? & _)]; [done|lia].
Qed.

End WholeCrawl.

Lemma X1_report_totalPages_within_maxPages_witness :
  0 <= maxPages (merge_config no_options)
  /\ @crawlWebsite Fragment.platform (Sites.world_with_robots Sites.healthy)
       10 "example.com" no_options
     = Some (Returns Runs.healthy_report, Runs.healthy_journal)
  /\ Z.of_nat (totalPages Runs.healthy_report)
     <= cs_maxPages (rp_config Runs.healthy_report)
  /\ cs_maxPages (rp_config Runs.healthy_report)
     = maxPages (merge_config no_options).
Proof.
  assert (Hpos : 0 <= maxPages (merge_config no_options)).
  { vm_compute. discriminate. }
  assert (Hrun : @crawlWebsite Fragment.platform
                   (Sites.world_with_robots Sites.healthy) 10 "example.com"
                   no_options
                 = Some (Returns Runs.healthy_report, Runs.healthy_journal)).
  { vm_compute. reflexivity. }
  split; [exact Hpos|]. split; [exact Hrun|].
  exact (X1_report_totalPages_within_maxPages _ _ _ _ _ _ Hpos Hrun).
Defined.

Lemma X3_one_result_per_url_witness :
  @reachable Fragment.platform (Sites.world_with_robots Sites.healthy)
    "example.com" no_options Sites.healthy_exit
  /\ NoDup (map_keys (results Sites.healthy_exit))
  /\ forall k r, (k, r) ∈ results Sites.healthy_exit -> result_url r = k.
Proof.
  assert (Hreach : @reachable Fragment.platform
                     (Sites.world_with_robots Sites.healthy)
                     "example.com" no_options Sites.healthy_exit).
  { apply (loop_exit_reachable _ 10). vm_compute. reflexivity. }
  split; [exact Hreach|].
  exact (X3_one_result_per_url _ _ _ _ Hreach).
Defined.

Lemma X4_visited_urls_have_results_witness :
  @reachable Fragment.platform (Sites.world Sites.broken_links)
    "example.com" (Sites.options_maxPages 2) Sites.broken_exit
  /\ (forall u, u ∈ visitedUrls Sites.broken_exit ->
        exists r, (u, r) ∈ results Sites.broken_exit)
  /\ (forall k pd, (k, Extracted pd) ∈ results Sites.broken_exit ->
        k ∈ visitedUrls Sites.broken_exit)
  /\ (size (visitedUrls Sites.broken_exit)
      <= map_size (results Sites.broken_exit))%nat.
Proof.
  assert (Hreach : @reachable Fragment.platform
                     (Sites.world Sites.broken_links)
                     "example.com" (Sites.options_maxPages 2)
                     Sites.broken_exit).
  { apply (loop_exit_reachable _ 10). vm_compute. reflexivity. }
  split; [exact Hreach|].
  exact (X4_visited_urls_have_results _ _ _ _ Hreach).
Defined.

Lemma X5_results_form_a_tree_witness :
  @reachable Fragment.platform (Sites.world_with_robots Sites.healthy)
    "example.com" no_options Sites.healthy_exit
  /\ (forall k r, (k, r) ∈ results Sites.healthy_exit ->
        discovered Sites.healthy_exit k (result_depth r)
          (result_parentUrl r))
  /\ (forall e, e ∈ crawlQueue Sites.healthy_exit ->
        discovered Sites.healthy_exit (fe_url e) (fe_depth e)
          (fe_parentUrl e)).
Proof.
  assert (Hreach : @reachable Fragment.platform
                     (Sites.world_with_robots Sites.healthy)
                     "example.com" no_options Sites.healthy_exit).
  { apply (loop_exit_reachable _ 10). vm_compute. reflexivity. }
  split; [exact Hreach|].
  exact (X5_results_form_a_tree _ _ _ _ Hreach).
Defined.

Lemma X6_no_depth_crawls_only_the_seed_witness :
  @reachable Fragment.platform (Sites.world Sites.healthy)
    "example.com" (Runs.options_maxDepth 0) Runs.seed_only_exit
  /\ maxDepth (config Runs.seed_only_exit) <= 0
  /\ (forall k r, (k, r) ∈ results Runs.seed_only_exit ->
        k = startUrl Runs.seed_only_exit)
  /\ (map_size (results Runs.seed_only_exit) <= 1)%nat.
Proof.
  assert (Hreach : @reachable Fragment.platform (Sites.world Sites.healthy)
                     "example.com" (Runs.options_maxDepth 0)
                     Runs.seed_only_exit).
  { apply (loop_exit_reachable _ 10). vm_compute. reflexivity. }
  assert (Hmax : maxDepth (config Runs.seed_only_exit) <= 0).
  { vm_compute. discriminate. }
  split; [exact Hreach|]. split; [exact Hmax|].
  exact (X6_no_depth_crawls_only_the_seed _ _ _ _ Hreach Hmax).
Defined.

Lemma X7_robots_failure_allows_everything_witness :
  (forall robotsUrl,
     is_ok (w_robots (Sites.world Sites.broken_links) robotsUrl) = false)
  /\ @reachable Fragment.platform (Sites.world Sites.broken_links)
       "example.com" (Sites.options_maxPages 2) Sites.broken_exit
  /\ robotsParser Sites.broken_exit = None
  /\ forall u, isAllowedByRobots Sites.broken_exit u = Some true.
Proof.
  assert (Hfail : forall robotsUrl,
            is_ok (w_robots (Sites.world Sites.broken_links) robotsUrl)
            = false).
  { intros robotsUrl. reflexivity. }
  assert (Hreach : @reachable Fragment.platform
                     (Sites.world Sites.broken_links)
                     "example.com" (Sites.options_maxPages 2)
                     Sites.broken_exit).
  { apply (loop_exit_reachable _ 10). vm_compute. reflexivity. }
  split; [exact Hfail|]. split; [exact Hreach|].
  exact (X7_robots_failure_allows_everything _ _ _ _ Hfail Hreach).
Defined.

Lemma X8_discovered_entries_within_maxDepth_witness :
  @reachable Fragment.platform (Sites.world Sites.healthy)
    "example.com" (Sites.options_maxPages 2) Runs.budget_exit
  /\ forall e, e ∈ crawlQueue Runs.budget_exit ->
       0 <= fe_depth e
       /\ (maxDepth (config Runs.budget_exit) < fe_depth e ->
           fe_url e = startUrl Runs.budget_exit /\ fe_depth e = 0
           /\ fe_parentUrl e = None).
Proof.
  assert (Hreach : @reachable Fragment.platform
                     (Sites.world Sites.healthy)
                     "example.com" (Sites.options_maxPages 2) Runs.budget_exit).
  { apply (loop_exit_reachable _ 10). vm_compute. reflexivity. }
  split; [exact Hreach|].
  exact (X8_discovered_entries_within_maxDepth _ _ _ _ Hreach).
Defined.

(** ** Pages and navigations in the journal *)

Section PagesInJournal.

Context `{Platform} (w : World).

Lemma entry_counts url options c (p : Event -> bool) :
  (forall ev, robots_event ev = true -> p ev = false) ->
  p (BrowserLaunch true) = false ->
  entry w url options c -> count p (journal c) = 0%nat.
Proof.
  intros Hrobots Hlaunch (pre & -> & Hpre)%entry_journal.
  rewrite count_app, (count_none p robots_event pre Hrobots Hpre).
  unfold count. simpl. by rewrite Hlaunch.
Qed.

(** The calls a pass adds to the journal. *)
Lemma pass_calls c c' :
  pass w c c' ->
  exists e evs,
    journal c' = journal c ++ Shift e :: evs
    /\ ((evs = [] \/ evs = calls_unopened (fe_url e)
         \/ (exists closed, evs = calls_setup_failed (fe_url e) closed)
         \/ (exists closed, evs = calls_navigated (fe_url e) false closed))
        /\ visitedUrls c' = visitedUrls c
        \/ (exists closed, evs = calls_navigated (fe_url e) true closed)
           /\ (fe_url e ∉ visitedUrls c)
           /\ visitedUrls c' = {[fe_url e]} ∪ visitedUrls c).
Proof.
  intros (e & rest & _ & _ & _ & Hkind)%pass_kinds. exists e.
  destruct Hkind as [_ Hv _ _ Hj|_ Hv _ _ Hj
                    |pe evs _ Hv _ _ _ _ _ Hj [closed Hevs]
                    |pe closed (Hnew & _) Hv _ _ _ _ _ Hj
                    |pd closed (Hnew & _) _ _ _ _ Hv _ _ Hj].
  - exists []. split; [done|]. left. split; [by left|done].
  - eexists. split; [done|]. left. split; [by right; left|done].
  - exists evs. split; [done|]. left. split; [|done].
    right. right. destruct Hevs; [left|right]; by exists closed.
  - eexists. split; [done|]. right. split; [by exists closed|done].
  - eexists. split; [done|]. right. split; [by exists closed|done].
Qed.

(** X9.  Every page that was opened has been closed when the pass is over,
    whatever happened to the navigation, and a page is navigated at most
    once: the journal of a crawl has as many [page.close()] calls as
    successful [browser.newPage()] calls, and no more [page.goto] calls. *)
Theorem X9_every_opened_page_is_closed url options c :
  reachable w url options c ->
  count is_PageClose (journal c) = count is_PageOpened (journal c)
  /\ (count is_AnyGoto (journal c) <= count is_PageOpened (journal c))%nat.
Proof.
  revert c.
  apply (reachable_ind w
           (fun c =>
              count is_PageClose (journal c) = count is_PageOpened (journal c)
              /\ (count is_AnyGoto (journal c)
                  <= count is_PageOpened (journal c))%nat)).
  - intros c Hentry.
    rewrite (entry_counts url options c is_PageClose),
      (entry_counts url options c is_PageOpened),
      (entry_counts url options c is_AnyGoto); try done.
    all: by intros [].
  - intros c c' [Hclose Hgoto] (e & evs & -> & Hevs)%pass_calls.
    rewrite !count_app, Hclose.
    destruct Hevs
      as [([->|[->|[[closed ->]|[closed ->]]]] & _)|([closed ->] & _)];
      unfold count in *; simpl; lia.
Qed.

(** X10.  No URL is fetched successfully twice: the journal holds exactly
    one successful navigation for each visited URL and none for any other
    URL. *)
Theorem X10_one_successful_navigation_per_url url options c :
  reachable w url options c ->
  forall u,
    count (is_GotoOk u) (journal c)
    = if bool_decide (u ∈ visitedUrls c) then 1%nat else 0%nat.
Proof.
  revert c.
  apply (reachable_ind w
           (fun c => forall u,
              count (is_GotoOk u) (journal c)
              = if bool_decide (u ∈ visitedUrls c) then 1%nat else 0%nat)).
  - intros c Hentry u.
    rewrite (entry_counts url options c (is_GotoOk u)); try done.
    + apply entry_state in Hentry as (_ & _ & -> & _).
      by rewrite bool_decide_eq_false_2 by apply not_elem_of_empty.
    + by intros [].
  - intros c c' IH (e & evs & -> & Hevs)%pass_calls u.
    rewrite count_app, IH.
    destruct Hevs
      as [([->|[->|[[closed ->]|[closed ->]]]] & ->)
         |([closed ->] & Hnew & ->)]; unfold count; simpl; try lia.
    destruct (decide (fe_url e = u)) as [<-|Hne].
    + rewrite (bool_decide_eq_true_2 (fe_url e = fe_url e)) by done.
      rewrite (bool_decide_eq_false_2 _ Hnew).
      rewrite (bool_decide_eq_true_2
                 (fe_url e ∈ {[fe_url e]} ∪ visitedUrls c)); [done|].
      apply elem_of_union. left. by apply elem_of_singleton.
    + rewrite (bool_decide_eq_false_2 (fe_url e = u)) by done. simpl.
      rewrite Nat.add_0_r.
      assert (Hiff : u ∈ visitedUrls c
                     <-> u ∈ {[fe_url e]} ∪ visitedUrls c).
      { rewrite elem_of_union, elem_of_singleton. split; [by right|].
        by intros [->|?]. }
      by rewrite (bool_decide_ext _ _ Hiff).
Qed.

End PagesInJournal.

Lemma X9_every_opened_page_is_closed_witness :
  @reachable Fragment.platform (Sites.world Sites.broken_links)
    "example.com" (Sites.options_maxPages 2) Sites.broken_exit
  /\ count is_PageClose (journal Sites.broken_exit)
     = count is_PageOpened (journal Sites.broken_exit)
  /\ (count is_AnyGoto (journal Sites.broken_exit)
      <= count is_PageOpened (journal Sites.broken_exit))%nat.
Proof.
  assert (Hreach : @reachable Fragment.platform
                     (Sites.world Sites.broken_links)
                     "example.com" (Sites.options_maxPages 2)
                     Sites.broken_exit).
  { apply (loop_exit_reachable _ 10). vm_compute. reflexivity. }
  split; [exact Hreach|].
  exact (X9_every_opened_page_is_closed _ _ _ _ Hreach).
Defined.

Lemma X10_one_successful_navigation_per_url_witness :
  @reachable Fragment.platform (Sites.world_with_robots Sites.healthy)
    "example.com" no_options Sites.healthy_exit
  /\ forall u,
       count (is_GotoOk u) (journal Sites.healthy_exit)
       = if bool_decide (u ∈ visitedUrls Sites.healthy_exit)
         then 1%nat else 0%nat.
Proof.
  assert (Hreach : @reachable Fragment.platform
                     (Sites.world_with_robots Sites.healthy)
                     "example.com" no_options Sites.healthy_exit).
  { apply (loop_exit_reachable _ 10). vm_compute. reflexivity. }
  split; [exact Hreach|].
  exact (X10_one_successful_navigation_per_url _ _ _ _ Hreach).
Defined.

(** ** What [extractPageData] returns *)

Lemma elem_of_push_unique (x : string) (l : list string) (y : string) :
  y ∈ push_unique x l <-> y = x \/ y ∈ l.
Proof.
  unfold push_unique. case_bool_decide as Hin.
  - split; [by right|]. by intros [->|?].
  - rewrite elem_of_app, list_elem_of_singleton. tauto.
Qed.

Lemma push_unique_NoDup (x : string) (l : list string) :
  NoDup l -> NoDup (push_unique x l).
Proof.
  unfold push_unique. case_bool_decide as Hin; [done|].
  intros Hl. apply NoDup_app. split; [done|]. split; [|apply NoDup_singleton].
  intros y Hy ->%list_elem_of_singleton. done.
Qed.

Lemma truthy_string_Some (o : option string) (s : string) :
  truthy_string o = Some s <-> o = Some s /\ s <> "".
Proof.
  destruct o as [[|a t]|]; simpl; split; try done.
  - by intros [[= <-] ?].
  - by intros [= <-].
  - by intros [[= <-] _].
  - by intros [? _].
Qed.

Lemma string_length_append (a b : string) :
  String.length (a +:+ b) = (String.length a + String.length b)%nat.
Proof. induction a as [|x a IH]; simpl; [done|]. by rewrite IH. Qed.

Lemma substring0_length (n : nat) (s : string) :
  (String.length (substring0 n s) <= n)%nat.
Proof.
  revert s. induction n as [|n IH]; intros [|x s]; simpl; try lia.
  specialize (IH s). lia.
Qed.

Lemma startsWith_append (p s : string) : startsWith (p +:+ s) p = true.
Proof.
  unfold startsWith.
  assert (Hstrip : strip_prefix p (p +:+ s) = Some s).
  { induction p as [|x p IH]; simpl; [done|]. by rewrite Ascii.eqb_refl. }
  by rewrite Hstrip.
Qed.

Section ExtractedData.

Context `{Platform}.

Lemma extract_links_fold c url anchors acc :
  let step := fun links href =>
    match url_resolve href url with
    | Some abs =>
        let absoluteUrl := strip_trailing_slash abs in
        if isInternalUrl c absoluteUrl
        then {| internal := push_unique absoluteUrl (internal links);
                external := external links |}
        else {| internal := internal links;
                external := push_unique absoluteUrl (external links) |}
    | None => links
    end in
  (NoDup (internal acc) -> NoDup (internal (fold_left step anchors acc)))
  /\ (NoDup (external acc) -> NoDup (external (fold_left step anchors acc)))
  /\ (forall u, u ∈ internal (fold_left step anchors acc)
                <-> u ∈ internal acc
                    \/ (isInternalUrl c u = true /\ linked url anchors u))
  /\ (forall u, u ∈ external (fold_left step anchors acc)
                <-> u ∈ external acc
                    \/ (isInternalUrl c u = false /\ linked url anchors u)).
Proof.
  intros step. subst step. revert acc.
  induction anchors as [|href anchors IH]; intros acc.
  - simpl. split; [done|]. split; [done|].
    split; intros u; (split; [by left|]);
      intros [?|(_ & ? & ? & ?%elem_of_nil & _)]; done.
  - cbn [fold_left]. cbn beta.
    assert (Hlinked : forall u,
              linked url (href :: anchors) u
              <-> (exists abs, url_resolve href url = Some abs
                               /\ u = strip_trailing_slash abs)
                  \/ linked url anchors u).
    { intros u. unfold linked. split.
      - intros (h & abs & [->|Hin]%elem_of_cons & Hres & Hu).
        + left. by exists abs.
        + right. by exists h, abs.
      - intros [(abs & Hres & Hu)|(h & abs & Hin & Hres & Hu)].
        + exists href, abs. split; [by left|done].
        + exists h, abs. split; [by right|done]. }
    destruct (url_resolve href url) as [abs|] eqn:Hres.
    2:{ destruct (IH acc) as (Hni & Hne & Hi & He).
        split; [done|]. split; [done|].
        split; intros u; [rewrite Hi|rewrite He]; rewrite Hlinked;
          (split; [intros [?|[? ?]]; [by left|right; split; [done|by right]]
                  |intros [?|[? [(? & [=] & _)|?]]]; [by left|by right]]). }
    cbn zeta.
    destruct (isInternalUrl c (strip_trailing_slash abs)) eqn:Hint.
    + match goal with |- context [fold_left _ anchors ?a] =>
        destruct (IH a) as (Hni & Hne & Hi & He)
      end.
      simpl in Hni, Hne, Hi, He.
      split; [intros ?; by apply Hni, push_unique_NoDup|].
      split; [done|].
      split; intros u; [rewrite Hi, elem_of_push_unique|rewrite He];
        rewrite Hlinked.
      * split.
        -- intros [[->|?]|[? ?]].
           ++ right. split; [done|]. left. by exists abs.
           ++ by left.
           ++ right. split; [done|by right].
        -- intros [?|[? [(abs' & [= <-] & ->)|?]]].
           ++ left. by right.
           ++ left. by left.
           ++ by right.
      * split.
        -- intros [?|[? ?]]; [by left|right; split; [done|by right]].
        -- intros [?|[Hext [(abs' & [= <-] & ->)|?]]];
             [by left|congruence|by right].
    + match goal with |- context [fold_left _ anchors ?a] =>
        destruct (IH a) as (Hni & Hne & Hi & He)
      end.
      simpl in Hni, Hne, Hi, He.
      split; [done|].
      split; [intros ?; by apply Hne, push_unique_NoDup|].
      split; intros u; [rewrite Hi|rewrite He, elem_of_push_unique];
        rewrite Hlinked.
      * split.
        -- intros [?|[? ?]]; [by left|right; split; [done|by right]].
        -- intros [?|[Hext [(abs' & [= <-] & ->)|?]]];
             [by left|congruence|by right].
      * split.
        -- intros [[->|?]|[? ?]].
           ++ right. split; [done|]. left. by exists abs.
           ++ by left.
           ++ right. split; [done|by right].
        -- intros [?|[? [(abs' & [= <-] & ->)|?]]].
           ++ left. by right.
           ++ left. by left.
           ++ by right.
Qed.

(** X11.  The links of a page are classified and deduplicated: neither list
    has a duplicate; the internal list holds exactly the resolved anchors,
    one trailing slash removed, whose host is the host of the start URL,
    and the external list exactly the others; an anchor that does not
    resolve appears in neither. *)
Theorem X11_links_classified_without_duplicates c url anchors :
  NoDup (internal (extract_links c url anchors))
  /\ NoDup (external (extract_links c url anchors))
  /\ (forall u,
        u ∈ internal (extract_links c url anchors)
        <-> isInternalUrl c u = true
            /\ exists href abs,
                 href ∈ anchors /\ url_resolve href url = Some abs
                 /\ u = strip_trailing_slash abs)
  /\ (forall u,
        u ∈ external (extract_links c url anchors)
        <-> isInternalUrl c u = false
            /\ exists href abs,
                 href ∈ anchors /\ url_resolve href url = Some abs
                 /\ u = strip_trailing_slash abs).
Proof.
  destruct (extract_links_fold c url anchors
              {| internal := []; external := [] |})
    as (Hni & Hne & Hi & He).
  unfold extract_links.
  split; [apply Hni; constructor|]. split; [apply Hne; constructor|].
  split; intros u; [rewrite Hi|rewrite He]; simpl;
    (split; [intros [?%elem_of_nil|?]; done|by right]).
Qed.

End ExtractedData.

Section StoredPages.

Context `{Platform} (w : World).

Lemma extractPageData_bounds cv page url response loadTime depth parentUrl pd :
  extractPageData cv page url response loadTime depth parentUrl = Returns pd ->
  (length (images (pd_resources pd)) <= 50)%nat
  /\ pd_screenshot pd = take_screenshot cv page.
Proof.
  unfold extractPageData. intros Hpd.
  destruct (ps_content page); [|done].
  destruct (extract_headers response); [|done].
  destruct (ps_title page); [|done].
  destruct response; [|done].
  injection Hpd as <-. simpl. split; [|done].
  rewrite length_take. lia.
Qed.

Lemma take_screenshot_Some cv page s :
  take_screenshot cv page = Some s ->
  screenshotEnabled (config cv) = true
  /\ exists data, ps_screenshot page = Returns data /\ data <> ""
       /\ s = "data:image/jpeg;base64," +:+ substring0 100 data +:+ "...".
Proof.
  unfold take_screenshot.
  destruct (screenshotEnabled (config cv)); [|done].
  destruct (ps_screenshot page) as [data|]; [|done].
  destruct data as [|a data]; [done|]. intros [= <-].
  split; [done|]. by eexists.
Qed.

(** X12.  No stored page carries more than 50 images, so the image total of
    the report is at most 50 times the number of results. *)
Theorem X12_images_capped_at_fifty url options c :
  reachable w url options c ->
  (forall k pd, (k, Extracted pd) ∈ results c ->
     (length (images (pd_resources pd)) <= 50)%nat)
  /\ (totalImages (statistics (generateReport w c))
      <= 50 * map_size (results c))%nat.
Proof.
  intros (_ & _ & _ & Hextracted)%results_consistent_reachable.
  assert (Hcap : forall k pd, (k, Extracted pd) ∈ results c ->
                   (length (images (pd_resources pd)) <= 50)%nat).
  { intros k pd (_ & cv & page & response & _ & _ & Hpd)%Hextracted.
    by apply extractPageData_bounds in Hpd as (? & _). }
  split; [exact Hcap|]. simpl. unfold map_size, map_values.
  assert (Hsum : forall (rs : list (string * PageResult)) acc,
            (forall k pd, (k, Extracted pd) ∈ rs ->
               (length (images (pd_resources pd)) <= 50)%nat) ->
            (fold_left (fun sum page => (sum + count_images page)%nat)
               (map snd rs) acc
             <= acc + 50 * length rs)%nat).
  { induction rs as [|[k r] rs IH]; intros acc Hrs; simpl; [lia|].
    etrans; [apply IH|].
    - intros k' pd Hin. apply (Hrs k'). by right.
    - assert (Hr : (count_images r <= 50)%nat).
      { destruct r as [pd|pe]; [|unfold count_images; simpl; lia].
        apply (Hrs k). by left. }
      lia. }
  apply (Hsum (results c) 0%nat Hcap).
Qed.

(** X13.  A stored screenshot is only a reference: it exists only when
    screenshots are enabled, starts with the JPEG data-URL prefix and is at
    most 126 characters long, whatever the size of the capture. *)
Theorem X13_screenshot_reference_is_short url options c :
  reachable w url options c ->
  forall k pd s,
    (k, Extracted pd) ∈ results c ->
    pd_screenshot pd = Some s ->
    screenshotEnabled (config c) = true
    /\ startsWith s "data:image/jpeg;base64," = true
    /\ (String.length s <= 126)%nat.
Proof.
  intros (_ & _ & _ & Hextracted)%results_consistent_reachable k pd s Hin Hs.
  apply Hextracted in Hin as (_ & cv & page & response & _ & Hcfg & Hpd).
  apply extractPageData_bounds in Hpd as (_ & Hshot).
  rewrite Hshot in Hs.
  apply take_screenshot_Some in Hs as (Hon & data & _ & _ & ->).
  rewrite <- Hcfg. split; [done|]. split; [apply startsWith_append|].
  rewrite !string_length_append.
  pose proof (substring0_length 100 data) as Hcut.
  set (n := String.length (substring0 100 data)) in *.
  change (String.length "data:image/jpeg;base64,") with 23%nat.
  change (String.length "...") with 3%nat. lia.
Qed.

End StoredPages.

Lemma X12_images_capped_at_fifty_witness :
  @reachable Fragment.platform (Sites.world_with_robots Sites.healthy)
    "example.com" no_options Sites.healthy_exit
  /\ (forall k pd, (k, Extracted pd) ∈ results Sites.healthy_exit ->
        (length (images (pd_resources pd)) <= 50)%nat)
  /\ (totalImages
        (statistics
           (generateReport (Sites.world_with_robots Sites.healthy)
              Sites.healthy_exit))
      <= 50 * map_size (results Sites.healthy_exit))%nat.
Proof.
  assert (Hreach : @reachable Fragment.platform
                     (Sites.world_with_robots Sites.healthy)
                     "example.com" no_options Sites.healthy_exit).
  { apply (loop_exit_reachable _ 10). vm_compute. reflexivity. }
  split; [exact Hreach|].
  exact (X12_images_capped_at_fifty _ _ _ _ Hreach).
Defined.

Lemma X13_screenshot_reference_is_short_witness :
  @reachable Fragment.platform (Sites.world_with_robots Sites.healthy)
    "example.com" no_options Sites.healthy_exit
  /\ forall k pd s,
       (k, Extracted pd) ∈ results Sites.healthy_exit ->
       pd_screenshot pd = Some s ->
       screenshotEnabled (config Sites.healthy_exit) = true
       /\ startsWith s "data:image/jpeg;base64," = true
       /\ (String.length s <= 126)%nat.
Proof.
  assert (Hreach : @reachable Fragment.platform
                     (Sites.world_with_robots Sites.healthy)
                     "example.com" no_options Sites.healthy_exit).
  { apply (loop_exit_reachable _ 10). vm_compute. reflexivity. }
  split; [exact Hreach|].
  exact (X13_screenshot_reference_is_short _ _ _ _ Hreach).
Defined.

(** ** Meta tags *)

(** X14.  A meta tag is recorded only with a non-empty name and a non-empty
    content, both taken from one [meta] element of the page, whose
    [property] attribute serves as the name only when it has no [name]. *)
Theorem X14_meta_tags_have_name_and_content (metas : list MetaElem)
    (name content : string) :
  extract_meta metas !! name = Some content ->
  name <> "" /\ content <> ""
  /\ exists elem,
       elem ∈ metas /\ meta_content elem = Some content
       /\ (meta_name elem = Some name
           \/ (truthy_string (meta_name elem) = None
               /\ meta_property elem = Some name)).
Proof.
  unfold extract_meta.
  assert (Hfold : forall acc : gmap string string,
            fold_left
              (fun metaTags elem =>
                 match or_else (meta_name elem)
                         (truthy_string (meta_property elem)),
                       truthy_string (meta_content elem) with
                 | Some name, Some content => object_set name content metaTags
                 | _, _ => metaTags
                 end) metas acc !! name = Some content ->
            acc !! name = Some content
            \/ (name <> "" /\ content <> ""
                /\ exists elem,
                     elem ∈ metas /\ meta_content elem = Some content
                     /\ (meta_name elem = Some name
                         \/ (truthy_string (meta_name elem) = None
                             /\ meta_property elem = Some name)))).
  { induction metas as [|elem metas IH]; intros acc; simpl; [by left|].
    intros [Hacc|(? & ? & e & ? & ?)]%IH.
    2:{ right. split; [done|]. split; [done|]. exists e.
        split; [by right|done]. }
    destruct (or_else (meta_name elem) (truthy_string (meta_property elem)))
      as [n|] eqn:Hname; [|by left].
    destruct (truthy_string (meta_content elem)) as [v|] eqn:Hcontent;
      [|by left].
    unfold object_set in Hacc. case_bool_decide; [by left|].
    destruct (decide (n = name)) as [->|Hne].
    2:{ left. by rewrite lookup_insert_ne in Hacc. }
    rewrite lookup_insert_eq in Hacc. injection Hacc as ->.
    apply truthy_string_Some in Hcontent as [Hcontent Hv].
    right. unfold or_else in Hname.
    destruct (truthy_string (meta_name elem)) as [n'|] eqn:Hn.
    - injection Hname as ->. apply truthy_string_Some in Hn as [Hn ?].
      split; [done|]. split; [done|]. exists elem.
      split; [by left|]. split; [done|by left].
    - apply truthy_string_Some in Hname as [Hp ?].
      split; [done|]. split; [done|]. exists elem.
      split; [by left|]. split; [done|by right]. }
  intros [Hempty|Hfound]%Hfold; [|done].
  by rewrite lookup_empty in Hempty.
Qed.

Lemma X14_meta_tags_have_name_and_content_witness :
  extract_meta (doc_meta (Sites.document [])) !! "description"
  = Some "An example page"
  /\ "description" <> "" /\ "An example page" <> ""
  /\ exists elem,
       elem ∈ doc_meta (Sites.document [])
       /\ meta_content elem = Some "An example page"
       /\ (meta_name elem = Some "description"
           \/ (truthy_string (meta_name elem) = None
               /\ meta_property elem = Some "description")).
Proof.
  assert (Hfound : extract_meta (doc_meta (Sites.document []))
                     !! "description" = Some "An example page").
  { vm_compute. reflexivity. }
  split; [exact Hfound|].
  exact (X14_meta_tags_have_name_and_content _ _ _ Hfound).
Defined.

(** ** The start URL *)

(** X15.  A start URL given without [http://] or [https://] is treated as
    the same URL with [https://] in front: both normalize to the same
    result, or both are rejected with the same message. *)
Theorem X15_scheme_defaults_to_https `{Platform} (url : string) :
  startsWith url "http://" = false ->
  startsWith url "https://" = false ->
  normalizeUrl url = normalizeUrl ("https://" +:+ url).
Proof.
  intros Hhttp Hhttps. unfold normalizeUrl.
  rewrite Hhttp, Hhttps.
  assert (Hprefixed : startsWith ("https://" +:+ url) "https://" = true)
    by apply startsWith_append.
  rewrite Hprefixed.
  by destruct (startsWith ("https://" +:+ url) "http://").
Qed.

Lemma X15_scheme_defaults_to_https_witness :
  startsWith "example.com" "http://" = false
  /\ startsWith "example.com" "https://" = false
  /\ @normalizeUrl Fragment.platform "example.com"
     = @normalizeUrl Fragment.platform ("https://" +:+ "example.com").
Proof.
  split; [reflexivity|]. split; [reflexivity|].
  exact (@X15_scheme_defaults_to_https Fragment.platform "example.com"
           eq_refl eq_refl).
Defined.

(** ** The report, once more *)

Section DeliveredReport.

Context `{Platform} (w : World).

(** X16.  Every entry of the sitemap of a delivered report has a depth
    between 0 and the [maxDepth] of the report's configuration. *)
Theorem X16_report_sitemap_within_maxDepth url options fuel report j :
  crawlWebsite w fuel url options = Some (Returns report, j) ->
  forall path se,
    sitemap report !! path = Some se ->
    0 <= se_depth se <= cs_maxDepth (rp_config report).
Proof.
  unfold crawlWebsite.
  destruct (construct w url options) as [c0|] eqn:Hc0; [|done].
  destruct (crawl w fuel c0) as [[out cf]|] eqn:Hcrawl; [|done].
  intros [= -> <-] path se Hse.
  destruct (crawl_report w fuel c0 report cf Hcrawl) as (-> & Hlaunch & _).
  destruct (crawl_exit_state w url options c0 fuel _ cf Hc0 Hcrawl)
    as [Hexit _].
  destruct (Hexit Hlaunch) as (c & Hreach & Hr & _ & _ & Hcfg & _).
  simpl in Hse. apply build_sitemap_lookup in Hse as (u & r & Hin & _ & ->).
  simpl. rewrite Hcfg. rewrite Hr in Hin.
  by eapply results_depth_reachable.
Qed.

(** X17.  A report is delivered only when the queue is empty or the page
    budget is used up: if [totalPages] is below [maxPages], nothing was left
    in the queue. *)
Theorem X17_report_means_queue_empty_or_budget_reached fuel c0 report cf :
  crawl w fuel c0 = Some (Returns report, cf) ->
  crawlQueue cf = []
  \/ cs_maxPages (rp_config report) <= Z.of_nat (totalPages report).
Proof.
  intros (-> & _ & c & Hloop & ->)%crawl_report.
  apply crawl_loop_exit_condition in Hloop. simpl.
  unfold loop_condition in Hloop.
  apply andb_false_iff in Hloop as [Hq|Hv].
  - left. apply Z.ltb_ge in Hq. destruct (crawlQueue c); [done|].
    simpl in Hq. lia.
  - right. by apply Z.ltb_ge in Hv.
Qed.

(** X18.  When every page failed, the statistics of the report are all
    zero: failed pages add no links, no images and no load time. *)
Theorem X18_failed_pages_add_nothing_to_statistics c :
  (forall k r, (k, r) ∈ results c -> result_error r <> None) ->
  totalLinks (statistics (generateReport w c)) = 0%nat
  /\ totalImages (statistics (generateReport w c)) = 0%nat
  /\ avgLoadTime (statistics (generateReport w c)) = double_zero.
Proof.
  intros Hfailed. simpl. unfold average_loadTime, timed_pages, map_values.
  assert (Hall : Forall (fun p => exists e, p = Failed e)
                   (map snd (results c))).
  { apply Forall_forall. intros p ([k r] & -> & Hin)%list_elem_of_fmap.
    apply Hfailed in Hin. destruct r as [d|e]; [done|by exists e]. }
  induction Hall as [|p ps [e ->] _ IH]; simpl; [done|].
  destruct IH as (Hl & Hi & Ha). done.
Qed.

(** X19.  When the navigation succeeds but the extraction throws, the page
    gets an error result and the URL is nevertheless marked as visited;
    nothing is enqueued, and [crawlPage] returns normally if the page
    closes.  The page is closed: the calls made are [newPage], the
    navigation and [page.close()], in this order, and when [page.close()]
    rejects its error is thrown. *)
Theorem X19_failed_extraction_still_marks_visited c url depth parentUrl
    response message :
  ps_newPage (w_page w (count is_NewPage (journal c)) url) = Returns () ->
  ps_setup (w_page w (count is_NewPage (journal c)) url) = Returns () ->
  ps_goto (w_page w (count is_NewPage (journal c)) url) = Returns response ->
  extractPageData c (w_page w (count is_NewPage (journal c)) url) url
    response (ps_loadTime (w_page w (count is_NewPage (journal c)) url))
    depth parentUrl = Throws message ->
  results (snd (crawlPage w c url depth parentUrl))
  = map_set url
      (Failed {| pe_url := url; pe_error := message; pe_depth := depth;
                 pe_parentUrl := parentUrl;
                 pe_crawledAt :=
                   ps_clock (w_page w (count is_NewPage (journal c)) url) |})
      (results c)
  /\ visitedUrls (snd (crawlPage w c url depth parentUrl))
     = {[url]} ∪ visitedUrls c
  /\ crawlQueue (snd (crawlPage w c url depth parentUrl)) = crawlQueue c
  /\ (ps_close (w_page w (count is_NewPage (journal c)) url) = Returns () ->
      fst (crawlPage w c url depth parentUrl) = Returns ())
  /\ journal (snd (crawlPage w c url depth parentUrl))
     = journal c
       ++ [NewPage url true; Goto url true;
           PageClose url
             (is_ok (ps_close (w_page w (count is_NewPage (journal c)) url)))]
  /\ (forall m,
        ps_close (w_page w (count is_NewPage (journal c)) url) = Throws m ->
        fst (crawlPage w c url depth parentUrl) = Throws m).
Proof.
  intros Hnew Hsetup Hgoto Hextract. unfold crawlPage.
  rewrite Hnew, Hsetup, Hgoto.
  match goal with |- context [extractPageData ?cv _ _ _ _ _ _] =>
    rewrite (extractPageData_same_job c cv) by done
  end.
  rewrite Hextract.
  destruct (ps_close _) as [[]|]; simpl; rewrite <- !app_assoc; simpl;
    repeat split; try done; by intros ? [= ->].
Qed.

End DeliveredReport.

Lemma X16_report_sitemap_within_maxDepth_witness :
  @crawlWebsite Fragment.platform (Sites.world_with_robots Sites.healthy)
    10 "example.com" no_options
  = Some (Returns Runs.healthy_report, Runs.healthy_journal)
  /\ forall path se,
       sitemap Runs.healthy_report !! path = Some se ->
       0 <= se_depth se <= cs_maxDepth (rp_config Runs.healthy_report).
Proof.
  assert (Hrun : @crawlWebsite Fragment.platform
                   (Sites.world_with_robots Sites.healthy) 10 "example.com"
                   no_options
                 = Some (Returns Runs.healthy_report, Runs.healthy_journal)).
  { vm_compute. reflexivity. }
  split; [exact Hrun|].
  exact (X16_report_sitemap_within_maxDepth _ _ _ _ _ _ Hrun).
Defined.

Lemma X17_report_means_queue_empty_or_budget_reached_witness :
  @crawl Fragment.platform (Sites.world_with_robots Sites.healthy) 10
    Runs.healthy_crawler
  = Some (Returns Runs.healthy_report, Runs.healthy_final)
  /\ (crawlQueue Runs.healthy_final = []
      \/ cs_maxPages (rp_config Runs.healthy_report)
         <= Z.of_nat (totalPages Runs.healthy_report)).
Proof.
  assert (Hrun : @crawl Fragment.platform
                   (Sites.world_with_robots Sites.healthy) 10
                   Runs.healthy_crawler
                 = Some (Returns Runs.healthy_report, Runs.healthy_final)).
  { vm_compute. reflexivity. }
  split; [exact Hrun|].
  exact (X17_report_means_queue_empty_or_budget_reached _ _ _ _ _ Hrun).
Defined.

Lemma X18_failed_pages_add_nothing_to_statistics_witness :
  (forall k r, (k, r) ∈ results Runs.unreachable_exit ->
     result_error r <> None)
  /\ totalLinks
       (statistics
          (generateReport (Sites.world Runs.unreachable_site)
             Runs.unreachable_exit)) = 0%nat
  /\ totalImages
       (statistics
          (generateReport (Sites.world Runs.unreachable_site)
             Runs.unreachable_exit)) = 0%nat
  /\ avgLoadTime
       (statistics
          (generateReport (Sites.world Runs.unreachable_site)
             Runs.unreachable_exit)) = double_zero.
Proof.
  assert (Hfailed : forall k r, (k, r) ∈ results Runs.unreachable_exit ->
                      result_error r <> None).
  { intros k r Hin. vm_compute in Hin.
    apply list_elem_of_singleton in Hin. by injection Hin as _ ->. }
  split; [exact Hfailed|].
  exact (X18_failed_pages_add_nothing_to_statistics
           (Sites.world Runs.unreachable_site) Runs.unreachable_exit Hfailed).
Defined.

Lemma X19_failed_extraction_still_marks_visited_witness :
  (ps_newPage (Sites.no_response "https://example.com") = Returns ()
   /\ ps_setup (Sites.no_response "https://example.com") = Returns ()
   /\ ps_goto (Sites.no_response "https://example.com") = Returns None
   /\ @extractPageData Fragment.platform Sites.idle
        (Sites.no_response "https://example.com") "https://example.com"
        None 800 0 None
      = Throws "Cannot read properties of null (reading 'headers')")
  /\ visitedUrls
       (snd (@crawlPage Fragment.platform (Sites.world Sites.no_response)
               Sites.idle "https://example.com" 0 None))
     = {[ "https://example.com" ]} ∪ visitedUrls Sites.idle
  /\ journal
       (snd (@crawlPage Fragment.platform (Sites.world Sites.no_response)
               Sites.idle "https://example.com" 0 None))
     = journal Sites.idle
       ++ [NewPage "https://example.com" true;
           Goto "https://example.com" true;
           PageClose "https://example.com" true].
Proof.
  split; [repeat split; reflexivity|].
  destruct (@X19_failed_extraction_still_marks_visited Fragment.platform
              (Sites.world Sites.no_response) Sites.idle
              "https://example.com" 0 None None
              "Cannot read properties of null (reading 'headers')"
              eq_refl eq_refl eq_refl eq_refl)
    as (_ & Hvisited & _ & _ & Hjournal & _).
  split; [exact Hvisited|exact Hjournal].
Defined.

(** ** The storage service *)

Section StorageProperties.

Import StorageService.

Variable sw : StorageWorld.

Lemma init_effect (st : StorageState) :
  (fst (init sw st) = mongodb
   <-> is_Some (MONGO_URI sw) /\ is_ok (mongo_new sw) = true
       /\ is_ok (mongo_connect sw) = true)
  /\ (fst (init sw st) = mongodb -> db (snd (init sw st)) = true)
  /\ (fst (init sw st) = file -> db (snd (init sw st)) = db st).
Proof.
  unfold init. destruct (MONGO_URI sw) as [uri|].
  - destruct (mongo_new sw); [destruct (mongo_connect sw)|]; simpl.
    + split; [|done]. split; [intros _|done]. split; [by eexists|done].
    + split; [|done]. split; [done|]. by intros (_ & _ & ?).
    + split; [|done]. split; [done|]. by intros (_ & ? & _).
  - simpl. split; [|done]. split; [done|]. by intros ([? ?] & _).
Qed.

(** X20.  [init] never throws and answers [mongodb] exactly when a MongoDB
    URI is configured and the connection succeeds; then [saveCrawl] uses the
    database.  In every other case it answers [file] and leaves [db] as it
    was: from a fresh module [saveCrawl] then writes a file, but a database
    handle from an earlier [init] stays in use. *)
Theorem X20_init_answer_and_database_handle (st : StorageState) :
  (fst (init sw st) = mongodb
   <-> is_Some (MONGO_URI sw) /\ is_ok (mongo_new sw) = true
       /\ is_ok (mongo_connect sw) = true)
  /\ (fst (init sw st) = mongodb -> db (snd (init sw st)) = true)
  /\ (fst (init sw st) = file -> db (snd (init sw st)) = db st)
  /\ (fst (init sw st) = mongodb \/ fst (init sw st) = file).
Proof.
  destruct (init_effect st) as (Hkind & Hdb & Hfile).
  split; [done|]. split; [done|]. split; [done|].
  destruct (fst (init sw st)); [by left|by right].
Qed.

(** [saveCrawl] makes one call, chosen by [db], and rethrows its error. *)
Lemma saveCrawl_effect (st : StorageState) (report : Report) :
  (db st = false ->
   let filepath :=
     path_join sw (FALLBACK_DIR sw) (rp_crawlId report +:+ ".json") in
   calls (snd (saveCrawl sw st report))
   = calls st ++ [WriteFile filepath (is_ok (fs_writeFile sw filepath))]
   /\ fst (saveCrawl sw st report)
      = match fs_writeFile sw filepath with
        | Returns _ => Returns (SavedFile filepath)
        | Throws m => Throws m
        end)
  /\ (db st = true ->
      calls (snd (saveCrawl sw st report))
      = calls st ++ [MongoInsertOne (rp_crawlId report)
                       (is_ok (mongo_insertOne sw report))]
      /\ fst (saveCrawl sw st report)
         = match mongo_insertOne sw report with
           | Returns id => Returns (SavedMongo id)
           | Throws m => Throws m
           end)
  /\ db (snd (saveCrawl sw st report)) = db st.
Proof.
  unfold saveCrawl. destruct (db st) eqn:Hdb.
  - split; [done|]. split; [|by destruct (mongo_insertOne sw report)].
    intros _. by destruct (mongo_insertOne sw report).
  - split; [|split; [done|]].
    + intros _. cbv zeta. by destruct (fs_writeFile sw _).
    + by destruct (fs_writeFile sw _).
Qed.

(** [init] stores nothing and [saveCrawl] makes one attempt. *)
Lemma init_saves (st : StorageState) :
  List.filter is_save (calls (snd (init sw st)))
  = List.filter is_save (calls st)
  /\ List.filter is_stored (calls (snd (init sw st)))
     = List.filter is_stored (calls st).
Proof.
  unfold init, ensureFallbackDir, called.
  destruct (MONGO_URI sw); [destruct (mongo_new sw);
                            [destruct (mongo_connect sw)|]|];
    simpl; rewrite ?List.filter_app; simpl; by rewrite ?app_nil_r.
Qed.

Lemma saveCrawl_saves (st : StorageState) (report : Report) :
  length (List.filter is_save (calls (snd (saveCrawl sw st report))))
  = S (length (List.filter is_save (calls st)))
  /\ length (List.filter is_stored (calls (snd (saveCrawl sw st report))))
     = (length (List.filter is_stored (calls st))
        + (if is_ok (fst (saveCrawl sw st report)) then 1 else 0))%nat.
Proof.
  unfold saveCrawl, called.
  destruct (db st);
    [destruct (mongo_insertOne sw report)|destruct (fs_writeFile sw _)];
    simpl; rewrite !List.filter_app, !length_app; simpl; lia.
Qed.

(** X21.  On a module that holds no database handle, the report goes where
    [init] said: after the answer [mongodb], [saveCrawl] makes one call, an
    [insertOne], and after the answer [file] one call, a [writeFile] of
    [<crawlId>.json] in the fallback directory; it answers with the inserted
    id or with that path, and rethrows the error of the call when it
    fails. *)
Theorem X21_report_stored_where_init_said (st : StorageState)
    (report : Report) :
  db st = false ->
  let st1 := snd (init sw st) in
  let filepath :=
    path_join sw (FALLBACK_DIR sw) (rp_crawlId report +:+ ".json") in
  match fst (init sw st) with
  | mongodb =>
      calls (snd (saveCrawl sw st1 report))
      = calls st1 ++ [MongoInsertOne (rp_crawlId report)
                        (is_ok (mongo_insertOne sw report))]
      /\ fst (saveCrawl sw st1 report)
         = match mongo_insertOne sw report with
           | Returns id => Returns (SavedMongo id)
           | Throws m => Throws m
           end
  | file =>
      calls (snd (saveCrawl sw st1 report))
      = calls st1 ++ [WriteFile filepath (is_ok (fs_writeFile sw filepath))]
      /\ fst (saveCrawl sw st1 report)
         = match fs_writeFile sw filepath with
           | Returns _ => Returns (SavedFile filepath)
           | Throws m => Throws m
           end
  end.
Proof.
  intros Hdb st1 filepath. subst st1 filepath.
  destruct (init_effect st) as (_ & Hmongo & Hfile).
  destruct (saveCrawl_effect (snd (init sw st)) report)
    as (Hwrite & Hinsert & _).
  destruct (fst (init sw st)).
  - apply Hinsert. by apply Hmongo.
  - apply Hwrite. by rewrite Hfile.
Qed.

(** X26.  [close] closes what [init] opened, and only that: after an [init]
    on a module without client, it calls [mongoClient.close()] exactly when
    a URI is configured and the client could be constructed, also when the
    connection then failed and [init] answered [file]; otherwise it does
    nothing.  It never resets [db], so a [saveCrawl] after [close] still
    goes to the database. *)
Theorem X26_close_closes_what_init_opened (st : StorageState) :
  mongoClient st = false ->
  (is_Some (MONGO_URI sw) /\ is_ok (mongo_new sw) = true ->
   calls (snd (close sw (snd (init sw st))))
   = calls (snd (init sw st)) ++ [MongoClose (is_ok (mongo_close sw))])
  /\ (~ (is_Some (MONGO_URI sw) /\ is_ok (mongo_new sw) = true) ->
      close sw (snd (init sw st)) = (Returns (), snd (init sw st)))
  /\ db (snd (close sw (snd (init sw st)))) = db (snd (init sw st)).
Proof.
  intros Hclient. unfold init, close, ensureFallbackDir, called.
  destruct (MONGO_URI sw) as [uri|].
  - destruct (mongo_new sw) as [[]|m]; simpl.
    + split; [intros _|split; [intros Hno|]].
      * destruct (mongo_connect sw), (mongo_close sw); simpl; done.
      * destruct Hno. split; [by eexists|done].
      * destruct (mongo_connect sw), (mongo_close sw); simpl; done.
    + rewrite Hclient. split; [by intros [_ ?]|done].
  - simpl. rewrite Hclient. split; [by intros [[? ?] _]|done].
Qed.

End StorageProperties.

(** ** The crawl controller *)

Section ControllerProperties.

Import StorageService CrawlerController.

Context `{Platform} (w : World) (sw : StorageWorld).

(** The three ways through [startCrawl]. *)
Lemma startCrawl_cases fuel st body response st' j :
  startCrawl w sw fuel st body = Some (response, st', j) ->
  (truthy_string (body_url body) = None
   /\ response = url_required /\ st' = st /\ j = [])
  \/ exists url,
       truthy_string (body_url body) = Some url
       /\ ((exists m,
              crawlWebsite w fuel url (crawl_options body)
              = Some (Throws m, j)
              /\ response = failed_to_crawl m
              /\ st' = snd (init sw st))
           \/ exists report,
                crawlWebsite w fuel url (crawl_options body)
                = Some (Returns report, j)
                /\ st' = snd (saveCrawl sw (snd (init sw st)) report)
                /\ response
                   = match fst (saveCrawl sw (snd (init sw st)) report) with
                     | Returns saved => success report saved
                     | Throws m => failed_to_crawl m
                     end).
Proof.
  intros Hrun. unfold startCrawl in Hrun.
  destruct (truthy_string (body_url body)) as [url|] eqn:Hurl.
  2:{ injection Hrun as <- <- <-. by left. }
  right. exists url. split; [done|].
  destruct (init sw st) as [kind st1] eqn:Hinit. simpl in *.
  destruct (crawlWebsite w fuel url (crawl_options body))
    as [[[report|m] j1]|] eqn:Hcrawl; [| |done].
  - right. exists report.
    destruct (saveCrawl sw st1 report) as [[saved|m] st2] eqn:Hsave;
      injection Hrun as <- <- <-; simpl; done.
  - left. exists m. by injection Hrun as <- <- <-.
Qed.

(** X22.  [startCrawl] answers every request, in every world and whatever
    the storage does: enough passes give one response, which is the 400
    answer, a 500 answer with the error's message, or the 200 answer with a
    report and where it was stored. *)
Theorem X22_startCrawl_answers_every_request st body :
  exists fuel0 response st' j,
    (forall fuel, (fuel0 <= fuel)%nat ->
       startCrawl w sw fuel st body = Some (response, st', j))
    /\ (response = url_required
        \/ (exists m, response = failed_to_crawl m)
        \/ exists report saved, response = success report saved).
Proof.
  unfold startCrawl.
  destruct (truthy_string (body_url body)) as [url|].
  2:{ exists 0%nat, url_required, st, []. split; [done|by left]. }
  destruct (init sw st) as [kind st1].
  destruct (crawlWebsite_total w url (crawl_options body))
    as (fuel0 & [[report|m] j] & Hrun).
  - destruct (saveCrawl sw st1 report) as [[saved|m] st2] eqn:Hsave.
    + exists fuel0, (success report saved), st2, j. split.
      * intros fuel Hle. by rewrite (Hrun fuel Hle), Hsave.
      * right; right. by exists report, saved.
    + exists fuel0, (failed_to_crawl m), st2, j. split.
      * intros fuel Hle. by rewrite (Hrun fuel Hle), Hsave.
      * right; left. by exists m.
  - exists fuel0, (failed_to_crawl m), st1, j. split.
    + intros fuel Hle. by rewrite (Hrun fuel Hle).
    + right; left. by exists m.
Qed.

(** X23.  The answer is 400 exactly when the body has no [url] or an empty
    one, and then nothing was done: the storage module is as it was and the
    crawler made no call. *)
Theorem X23_missing_url_rejected_before_any_work fuel st body response st' j :
  startCrawl w sw fuel st body = Some (response, st', j) ->
  (http_status response = 400
   <-> body_url body = None \/ body_url body = Some "")
  /\ (http_status response = 400 ->
      response = url_required /\ st' = st /\ j = []).
Proof.
  intros Hrun.
  assert (Hfalsy : truthy_string (body_url body) = None
                   <-> body_url body = None \/ body_url body = Some "").
  { destruct (body_url body) as [[|a s]|]; simpl; split; try done;
      try (by left); try (by right); by intros [|]. }
  rewrite <- Hfalsy.
  destruct (startCrawl_cases fuel st body response st' j Hrun)
    as [(Hurl & -> & -> & ->)
       |(url & Hurl & [(m & _ & -> & _)|(report & _ & _ & ->)])].
  - done.
  - rewrite Hurl. simpl. split; [split|]; done.
  - rewrite Hurl.
    destruct (fst (saveCrawl sw _ report)); simpl; (split; [split|]; done).
Qed.

(** X24.  A report is stored exactly when the answer is 200: the successful
    storage calls grow by one with a 200 answer and not at all otherwise;
    one request makes at most one attempt to store, and none when the crawl
    itself failed. *)
Theorem X24_report_stored_iff_success fuel st body response st' j :
  startCrawl w sw fuel st body = Some (response, st', j) ->
  length (List.filter is_stored (calls st'))
  = (length (List.filter is_stored (calls st))
     + (if bool_decide (http_status response = 200%Z) then 1 else 0))%nat
  /\ (length (List.filter is_save (calls st'))
      <= S (length (List.filter is_save (calls st))))%nat
  /\ forall url m,
       truthy_string (body_url body) = Some url ->
       crawlWebsite w fuel url (crawl_options body) = Some (Throws m, j) ->
       List.filter is_save (calls st') = List.filter is_save (calls st).
Proof.
  intros Hrun.
  destruct (init_saves sw st) as [Hsave Hstored].
  destruct (startCrawl_cases fuel st body response st' j Hrun)
    as [(Hurl & -> & -> & ->)
       |(url & Hurl & [(m & Hcrawl & -> & ->)
                      |(report & Hcrawl & -> & ->)])].
  - simpl. split; [lia|]. split; [lia|]. intros url m Hurl'. congruence.
  - simpl. rewrite Hsave, Hstored. split; [lia|]. split; [lia|]. done.
  - destruct (saveCrawl_saves sw (snd (init sw st)) report) as [Hone Hok].
    rewrite Hone, Hok, Hsave, Hstored.
    split; [|split; [lia|]].
    + by destruct (fst (saveCrawl sw _ report)).
    + intros url' m Hurl' Hcrawl'. congruence.
Qed.

(** X25.  A limit of zero cannot be asked for: a [maxDepth] or [maxPages]
    of [0] in the body is replaced like a missing one, by 5 and by 100, so
    the report of a 200 answer was made with limits different from zero,
    and with robots.txt respected, which the body cannot switch off. *)
Theorem X25_zero_limits_fall_back_to_defaults fuel st body response st' j
    data :
  startCrawl w sw fuel st body = Some (response, st', j) ->
  res_data response = Some data ->
  cs_maxDepth (rp_config (fst data)) = number_or (body_maxDepth body) 5
  /\ cs_maxPages (rp_config (fst data)) = number_or (body_maxPages body) 100
  /\ cs_maxDepth (rp_config (fst data)) <> 0
  /\ cs_maxPages (rp_config (fst data)) <> 0
  /\ cs_respectRobotsTxt (rp_config (fst data)) = true.
Proof.
  intros Hrun Hdata.
  assert (Hnz : forall n d, d <> 0 -> number_or n d <> 0).
  { intros [v|] d Hd; simpl; [|done].
    destruct (Z.eqb_spec v 0); done. }
  destruct (startCrawl_cases fuel st body response st' j Hrun)
    as [(_ & -> & _)
       |(url & _ & [(m & _ & -> & _)|(report & Hcrawl & _ & ->)])];
    try done.
  destruct (fst (saveCrawl sw _ report)) as [saved|m]; [|done].
  injection Hdata as <-. simpl.
  destruct (crawlWebsite_report_config w url (crawl_options body) fuel
              report j Hcrawl) as (-> & -> & ->).
  simpl. split; [done|]. split; [done|].
  split; [by apply Hnz|]. split; [by apply Hnz|done].
Qed.

End ControllerProperties.

Section RequestWitnesses.

Import StorageService CrawlerController Requests.

Lemma X21_report_stored_where_init_said_witness :
  db fresh = false
  /\ fst (init disk_only fresh) = file
  /\ fst (saveCrawl disk_only (snd (init disk_only fresh))
            Runs.healthy_report)
     = Returns
         (SavedFile
            "/srv/backend/data/crawls/crawl_1704294000000_abc123xyz.json").
Proof.
  assert (Hdb : db fresh = false) by reflexivity.
  split; [exact Hdb|]. split; [reflexivity|].
  pose proof (X21_report_stored_where_init_said disk_only fresh
                Runs.healthy_report Hdb) as Hx.
  vm_compute in Hx. destruct Hx as [_ Hx]. vm_compute. exact Hx.
Defined.

Lemma X26_close_closes_what_init_opened_witness :
  mongoClient fresh = false
  /\ calls (snd (close with_mongo (snd (init with_mongo fresh))))
     = [MongoConnect true; MongoClose true]
  /\ db (snd (close with_mongo (snd (init with_mongo fresh)))) = true.
Proof.
  assert (Hclient : mongoClient fresh = false) by reflexivity.
  split; [exact Hclient|].
  destruct (X26_close_closes_what_init_opened with_mongo fresh Hclient)
    as (Hcalls & _ & Hdb).
  split; [apply Hcalls; split; [by eexists|reflexivity]|exact Hdb].
Defined.

Lemma X23_missing_url_rejected_before_any_work_witness :
  @startCrawl Fragment.platform (Sites.world_with_robots Sites.healthy)
    disk_only 0 fresh (body_of (Some "") None)
  = Some (url_required, fresh, [])
  /\ (http_status url_required = 400
      <-> body_url (body_of (Some "") None) = None
          \/ body_url (body_of (Some "") None) = Some "")
  /\ (http_status url_required = 400 ->
      url_required = url_required /\ fresh = fresh
      /\ @nil Event = []).
Proof.
  assert (Hrun : @startCrawl Fragment.platform
                   (Sites.world_with_robots Sites.healthy) disk_only 0 fresh
                   (body_of (Some "") None)
                 = Some (url_required, fresh, [])) by reflexivity.
  split; [exact Hrun|].
  exact (X23_missing_url_rejected_before_any_work _ _ _ _ _ _ _ _ Hrun).
Defined.

Lemma X24_report_stored_iff_success_witness :
  @startCrawl Fragment.platform (Sites.world_with_robots Sites.healthy)
    disk_only 10 fresh (body_of (Some "example.com") None)
  = Some (healthy_response, healthy_storage, healthy_calls)
  /\ http_status healthy_response = 200
  /\ length (List.filter is_stored (calls healthy_storage))
     = (length (List.filter is_stored (calls fresh))
        + (if bool_decide (http_status healthy_response = 200%Z)
           then 1 else 0))%nat.
Proof.
  assert (Hrun : @startCrawl Fragment.platform
                   (Sites.world_with_robots Sites.healthy) disk_only 10 fresh
                   (body_of (Some "example.com") None)
                 = Some (healthy_response, healthy_storage, healthy_calls)).
  { vm_compute. reflexivity. }
  split; [exact Hrun|]. split; [vm_compute; reflexivity|].
  exact (proj1 (X24_report_stored_iff_success _ _ _ _ _ _ _ _ Hrun)).
Defined.

Lemma X25_zero_limits_fall_back_to_defaults_witness :
  @startCrawl Fragment.platform (Sites.world_with_robots Sites.healthy)
    disk_only 10 fresh (body_of (Some "example.com") (Some 0))
  = Some (zero_depth_response, zero_depth_storage, zero_depth_calls)
  /\ res_data zero_depth_response = Some zero_depth_data
  /\ cs_maxDepth (rp_config (fst zero_depth_data)) = 5
  /\ cs_maxDepth (rp_config (fst zero_depth_data)) <> 0.
Proof.
  assert (Hrun : @startCrawl Fragment.platform
                   (Sites.world_with_robots Sites.healthy) disk_only 10 fresh
                   (body_of (Some "example.com") (Some 0))
                 = Some (zero_depth_response, zero_depth_storage,
                         zero_depth_calls)).
  { vm_compute. reflexivity. }
  assert (Hdata : res_data zero_depth_response = Some zero_depth_data).
  { vm_compute. reflexivity. }
  split; [exact Hrun|]. split; [exact Hdata|].
  destruct (X25_zero_limits_fall_back_to_defaults _ _ _ _ _ _ _ _ _
              Hrun Hdata) as (Hdepth & _ & Hnz & _).
  split; [exact Hdepth|exact Hnz].
Defined.

End RequestWitnesses.
